(** * Verification of the DCS audit package builder

    A shallow embedding of [tools/dcs_audit_builder.py]: the content
    generators, the three validators, the checksum and write helpers,
    [build_package], [create_zip] and [main], followed by the properties of
    the build pipeline (validation gate, preview mode, manifest shape,
    checksums, exit codes).

    Conventions of the embedding.
    - A Python [str] is the list of its code points ([pystr]); [bytes] is a
      list of [byte].  A string literal of the script is written [u "..."]:
      the script is a UTF-8 file, so the code points of a literal are the
      UTF-8 decoding of the bytes between its quotes.
    - A function that can raise returns a [result]; a function that touches
      the file system or the logger is a state transformer over [World].
    - Python's codec registry, pathlib and zipfile are libraries of the
      interpreter, not of the script; the part of them the script needs is
      modelled below and the modelling choices are stated where they are
      made. *)

From Stdlib Require Import String Ascii NArith ZArith Bool Lia.
From Stdlib.Strings Require Import Byte.
From Stdlib Require Import DecimalString Permutation List.
Import ListNotations.

Set Implicit Arguments.
Set Warnings "-register-all".

(* ================================================================== *)
(** ** Exceptions and results *)

Inductive Exn : Type :=
| ValidationError (msg : list N)
| LookupError
| UnicodeEncodeError
| AttributeError
| TypeError
| PermissionError
| FileExistsError
| OSError
| NotImplementedError.

Inductive result (A : Type) : Type :=
| Ok (a : A)
| Err (e : Exn).
Arguments Ok {A} a.
Arguments Err {A} e.

Definition bind_result {A B} (r : result A) (k : A -> result B) : result B :=
  match r with
  | Ok a => k a
  | Err e => Err e
  end.

Declare Scope result_scope.
Delimit Scope result_scope with res.
Notation "'do' x <- r ; k" := (bind_result r (fun x => k))
  (at level 10, x name, r at level 100, k at level 200) : result_scope.

Definition is_validation_error (e : Exn) : bool :=
  match e with
  | ValidationError _ => true
  | _ => false
  end.

(* ================================================================== *)
(** ** Python strings *)

Module PyStr.

(** A [str] is a sequence of code points, a [bytes] a sequence of octets. *)
Definition pystr : Type := list N.
Definition bytes : Type := list byte.

Definition byte_of (n : N) : byte :=
  match Byte.of_N n with
  | Some b => b
  | None => x00
  end.

Local Open Scope N_scope.

(** UTF-8 decoding of the octets of a source literal.  A malformed tail is
    decoded as U+FFFD; the literals of the script are well formed. *)
Fixpoint utf8_decode (bs : list N) : pystr :=
  match bs with
  | [] => []
  | b0 :: r =>
    if b0 <? 0x80 then b0 :: utf8_decode r
    else if b0 <? 0xE0 then
      match r with
      | b1 :: r1 =>
        N.lor (N.shiftl (N.land b0 0x1F) 6) (N.land b1 0x3F) :: utf8_decode r1
      | _ => [0xFFFD]
      end
    else if b0 <? 0xF0 then
      match r with
      | b1 :: b2 :: r2 =>
        N.lor (N.shiftl (N.land b0 0x0F) 12)
              (N.lor (N.shiftl (N.land b1 0x3F) 6) (N.land b2 0x3F))
        :: utf8_decode r2
      | _ => [0xFFFD]
      end
    else
      match r with
      | b1 :: b2 :: b3 :: r3 =>
        N.lor (N.shiftl (N.land b0 0x07) 18)
              (N.lor (N.shiftl (N.land b1 0x3F) 12)
                     (N.lor (N.shiftl (N.land b2 0x3F) 6) (N.land b3 0x3F)))
        :: utf8_decode r3
      | _ => [0xFFFD]
      end
  end.

(** [u "..."] is the Python [str] denoted by a literal of the script. *)
Definition u (s : string) : pystr :=
  utf8_decode (map Byte.to_N (list_byte_of_string s)).
Arguments u s%_string.

(** The double quote, which a literal here cannot contain. *)
Definition dq : pystr := [34].

(** [requote m s]: [s] with every occurrence of the marker code point [m]
    replaced by a double quote.  The long templates of the script are
    written with a marker where the script has a double quote. *)
Definition requote (m : N) (s : pystr) : pystr :=
  map (fun c => if c =? m then 34 else c) s.

Definition is_surrogate (c : N) : bool := (0xD800 <=? c) && (c <=? 0xDFFF).

(** *** Substring test, [needle in hay] *)

Fixpoint startswith (needle hay : pystr) : bool :=
  match needle, hay with
  | [], _ => true
  | _ :: _, [] => false
  | a :: n', b :: h' => (a =? b) && startswith n' h'
  end.

Fixpoint contains (needle hay : pystr) : bool :=
  startswith needle hay ||
  match hay with
  | [] => false
  | _ :: h' => contains needle h'
  end.

(** *** [str.lower]

    ASCII capitals are mapped to their small letters.  The case mapping of
    code points above U+007F is not modelled: they are kept.  The script
    lowers a string only to search it for [label for=]; the only non-ASCII
    code points whose lower case contains an ASCII letter are U+212A (k) and
    U+0130 (i), neither a letter of that pattern, so the search result is
    that of Python. *)
Definition lower_cp (c : N) : N :=
  if (65 <=? c) && (c <=? 90) then c + 32 else c.

Definition lower (s : pystr) : pystr := map lower_cp s.

(** *** Numbers in f-strings *)

(** [str(n)] for an [int]. *)
Definition str_of_Z (z : Z) : pystr :=
  u (NilZero.string_of_int (Z.to_int z)).

Definition digit_cp (d : N) : N := 48 + d.

(** The decimal digits of [n], least significant first. *)
Fixpoint digits_rev (fuel : nat) (n : N) : list N :=
  match fuel with
  | O => []
  | S f => if n <? 10 then [n] else (n mod 10) :: digits_rev f (n / 10)
  end.

(** Groups of three with a comma between, on digits given least
    significant first; the result is least significant first too. *)
Fixpoint group3 (ds : list N) : pystr :=
  match ds with
  | a :: b :: c :: r =>
    match r with
    | [] => map digit_cp ds
    | _ :: _ => digit_cp a :: digit_cp b :: digit_cp c :: 44 :: group3 r
    end
  | _ => map digit_cp ds
  end.

(** [f"{n:,}"] for a size [n >= 0]. *)
Definition format_thousands (n : N) : pystr :=
  rev (group3 (digits_rev (S (N.to_nat (N.log2 n))) n)).

(** [sep.join(parts)] *)
Fixpoint join (sep : pystr) (parts : list pystr) : pystr :=
  match parts with
  | [] => []
  | [p] => p
  | p :: rest => p ++ sep ++ join sep rest
  end.

End PyStr.
(* ================================================================== *)
(** ** Codecs: [str.encode(name)]

    The codec registry belongs to the interpreter.  The model holds the
    codecs below, under every name the registry accepts for them after its
    normalisation of the name (letters lowered, every run of characters
    other than letters, digits and the dot turned into one underscore).
    The registry of an installation holds many more (the code pages, the
    East Asian codecs, UTF-7, ...); here their names raise [LookupError].
    The properties below are therefore stated on the result of
    [Codec.encode], whatever codec gave it, and none of them is proved by
    going through the codecs of this table.  UTF-16 and UTF-32 without a
    byte order in the name write a byte order mark and little-endian
    units, as on the little-endian machines the script is run on. *)

Module Codec.
Import PyStr.
Local Open Scope N_scope.

Inductive t : Type :=
| UTF8 | UTF8Sig | ASCII | Latin1 | CP1252 | UTF16 | UTF16LE | UTF16BE
| UTF32 | UTF32LE | UTF32BE | RawUnicodeEscape.

Definition is_alnum_dot (c : N) : bool :=
  ((48 <=? c) && (c <=? 57)) || ((97 <=? c) && (c <=? 122)) || (c =? 46).

(** Lower the letters and collapse every run of other characters into one
    underscore ([pending] records a run not yet written; a run at either end
    of the name is dropped). *)
Fixpoint normalize_aux (started pending : bool) (s : pystr) : pystr :=
  match s with
  | [] => []
  | c :: r =>
    let c' := lower_cp c in
    if is_alnum_dot c' then
      (if started && pending then [95] else []) ++ c' :: normalize_aux true false r
    else normalize_aux started true r
  end.

Definition normalize (name : pystr) : pystr := normalize_aux false false name.

Definition str_eqb (a b : pystr) : bool :=
  if list_eq_dec N.eq_dec a b then true else false.

Definition names : list (string * t) :=
  [ ("utf_8", UTF8); ("utf8", UTF8); ("utf", UTF8); ("u8", UTF8);
    ("cp65001", UTF8); ("utf8_ucs2", UTF8); ("utf8_ucs4", UTF8);
    ("utf_8_sig", UTF8Sig);
    ("ascii", ASCII); ("us_ascii", ASCII); ("646", ASCII);
    ("ansi_x3.4_1968", ASCII); ("ansi_x3.4_1986", ASCII);
    ("ansi_x3_4_1968", ASCII); ("cp367", ASCII); ("csascii", ASCII);
    ("ibm367", ASCII); ("iso646_us", ASCII); ("iso_646.irv_1991", ASCII);
    ("iso_ir_6", ASCII); ("us", ASCII);
    ("latin_1", Latin1); ("latin1", Latin1); ("latin", Latin1);
    ("l1", Latin1); ("iso_8859_1", Latin1); ("iso8859_1", Latin1);
    ("iso8859", Latin1); ("iso_8859_1_1987", Latin1); ("iso_ir_100", Latin1);
    ("csisolatin1", Latin1); ("ibm819", Latin1);
    ("8859", Latin1); ("cp819", Latin1);
    ("cp1252", CP1252); ("windows_1252", CP1252); ("1252", CP1252);
    ("utf_16", UTF16); ("utf16", UTF16); ("u16", UTF16);
    ("utf_16_le", UTF16LE); ("utf_16le", UTF16LE); ("unicodelittleunmarked", UTF16LE);
    ("utf_16_be", UTF16BE); ("utf_16be", UTF16BE); ("unicodebigunmarked", UTF16BE);
    ("utf_32", UTF32); ("utf32", UTF32); ("u32", UTF32);
    ("utf_32_le", UTF32LE); ("utf_32le", UTF32LE);
    ("utf_32_be", UTF32BE); ("utf_32be", UTF32BE);
    ("raw_unicode_escape", RawUnicodeEscape)
  ]%string.

Fixpoint assoc_name (n : pystr) (l : list (string * t)) : option t :=
  match l with
  | [] => None
  | (k, c) :: r => if str_eqb (u k) n then Some c else assoc_name n r
  end.

Definition lookup (name : pystr) : option t := assoc_name (normalize name) names.

(** *** The encoders, one code point at a time *)

Definition utf8_cp (c : N) : option (list N) :=
  if c <? 0x80 then Some [c]
  else if c <? 0x800 then
    Some [N.lor 0xC0 (N.shiftr c 6); N.lor 0x80 (N.land c 0x3F)]
  else if is_surrogate c then None
  else if c <? 0x10000 then
    Some [N.lor 0xE0 (N.shiftr c 12);
          N.lor 0x80 (N.land (N.shiftr c 6) 0x3F);
          N.lor 0x80 (N.land c 0x3F)]
  else if c <? 0x110000 then
    Some [N.lor 0xF0 (N.shiftr c 18);
          N.lor 0x80 (N.land (N.shiftr c 12) 0x3F);
          N.lor 0x80 (N.land (N.shiftr c 6) 0x3F);
          N.lor 0x80 (N.land c 0x3F)]
  else None.

(** The 16-bit units of a code point. *)
Definition utf16_units (c : N) : option (list N) :=
  if is_surrogate c then None
  else if c <? 0x10000 then Some [c]
  else if c <? 0x110000 then
    let v := c - 0x10000 in
    Some [0xD800 + N.shiftr v 10; 0xDC00 + N.land v 0x3FF]
  else None.

Definition le16 (w : N) : list N := [N.land w 0xFF; N.shiftr w 8].
Definition be16 (w : N) : list N := [N.shiftr w 8; N.land w 0xFF].

Definition utf16_cp (order : N -> list N) (c : N) : option (list N) :=
  option_map (flat_map order) (utf16_units c).

(** Windows-1252: the code points of the octets 0x80..0x9F (five of them
    are unassigned); the rest of the table is Latin-1. *)
Definition cp1252_high : list (N * N) :=
  [ (0x20AC, 0x80); (0x201A, 0x82); (0x0192, 0x83); (0x201E, 0x84);
    (0x2026, 0x85); (0x2020, 0x86); (0x2021, 0x87); (0x02C6, 0x88);
    (0x2030, 0x89); (0x0160, 0x8A); (0x2039, 0x8B); (0x0152, 0x8C);
    (0x017D, 0x8E); (0x2018, 0x91); (0x2019, 0x92); (0x201C, 0x93);
    (0x201D, 0x94); (0x2022, 0x95); (0x2013, 0x96); (0x2014, 0x97);
    (0x02DC, 0x98); (0x2122, 0x99); (0x0161, 0x9A); (0x203A, 0x9B);
    (0x0153, 0x9C); (0x017E, 0x9E); (0x0178, 0x9F) ].

Fixpoint assoc_N (c : N) (l : list (N * N)) : option N :=
  match l with
  | [] => None
  | (k, v) :: r => if k =? c then Some v else assoc_N c r
  end.

Definition cp1252_cp (c : N) : option (list N) :=
  if c <? 0x80 then Some [c]
  else if (0xA0 <=? c) && (c <? 0x100) then Some [c]
  else option_map (fun b => [b]) (assoc_N c cp1252_high).

(** The four octets of a code point in UTF-32. *)
Definition le32 (c : N) : list N :=
  [N.land c 0xFF; N.land (N.shiftr c 8) 0xFF;
   N.land (N.shiftr c 16) 0xFF; N.shiftr c 24].
Definition be32 (c : N) : list N := rev (le32 c).

Definition utf32_cp (order : N -> list N) (c : N) : option (list N) :=
  if is_surrogate c then None
  else if c <? 0x110000 then Some (order c)
  else None.

(** [raw_unicode_escape]: a code point below 256 is its own octet, any
    other is written [\uxxxx] or [\Uxxxxxxxx] with small hexadecimal
    digits; nothing is refused. *)
Definition hex_digit (d : N) : N := if d <? 10 then 48 + d else 87 + d.

Definition hex_digits (width : nat) (c : N) : list N :=
  map (fun i => hex_digit (N.land (N.shiftr c (4 * N.of_nat i)) 0xF))
      (rev (seq 0 width)).

Definition raw_unicode_escape_cp (c : N) : option (list N) :=
  if c <? 0x100 then Some [c]
  else if c <? 0x10000 then Some (92 :: 117 :: hex_digits 4 c)
  else Some (92 :: 85 :: hex_digits 8 c).

Definition encode_cp (codec : t) (c : N) : option (list N) :=
  match codec with
  | UTF8 | UTF8Sig => utf8_cp c
  | ASCII => if c <? 0x80 then Some [c] else None
  | Latin1 => if c <? 0x100 then Some [c] else None
  | CP1252 => cp1252_cp c
  | UTF16 | UTF16LE => utf16_cp le16 c
  | UTF16BE => utf16_cp be16 c
  | UTF32 | UTF32LE => utf32_cp le32 c
  | UTF32BE => utf32_cp be32 c
  | RawUnicodeEscape => raw_unicode_escape_cp c
  end.

(** What the codec writes before the first character. *)
Definition preamble (codec : t) : list N :=
  match codec with
  | UTF8Sig => [0xEF; 0xBB; 0xBF]
  | UTF16 => [0xFF; 0xFE]
  | UTF32 => [0xFF; 0xFE; 0x00; 0x00]
  | _ => []
  end.

Fixpoint encode_body (codec : t) (s : pystr) : option (list N) :=
  match s with
  | [] => Some []
  | c :: r =>
    match encode_cp codec c with
    | None => None
    | Some bs =>
      match encode_body codec r with
      | None => None
      | Some rest => Some (bs ++ rest)
      end
    end
  end.

Definition encode_with (codec : t) (s : pystr) : result bytes :=
  match encode_body codec s with
  | Some bs => Ok (map byte_of (preamble codec ++ bs))
  | None => Err UnicodeEncodeError
  end.

(** [s.encode(name)] *)
Definition encode (name : pystr) (s : pystr) : result bytes :=
  match lookup name with
  | None => Err LookupError
  | Some codec => encode_with codec s
  end.

End Codec.

(* ================================================================== *)
(** ** SHA-256 ([hashlib.sha256]), after FIPS 180-4 *)

Module Sha256.
Import PyStr.
Local Open Scope N_scope.

Definition mask32 : N := 0xFFFFFFFF.
Definition add32 (x y : N) : N := N.land (x + y) mask32.
Definition rotr (n x : N) : N :=
  N.lor (N.shiftr x n) (N.land (N.shiftl x (32 - n)) mask32).
Definition not32 (x : N) : N := N.lxor x mask32.

Definition Ch (x y z : N) : N := N.lxor (N.land x y) (N.land (not32 x) z).
Definition Maj (x y z : N) : N :=
  N.lxor (N.lxor (N.land x y) (N.land x z)) (N.land y z).
Definition Sigma0 (x : N) : N := N.lxor (N.lxor (rotr 2 x) (rotr 13 x)) (rotr 22 x).
Definition Sigma1 (x : N) : N := N.lxor (N.lxor (rotr 6 x) (rotr 11 x)) (rotr 25 x).
Definition sigma0 (x : N) : N := N.lxor (N.lxor (rotr 7 x) (rotr 18 x)) (N.shiftr x 3).
Definition sigma1 (x : N) : N := N.lxor (N.lxor (rotr 17 x) (rotr 19 x)) (N.shiftr x 10).

(** The constants are derived as the standard defines them: the first 32
    bits of the fractional parts of the cube roots of the first 64 primes
    (round constants) and of the square roots of the first 8 primes
    (initial hash value). *)

Definition divides (d n : N) : bool := n mod d =? 0.

(** The first [count] primes, by trial division by the primes found so far. *)
Fixpoint primes_from (fuel count : nat) (candidate : N) (found : list N) : list N :=
  match fuel, count with
  | O, _ | _, O => rev found
  | S fuel', S count' =>
    if existsb (fun d => divides d candidate) found
    then primes_from fuel' count (candidate + 1) found
    else primes_from fuel' count' (candidate + 1) (candidate :: found)
  end.

Definition first_primes (count : nat) : list N := primes_from 400 count 2 [].

(** The largest [x] between [lo] and [hi] with [x * x * x <= n], by bisection. *)
Fixpoint cube_root_between (fuel : nat) (lo hi n : N) : N :=
  match fuel with
  | O => lo
  | S fuel' =>
    if hi <=? lo + 1 then lo
    else
      let mid := (lo + hi) / 2 in
      if mid * mid * mid <=? n
      then cube_root_between fuel' mid hi n
      else cube_root_between fuel' lo mid n
  end.

Definition cube_root (n : N) : N := cube_root_between 200 0 (N.shiftl 1 48) n.

Definition K : list N :=
  Eval vm_compute in
    map (fun p => N.land (cube_root (N.shiftl p 96)) mask32) (first_primes 64).

Definition H0 : list N :=
  Eval vm_compute in
    map (fun p => N.land (N.sqrt (N.shiftl p 64)) mask32) (first_primes 8).

(** The working variables [a..h] and the sixteen most recent words of the
    message schedule, oldest first. *)
Record round_state : Type := {
  regs : list N;
  window : list N
}.

Definition word_at (i : nat) (l : list N) : N := nth i l 0.

Definition next_word (w : list N) : N :=
  add32 (add32 (sigma1 (word_at 14 w)) (word_at 9 w))
        (add32 (sigma0 (word_at 1 w)) (word_at 0 w)).

Definition round (st : round_state) (k : N) : round_state :=
  let r := regs st in
  let w := window st in
  let a := word_at 0 r in let b := word_at 1 r in
  let c := word_at 2 r in let d := word_at 3 r in
  let e := word_at 4 r in let f := word_at 5 r in
  let g := word_at 6 r in let h := word_at 7 r in
  let t1 := add32 (add32 (add32 h (Sigma1 e)) (add32 (Ch e f g) k)) (word_at 0 w) in
  let t2 := add32 (Sigma0 a) (Maj a b c) in
  {| regs := [add32 t1 t2; a; b; c; add32 d t1; e; f; g];
     window := tl w ++ [next_word w] |}.

Fixpoint zip_add (xs ys : list N) : list N :=
  match xs, ys with
  | x :: xs', y :: ys' => add32 x y :: zip_add xs' ys'
  | _, _ => []
  end.

(** One 512-bit block, given as sixteen words. *)
Definition compress (h : list N) (block : list N) : list N :=
  zip_add h (regs (fold_left round K {| regs := h; window := block |})).

Definition be32 (b0 b1 b2 b3 : N) : N :=
  N.lor (N.shiftl b0 24) (N.lor (N.shiftl b1 16) (N.lor (N.shiftl b2 8) b3)).

Fixpoint words_of (bs : list N) : list N :=
  match bs with
  | b0 :: b1 :: b2 :: b3 :: r => be32 b0 b1 b2 b3 :: words_of r
  | _ => []
  end.

Definition be64_bytes (n : N) : list N :=
  map (fun i => N.land (N.shiftr n (8 * i)) 0xFF) [7; 6; 5; 4; 3; 2; 1; 0].

(** The message, one [1] bit, zero bits up to 448 modulo 512, and the
    bit length on 64 bits. *)
Definition pad (msg : list N) : list N :=
  let len := N.of_nat (length msg) in
  let zeros := (55 + 64 - len mod 64) mod 64 in
  msg ++ 0x80 :: repeat 0 (N.to_nat zeros) ++ be64_bytes (8 * len).

Fixpoint blocks (fuel : nat) (h : list N) (ws : list N) : list N :=
  match fuel with
  | O => h
  | S f =>
    match ws with
    | [] => h
    | _ => blocks f (compress h (firstn 16 ws)) (skipn 16 ws)
    end
  end.

Definition digest_words (msg : list N) : list N :=
  let ws := words_of (pad msg) in
  blocks (length ws) H0 ws.

Definition hex_digit (d : N) : N := if d <? 10 then 48 + d else 87 + d.

Definition hex_word (w : N) : pystr :=
  map (fun i => hex_digit (N.land (N.shiftr w (4 * i)) 0xF)) [7; 6; 5; 4; 3; 2; 1; 0].

(** [hashlib.sha256(data).hexdigest()] *)
Definition hexdigest (data : bytes) : pystr :=
  flat_map hex_word (digest_words (map Byte.to_N data)).

End Sha256.

(* ================================================================== *)
(** ** Python values and [json.dumps] *)

Module Py.
Import PyStr.
Local Open Scope N_scope.

(** The values the script builds and serialises: [None], booleans,
    integers, strings, lists and dictionaries with string keys.  A [dict]
    is kept as its items in insertion order. *)
Inductive pyval : Type :=
| PNone
| PBool (b : bool)
| PInt (z : Z)
| PStr (s : pystr)
| PList (l : list pyval)
| PDict (d : list (pystr * pyval)).

Definition dict (V : Type) : Type := list (pystr * V).

Definition str_eqb (a b : pystr) : bool :=
  if list_eq_dec N.eq_dec a b then true else false.

(** [d.get(k)] *)
Fixpoint dict_get {V} (d : dict V) (k : pystr) : option V :=
  match d with
  | [] => None
  | (k', v) :: r => if str_eqb k' k then Some v else dict_get r k
  end.

(** [d[k] = v]: the value of an existing key is replaced in place, a new
    key is added at the end. *)
Fixpoint dict_set {V} (d : dict V) (k : pystr) (v : V) : dict V :=
  match d with
  | [] => [(k, v)]
  | (k', v') :: r =>
    if str_eqb k' k then (k', v) :: r else (k', v') :: dict_set r k v
  end.

Definition keys {V} (d : dict V) : list pystr := map fst d.

(** *** [json.dumps(obj, indent=2, ensure_ascii=...)] *)

Definition hex4 (n : N) : pystr :=
  map (fun i => Sha256.hex_digit (N.land (N.shiftr n (4 * i)) 0xF)) [3; 2; 1; 0].

Definition u_escape (n : N) : pystr := [92; 117] ++ hex4 n.

(** One code point inside a JSON string.  The short escapes and the
    control characters are escaped always; with [ensure_ascii] so is every
    code point outside the range from the space to the tilde, one above
    U+FFFF as a surrogate pair. *)
Definition escape_cp (ensure_ascii : bool) (c : N) : pystr :=
  if c =? 92 then [92; 92]
  else if c =? 34 then [92; 34]
  else if c =? 8 then [92; 98]
  else if c =? 12 then [92; 102]
  else if c =? 10 then [92; 110]
  else if c =? 13 then [92; 114]
  else if c =? 9 then [92; 116]
  else if c <? 0x20 then u_escape c
  else if negb ensure_ascii || (c <=? 126) then [c]
  else if c <? 0x10000 then u_escape c
  else
    let n := c - 0x10000 in
    u_escape (N.lor 0xD800 (N.land (N.shiftr n 10) 0x3FF))
    ++ u_escape (N.lor 0xDC00 (N.land n 0x3FF)).

Definition dumps_str (ensure_ascii : bool) (s : pystr) : pystr :=
  dq ++ flat_map (escape_cp ensure_ascii) s ++ dq.

(** A line break and the indentation of nesting depth [level]. *)
Definition newline_indent (indent level : nat) : pystr :=
  10 :: repeat 32 (indent * level).

Section Dumps.
Variable ensure_ascii : bool.
Variable indent : nat.

Fixpoint dumps_at (level : nat) (v : pyval) : pystr :=
  match v with
  | PNone => u "null"
  | PBool true => u "true"
  | PBool false => u "false"
  | PInt z => str_of_Z z
  | PStr s => dumps_str ensure_ascii s
  | PList [] => u "[]"
  | PList (x :: xs) =>
    u "[" ++ newline_indent indent (S level) ++ dumps_at (S level) x
    ++ (fix items (l : list pyval) : pystr :=
          match l with
          | [] => []
          | y :: r =>
            u "," ++ newline_indent indent (S level) ++ dumps_at (S level) y
            ++ items r
          end) xs
    ++ newline_indent indent level ++ u "]"
  | PDict [] => u "{}"
  | PDict ((k, x) :: xs) =>
    u "{" ++ newline_indent indent (S level)
    ++ dumps_str ensure_ascii k ++ u ": " ++ dumps_at (S level) x
    ++ (fix items (l : list (pystr * pyval)) : pystr :=
          match l with
          | [] => []
          | (k', y) :: r =>
            u "," ++ newline_indent indent (S level)
            ++ dumps_str ensure_ascii k' ++ u ": " ++ dumps_at (S level) y
            ++ items r
          end) xs
    ++ newline_indent indent level ++ u "}"
  end.

End Dumps.

(** [json.dumps(v, indent=2, ensure_ascii=ensure_ascii)] *)
Definition json_dumps (v : pyval) (ensure_ascii : bool) : pystr :=
  dumps_at ensure_ascii 2 0 v.

End Py.

(* ================================================================== *)
(** ** The literal templates of the generators

    [astro_template] is the literal returned by [generate_astro_content],
    with a tilde written where the script has a double quote (the literal
    contains no tilde); [css_template] is the literal returned by
    [generate_css], as it is.  Each literal is cut at line ends into
    pieces that are concatenated again. *)

Module Templates.
Import PyStr.
Local Open Scope string_scope.

Definition astro_marked : list string :=
  [ "---
import BaseLayout from '../layouts/BaseLayout.astro';

const pageTitle = 'Digital Credibility Score Audit | NexTara AI Solutions';
const pageDescription =
  'Request a Digital Credibility Score Audit to understand whether your current website can realistically reach a DCS 900+ standard and where your biggest gaps are.';
---

<BaseLayout title={pageTitle} description={pageDescription}>
  <main>
    {/* HERO SECTION */}
    <section class=~hero-section hero-section--audit~>
      <div class=~container~>
        <div class=~hero-grid~>
          <div class=~hero-content~>
            <h1 class=~hero-title fade-up~>Digital Credibility Score Audit</h1>
            <p class=~hero-lead fade-up-delay-1~>
              Find out if your current website can realistically earn a Digital Credibility Score of
              900+—or if you&apos;re leaving visibility, trust, and revenue on the table.
            </p>
            <ul class=~hero-bullets fade-up-delay-2~>
              <li>See where your site passes or fails modern AI + search tests.</li>
              <li>Understand what is blocking you from a DCS 900+ build.</li>
";
    "              <li>Get a prioritized, non-fluffy remediation roadmap.</li>
            </ul>
            <div class=~hero-ctas fade-up-delay-3~>
              <a href=~#audit-form~ class=~btn btn-primary~>Start My DCS Audit</a>
              <a href=~/contact~ class=~btn btn-secondary~>Talk with NexTara First</a>
            </div>
          </div>
        </div>
      </div>
    </section>

    {/* WHAT YOU GET */}
    <section class=~section~>
      <div class=~container~>
        <h2 class=~section-title~>What You Get from a Digital Credibility Score Audit</h2>
        <p class=~section-intro~>
          This is a structured, engineering-grade audit—built to support executives, marketers, and
          technical owners who need clear answers, not another vague checklist.
        </p>
        <div class=~grid grid-2~>
          <ul class=~feature-list~>
            <li><strong>DCS Baseline Score.</strong> 0–1000 snapshot of your current credibility posture.</li>
            <li><strong>Category Breakdown.</strong> Scores across visibility, technical integrity, schema, trust, conversion, and analytics.</li>
";
    "            <li><strong>Issue Inventory.</strong> High, medium, and low–impact issues mapped to business risk.</li>
          </ul>
          <ul class=~feature-list~>
            <li><strong>Remediation Roadmap.</strong> Prioritized actions for your current team, agency, or NexTara to execute.</li>
            <li><strong>Readout Option.</strong> Optional review session to walk through the findings and answer questions.</li>
          </ul>
        </div>
      </div>
    </section>

    {/* EXECUTIVE SNAPSHOT */}
    <section class=~section section-alt~>
      <div class=~container~>
        <h2 class=~section-title~>Executive Audit Snapshot</h2>
        <p class=~section-intro~>
          The Digital Credibility Score Audit is delivered as a structured decision asset, not a loose
          collection of screenshots and suggestions.
        </p>
        <div class=~audit-summary-grid~>
          <div class=~audit-summary-card~>
            <h3 class=~card-label~>Primary Output</h3>
            <p class=~card-value~>Digital Credibility Score (0–1000) + Pillar Scores</p>
";
    "            <p class=~card-note~>Visibility, Technical Integrity, Trust, Conversion, Analytics &amp; Governance.</p>
          </div>
          <div class=~audit-summary-card~>
            <h3 class=~card-label~>Decision Question</h3>
            <p class=~card-value~>~Can this website support a DCS 900+ standard, or is a rebuild more efficient?~</p>
            <p class=~card-note~>Built to support executive &quot;fix vs. rebuild&quot; decisions.</p>
          </div>
          <div class=~audit-summary-card~>
            <h3 class=~card-label~>Deliverable Format</h3>
            <p class=~card-value~>Audit PDF + Issue Inventory + Roadmap</p>
            <p class=~card-note~>Vendor-neutral, suitable for internal teams or external agencies.</p>
          </div>
          <div class=~audit-summary-card~>
            <h3 class=~card-label~>Intended Owner</h3>
            <p class=~card-value~>CMO / Founder / Marketing or Operations Lead</p>
            <p class=~card-note~>Structured to brief stakeholders in one meeting.</p>
          </div>
        </div>
      </div>
    </section>

    {/* WHY IT MATTERS */}
    <section class=~section section-alt~>
      <div class=~container~>
";
    "        <h2 class=~section-title~>Why Your Digital Credibility Score Matters Now</h2>
        <p class=~section-intro~>
          Search engines and AI systems are reading your schema, your technical structure, your trust
          signals, and your analytics stack to decide whether your website deserves visibility.
        </p>
        <div class=~grid grid-3~>
          <div class=~card~>
            <h3 class=~card-title~>Visibility</h3>
            <p>If your score is low, high-intent buyers never see your pages—no matter how strong your copy is.</p>
          </div>
          <div class=~card~>
            <h3 class=~card-title~>Efficiency</h3>
            <p>Ad spend has to fight against a weak technical foundation, driving higher CPCs and lower quality leads.</p>
          </div>
          <div class=~card~>
            <h3 class=~card-title~>Confidence</h3>
            <p>A quantified score gives leadership a shared, objective view of the site&apos;s true readiness.</p>
          </div>
        </div>
      </div>
    </section>

    {/* WHO IT'S FOR */}
    <section class=~section~>
      <div class=~container grid grid-2~>
        <div>
";
    "          <h2 class=~section-title~>Who This Audit Is For</h2>
          <ul class=~feature-list~>
            <li>Organizations that treat their website as a growth asset, not a brochure.</li>
            <li>Teams considering a redesign and wanting proof before they commit.</li>
            <li>CMOs, founders, and marketing leaders who need clarity on ~fix vs. rebuild~ decisions.</li>
            <li>Businesses that want audit-grade documentation for internal stakeholders.</li>
          </ul>
        </div>
        <div class=~card card-outline~>
          <h3 class=~card-title~>When This Is Not a Fit</h3>
          <ul class=~feature-list~>
            <li>You want a quick checklist without implementation follow-through.</li>
            <li>No one owns the website or is accountable for acting on the findings.</li>
            <li>You are comfortable operating without measurable standards.</li>
          </ul>
        </div>
      </div>
    </section>

    {/* HOW IT WORKS */}
    <section class=~section section-alt~>
      <div class=~container~>
        <h2 class=~section-title~>How the Digital Credibility Score Audit Works</h2>
        <div class=~steps-grid~>
";
    "          <div class=~step~>
            <div class=~step-number~>1</div>
            <h3 class=~step-title~>Intake &amp; Context</h3>
            <p>You complete a short intake with your domain, current stack, and business priorities so the audit is aligned to reality.</p>
          </div>
          <div class=~step~>
            <div class=~step-number~>2</div>
            <h3 class=~step-title~>Signal Collection &amp; Scoring</h3>
            <p>We run your site through the DCS framework, covering visibility, schema, performance, trust, conversion, and analytics.</p>
          </div>
          <div class=~step~>
            <div class=~step-number~>3</div>
            <h3 class=~step-title~>Issue Mapping &amp; Prioritization</h3>
            <p>We identify the gaps preventing a DCS 900+ build and prioritize them by impact and effort.</p>
          </div>
          <div class=~step~>
            <div class=~step-number~>4</div>
            <h3 class=~step-title~>Delivery &amp; Readout</h3>
            <p>You receive the full audit PDF and score breakdown, with an optional readout session to walk through findings and next steps.</p>
          </div>
        </div>
      </div>
";
    "    </section>

    {/* FIVE PILLARS */}
    <section class=~section~>
      <div class=~container~>
        <h2 class=~section-title~>The Five Pillars of Your Digital Credibility Score</h2>
        <p class=~section-intro~>
          The DCS framework evaluates your website across five tightly-governed pillars. Each pillar
          contributes to your overall 0–1000 score and your ability to operate as a DCS 900+ website.
        </p>
        <div class=~grid grid-3~>
          <div class=~card~>
            <h3 class=~card-title~>1. Visibility Engine</h3>
            <p>How clearly search engines and AI systems can understand, crawl, and surface your pages. Schema structure, internal linking, and content architecture are evaluated here.</p>
          </div>
          <div class=~card~>
            <h3 class=~card-title~>2. Technical Integrity</h3>
            <p>Core Web Vitals, mobile responsiveness, rendering behavior, and code hygiene. This pillar determines whether your site meets modern performance expectations.</p>
          </div>
          <div class=~card~>
            <h3 class=~card-title~>3. Trust Layer</h3>
";
    "            <p>Brand consistency, proof assets, reviews, case studies, and compliance language. We measure whether your digital presence actually earns trust from both humans and algorithms.</p>
          </div>
          <div class=~card~>
            <h3 class=~card-title~>4. Conversion Spine</h3>
            <p>CTA hierarchy, page flow, form friction, and lead capture readiness. This is where we score how effectively your website converts qualified attention into qualified pipeline.</p>
          </div>
          <div class=~card~>
            <h3 class=~card-title~>5. Data &amp; Governance Layer</h3>
            <p>GA4, GTM, consent posture, and data hygiene. We evaluate whether your analytics and governance stack are capable of supporting accurate measurement and optimization.</p>
          </div>
        </div>
      </div>
    </section>

    {/* SAMPLE FINDINGS */}
    <section class=~section section-alt~>
      <div class=~container~>
        <h2 class=~section-title~>Sample Findings from a DCS Audit</h2>
        <p class=~section-intro~>
          The goal is not to overwhelm you with jargon—it&apos;s to give you a clear, prioritized
";
    "          picture of what must change for your site to behave like a DCS 900+ asset.
        </p>
        <div class=~grid grid-3~>
          <div class=~card~>
            <h3 class=~card-title~>Surface-Level Strong, Structurally Weak</h3>
            <p>~Your site is visually strong but missing the schema and internal linking required for AI and search systems to understand your services.~</p>
          </div>
          <div class=~card~>
            <h3 class=~card-title~>Conversion Friction on Mobile</h3>
            <p>~Core Web Vitals are within acceptable ranges, but your lead capture flow introduces unnecessary friction on mobile.~</p>
          </div>
          <div class=~card~>
            <h3 class=~card-title~>Analytics Blockers</h3>
            <p>~GTM is installed, but critical events are not being forwarded to GA4, preventing you from unlocking full measurement and optimization.~</p>
          </div>
        </div>
      </div>
    </section>

    {/* RISK GRID */}
    <section class=~section section-alt~>
      <div class=~container~>
        <h2 class=~section-title~>How We Classify Findings</h2>
        <p class=~section-intro~>
";
    "          Every issue in your audit is tagged with business impact, DCS impact, and recommended
          action. This keeps the roadmap focused and executable instead of overwhelming.
        </p>
        <div class=~risk-grid~>
          <div class=~risk-card risk-card--critical~>
            <h3 class=~card-title~>Critical – Blocks DCS 900+</h3>
            <p class=~card-note~>Immediate attention required.</p>
            <ul class=~feature-list~>
              <li>Broken or missing analytics / key events.</li>
              <li>Structural issues that prevent key pages from being surfaced.</li>
              <li>Security, compliance, or governance gaps that impact data integrity and decision quality.</li>
            </ul>
          </div>
          <div class=~risk-card risk-card--high~>
            <h3 class=~card-title~>High – Material Performance Drag</h3>
            <p class=~card-note~>Schedule for near-term remediation.</p>
            <ul class=~feature-list~>
              <li>Weak internal linking or schema coverage on revenue-driving pages.</li>
              <li>Conversion friction on primary lead capture paths.</li>
";
    "              <li>Missing trust assets in high-intent decision flows.</li>
            </ul>
          </div>
          <div class=~risk-card risk-card--medium~>
            <h3 class=~card-title~>Medium – Optimization Opportunity</h3>
            <p class=~card-note~>Plan into your next iteration cycle.</p>
            <ul class=~feature-list~>
              <li>Non-blocking Core Web Vitals issues.</li>
              <li>Messaging gaps between ad promises and landing page content.</li>
              <li>Unclear secondary CTAs or off-ramp experiences.</li>
            </ul>
          </div>
        </div>
      </div>
    </section>

    {/* TIMELINE */}
    <section class=~section section-alt~>
      <div class=~container~>
        <h2 class=~section-title~>Timeline &amp; Next Steps</h2>
        <p class=~section-intro~>
          The DCS Audit is designed to move quickly enough for decision-making, while still meeting
          the documentation and governance standards your leadership expects.
        </p>
        <ul class=~feature-list~>
          <li><strong>Audit Duration.</strong> Completed within a defined timeframe after you complete the intake.</li>
";
    "          <li><strong>Format.</strong> Delivered as a structured PDF with a score breakdown and issue prioritization.</li>
          <li><strong>Ownership.</strong> You can execute internally, with your current agency, or with NexTara—our output is vendor-neutral.</li>
        </ul>
      </div>
    </section>

    {/* ABOUT NEXTARA */}
    <section class=~section~>
      <div class=~container~>
        <h2 class=~section-title~>Why NexTara Leads with Governance</h2>
        <p class=~section-intro~>
          NexTara AI Solutions operates from a governance-first mindset. We don&apos;t just look at
          how pages look—we measure how they perform against AI visibility, technical integrity,
          analytics, and compliance.
        </p>
        <p>
          The Digital Credibility Score Audit is built to support executive decision-making,
          compliance documentation, and future-proofing against changes in how search and AI systems
          evaluate your website.
        </p>
      </div>
    </section>

    {/* FAQ */}
    <section class=~section~>
      <div class=~container~>
        <h2 class=~section-title~>Digital Credibility Score Audit – FAQs</h2>
";
    "        <div class=~faq-list~>
          <article class=~faq-item~>
            <h3 class=~faq-question~>Is this just an SEO audit with a different label?</h3>
            <p class=~faq-answer~>No. A DCS Audit includes SEO and schema, but it also evaluates conversion, trust, analytics, and governance. The output is designed to support executive decisions about whether to optimize, rebuild, or re-platform your site.</p>
          </article>
          <article class=~faq-item~>
            <h3 class=~faq-question~>Can my current agency or developer use this audit?</h3>
            <p class=~faq-answer~>Yes. The audit is vendor-neutral. Many clients choose to execute the roadmap with their existing teams; others ask NexTara to own the rebuild. Either way, you keep the score, the findings, and the documentation.</p>
          </article>
          <article class=~faq-item~>
            <h3 class=~faq-question~>What if my score is already high?</h3>
";
    "            <p class=~faq-answer~>If your score is already in the DCS 880–920 range, the audit focuses on unlocking specific opportunities: AI visibility, conversion lift, and governance hardening. The goal is to move you from &quot;strong&quot; to &quot;enterprise-ready&quot; with a clear, prioritized set of changes.</p>
          </article>
          <article class=~faq-item~>
            <h3 class=~faq-question~>Will you try to sell me a full website rebuild?</h3>
            <p class=~faq-answer~>Only if the data justifies it. The DCS Audit is designed to answer a single question: &quot;Can this website realistically operate as a DCS 900+ asset?&quot; If the answer is yes, the roadmap will focus on optimization instead of rebuild.</p>
          </article>
        </div>
      </div>
    </section>

    {/* CTA + FORM */}
    <section class=~section section-alt~ id=~audit-form~>
      <div class=~container grid grid-2~>
        <div>
          <h2 class=~section-title~>Request Your Digital Credibility Score Audit</h2>
          <p class=~section-intro~>
            Complete the form and we&apos;ll confirm your audit, align on scope, and begin the DCS evaluation.
";
    "          </p>
          <ul class=~feature-list~>
            <li>Objective, vendor-neutral assessment.</li>
            <li>Actionable roadmap your team can execute.</li>
            <li>Designed for DCS 900+ websites only builds.</li>
          </ul>
        </div>
        <div>
          <form class=~form audit-form~ data-netlify=~true~ name=~dcs-audit-request~>
            <div class=~form-field~>
              <label for=~name~>Name</label>
              <input id=~name~ name=~name~ type=~text~ required autocomplete=~name~ />
            </div>
            <div class=~form-field~>
              <label for=~email~>Email</label>
              <input id=~email~ name=~email~ type=~email~ required autocomplete=~email~ />
            </div>
            <div class=~form-field~>
              <label for=~company~>Company / Organization</label>
              <input id=~company~ name=~company~ type=~text~ autocomplete=~organization~ />
            </div>
            <div class=~form-field~>
              <label for=~website~>Website URL</label>
              <input id=~website~ name=~website~ type=~url~ required placeholder=~https://~ />
            </div>
";
    "            <div class=~form-field~>
              <label for=~role~>Role</label>
              <select id=~role~ name=~role~>
                <option value=~~>Select your role</option>
                <option value=~founder~>Founder / Owner</option>
                <option value=~cmo~>CMO / Marketing Lead</option>
                <option value=~ops~>Operations / Practice Manager</option>
                <option value=~other~>Other</option>
              </select>
            </div>
            <div class=~form-field~>
              <label for=~concern~>Biggest current website concern</label>
              <textarea id=~concern~ name=~concern~ rows=~4~></textarea>
            </div>
            <button type=~submit~ class=~btn btn-primary btn-block~>Request My DCS Audit</button>
          </form>
        </div>
      </div>
    </section>
  </main>
</BaseLayout>
" ].

Definition astro_template : pystr :=
  requote 126 (u (String.concat EmptyString astro_marked)).

Definition css_source : list string :=
  [ "/* ═══════════════════════════════════════════════════════════════════════════
   DCS Audit Landing Page Styles — NexTara AI Solutions
   Version: 1.0.0 | PromptCore v3.7 Aligned
   ═══════════════════════════════════════════════════════════════════════════ */

/* Audit Hero Variant */
.hero-section--audit {
  /* Inherits base hero styles */
}

/* Executive Summary Grid */
.audit-summary-grid {
  display: grid;
  gap: var(--space-md, 1.5rem);
}

@media (min-width: 768px) {
  .audit-summary-grid {
    grid-template-columns: repeat(2, minmax(0, 1fr));
  }
}

.audit-summary-card {
  border: 1px solid var(--border-subtle, #1f2933);
  border-radius: var(--radius-lg, 1rem);
  padding: var(--space-md, 1.5rem);
  background: var(--surface-elevated, #020617);
}

.audit-summary-card .card-label {
  font-size: 0.85rem;
  text-transform: uppercase;
  letter-spacing: 0.06em;
  opacity: 0.8;
";
    "  margin-bottom: var(--space-xs, 0.5rem);
}

.audit-summary-card .card-value {
  font-weight: 600;
  margin-bottom: var(--space-xs, 0.5rem);
}

.audit-summary-card .card-note {
  font-size: 0.9rem;
  opacity: 0.9;
}

/* Process Steps */
.steps-grid {
  display: grid;
  gap: var(--space-md, 1.5rem);
}

@media (min-width: 768px) {
  .steps-grid {
    grid-template-columns: repeat(4, minmax(0, 1fr));
  }
}

.step {
  border-radius: var(--radius-lg, 1rem);
  padding: var(--space-md, 1.5rem);
  border: 1px solid var(--border-subtle, #1f2933);
  background: var(--surface-elevated, #020617);
}

.step-number {
  width: 2rem;
  height: 2rem;
  border-radius: 50%;
  display: flex;
  align-items: center;
  justify-content: center;
  font-weight: 600;
  margin-bottom: var(--space-sm, 0.75rem);
  border: 1px solid var(--accent, #3b82f6);
  color: var(--accent, #3b82f6);
}

.step-title {
  margin-bottom: var(--space-xs, 0.5rem);
}

/* Risk Classification Grid */
.risk-grid {
  display: grid;
  gap: var(--space-md, 1.5rem);
}

@media (min-width: 768px) {
  .risk-grid {
    grid-template-columns: repeat(3, minmax(0, 1fr));
  }
}

.risk-card {
  border-radius: var(--radius-lg, 1rem);
";
    "  padding: var(--space-md, 1.5rem);
  border: 1px solid var(--border-subtle, #1f2933);
  background: var(--surface-elevated, #020617);
}

.risk-card--critical { border-color: var(--critical, #ef4444); }
.risk-card--high { border-color: var(--warn, #f59e0b); }
.risk-card--medium { border-color: var(--info, #38bdf8); }

.risk-card .card-note {
  font-size: 0.9rem;
  opacity: 0.9;
  margin-bottom: var(--space-sm, 0.75rem);
}

/* FAQ Accordion */
.faq-list {
  display: grid;
  gap: var(--space-sm, 1.25rem);
}

.faq-item {
  border-radius: var(--radius-lg, 1rem);
  padding: 1.25rem var(--space-md, 1.5rem);
  border: 1px solid var(--border-subtle, #1f2933);
  background: var(--surface-elevated, #020617);
}

.faq-question {
  margin-bottom: var(--space-xs, 0.5rem);
}

.faq-answer {
  font-size: 0.95rem;
  opacity: 0.95;
}

/* Audit Form */
.audit-form .form-field {
  margin-bottom: var(--space-sm, 1rem);
}

.audit-form .btn-block {
  width: 100%;
}

/* Focus states for accessibility */
.audit-form input:focus,
.audit-form select:focus,
.audit-form textarea:focus {
  outline: 2px solid var(--accent, #3b82f6);
  outline-offset: 2px;
}
" ].

Definition css_template : pystr := u (String.concat EmptyString css_source).

End Templates.

(* ================================================================== *)
(** ** Configuration and manifest *)

Import PyStr Py.
Local Open Scope Z_scope.

Record BuildConfig : Type := {
  version : pystr;
  promptcore_ver : pystr;
  domain : pystr;
  page_slug : pystr;
  encoding : pystr;
  zip_compression : Z;
  min_astro_size : Z;
  min_css_size : Z;
  required_schema_types : list pystr
}.

(** [zipfile.ZIP_DEFLATED] *)
Definition ZIP_DEFLATED : Z := 8.

(** [BuildConfig()], every field at its default. *)
Definition default_config : BuildConfig := {|
  version := u "1.0.0-enterprise";
  promptcore_ver := u "v3.7";
  domain := u "https://www.nextara-ai-solutions.com";
  page_slug := u "digital-credibility-score-audit";
  encoding := u "utf-8";
  zip_compression := ZIP_DEFLATED;
  min_astro_size := 5000;
  min_css_size := 500;
  required_schema_types := [u "WebPage"; u "Service"; u "FAQPage"]
|}.

(** A validation report, the script's [{"passed": ..., "checks": [...]}]. *)
Record Report : Type := {
  passed : bool;
  checks : list pystr
}.

Record BuildManifest : Type := {
  m_version : pystr;
  m_promptcore_ver : pystr;
  generated_at : pystr;
  hostname : pystr;
  artifacts : dict pystr;
  checksums : dict pystr;
  validation : dict Report
}.

(* ================================================================== *)
(** ** Content generators *)

Definition generate_astro_content (config : BuildConfig) : pystr :=
  Templates.astro_template.

Definition question (name text : string) : pyval :=
  PDict [ (u "@type", PStr (u "Question"));
          (u "name", PStr (u name));
          (u "acceptedAnswer",
           PDict [ (u "@type", PStr (u "Answer"));
                   (u "text", PStr (u text)) ]) ].

Definition generate_schema (config : BuildConfig) : dict pyval :=
  let base_url := domain config ++ u "/" ++ page_slug config in
  [ (u "@context", PStr (u "https://schema.org"));
    (u "@graph", PList [
      PDict [
        (u "@type", PStr (u "WebPage"));
        (u "@id", PStr base_url);
        (u "url", PStr base_url);
        (u "name", PStr (u "Digital Credibility Score Audit | NexTara AI Solutions"));
        (u "description", PStr (u "Request a Digital Credibility Score Audit to understand whether your current website can realistically reach a DCS 900+ standard."));
        (u "isPartOf", PDict [ (u "@id", PStr (domain config ++ u "/#website")) ]);
        (u "primaryImageOfPage",
         PDict [ (u "@type", PStr (u "ImageObject"));
                 (u "@id", PStr (domain config ++ u "/#dcs-audit-hero-image")) ])
      ];
      PDict [
        (u "@type", PStr (u "Service"));
        (u "@id", PStr (domain config ++ u "/#dcs-audit-service"));
        (u "name", PStr (u "Digital Credibility Score Audit"));
        (u "provider",
         PDict [ (u "@type", PStr (u "Organization"));
                 (u "name", PStr (u "NexTara AI Solutions")) ]);
        (u "description", PStr (u "A governance-grade diagnostic that evaluates your website across five pillars of the Digital Credibility Score framework."));
        (u "areaServed",
         PDict [ (u "@type", PStr (u "AdministrativeArea"));
                 (u "name", PStr (u "United States")) ])
      ];
      PDict [
        (u "@type", PStr (u "FAQPage"));
        (u "@id", PStr (domain config ++ u "/#dcs-audit-faq"));
        (u "mainEntity", PList [
          question "Is this just an SEO audit with a different label?"
                   "No. A DCS Audit includes SEO and schema, but it also evaluates conversion, trust, analytics, and governance.";
          question "Can my current agency or developer use this audit?"
                   "Yes. The audit is vendor-neutral. You keep the score, the findings, and the documentation.";
          question "What if my score is already high?"
                   "The audit focuses on unlocking specific opportunities: AI visibility, conversion lift, and governance hardening.";
          question "Will you try to sell me a full website rebuild?"
                   "Only if the data justifies it. The DCS Audit is designed to answer: Can this website realistically operate as a DCS 900+ asset?"
        ])
      ]
    ])
  ].

Definition generate_css : pystr := Templates.css_template.

(** [now] is the reading of [datetime.now(timezone.utc).isoformat()] taken
    when the literal is evaluated. *)
Definition generate_readme (config : BuildConfig) (now : pystr) : pystr :=
  u "# Digital Credibility Score Audit — Implementation Package

**Version:** " ++ version config ++ u "
**PromptCore Alignment:** " ++ promptcore_ver config ++ u "
**Generated:** " ++ now ++ u "

## Contents

- `src/pages/digital-credibility-score-audit.astro` — Page component
- `styles/audit-styles.css` — Component styles
- `public/schema-audit.json` — JSON-LD structured data
- `docs/dcs-framework.md` — Framework documentation
- `build-manifest.json` — Reproducibility manifest with checksums

## Integration Steps

1. Copy `digital-credibility-score-audit.astro` to `src/pages/`
2. Import `audit-styles.css` in your global stylesheet
3. Inject `schema-audit.json` via build-time import or script tag
4. Update homepage CTAs to link to `/digital-credibility-score-audit`
5. Configure Netlify Forms for `dcs-audit-request` form name

## Verification

Run checksums against `build-manifest.json` to verify artifact integrity.

## Form Configuration

The form includes `data-netlify=" ++ dq ++ u "true" ++ dq ++ u "` and `name=" ++ dq ++ u "dcs-audit-request" ++ dq ++ u "` for
automatic Netlify Forms integration. Ensure Netlify Forms is enabled in your
site settings.
".

(* ================================================================== *)
(** ** Validation *)

Definition new_report : Report := {| passed := true; checks := [] |}.

(** [results["checks"].append(msg)] *)
Definition add_pass (r : Report) (msg : pystr) : Report :=
  {| passed := passed r; checks := checks r ++ [msg] |}.

(** [results["passed"] = False] followed by the append. *)
Definition add_fail (r : Report) (msg : pystr) : Report :=
  {| passed := false; checks := checks r ++ [msg] |}.

(** The size check shared by the markup and the stylesheet validators. *)
Definition check_size (r : Report) (size minimum : Z) : Report :=
  if size <? minimum then
    add_fail r (u "FAIL: Size " ++ str_of_Z size ++ u "B < "
                ++ str_of_Z minimum ++ u "B minimum")
  else add_pass r (u "PASS: Size " ++ str_of_Z size ++ u "B").

(** One round of the loops over required substrings. *)
Definition check_contains (content : pystr) (r : Report) (elem : pystr) : Report :=
  if contains elem content then
    add_pass r (u "PASS: Contains '" ++ elem ++ u "'")
  else add_fail r (u "FAIL: Missing '" ++ elem ++ u "'").

Definition astro_required : list pystr :=
  [u "<main>"; u "</main>"; u "BaseLayout"; u "hero-section"; u "audit-form"].

Definition has_form_labels (content : pystr) : bool :=
  contains (u "label for=") (lower content)
  || contains (u "label for=" ++ dq) content.

Definition validate_astro (content : pystr) (config : BuildConfig) : result Report :=
  (do bs <- Codec.encode (encoding config) content;
   let size := Z.of_nat (length bs) in
   let r := check_size new_report size (min_astro_size config) in
   let r := fold_left (check_contains content) astro_required r in
   let r := if has_form_labels content
            then add_pass r (u "PASS: Form labels present")
            else add_fail r (u "FAIL: Missing form labels") in
   Ok r)%res.

(** The items a [for item in graph] visits: the elements of a list, the
    keys of a dict, the characters of a string; other values are not
    iterable. *)
Definition iterate (graph : pyval) : result (list pyval) :=
  match graph with
  | PList l => Ok l
  | PDict d => Ok (map (fun kv => PStr (fst kv)) d)
  | PStr s => Ok (map (fun c => PStr [c]) s)
  | PNone | PBool _ | PInt _ => Err TypeError
  end.

(** [item.get("@type")] as an element of a set: only a dict has [get], and
    a list or a dict cannot be put into a set.  A missing key gives [None]. *)
Definition type_of_item (item : pyval) : result pyval :=
  match item with
  | PDict d =>
    match dict_get d (u "@type") with
    | None => Ok PNone
    | Some (PList _) | Some (PDict _) => Err TypeError
    | Some v => Ok v
    end
  | _ => Err AttributeError
  end.

Fixpoint collect_types (items : list pyval) : result (list pyval) :=
  match items with
  | [] => Ok []
  | item :: rest =>
    (do t <- type_of_item item;
     do ts <- collect_types rest;
     Ok (t :: ts))%res
  end.

(** [req_type in found_types] for a string [req_type]: among the values a
    set can hold only an equal string compares equal to it. *)
Definition is_str (name : pystr) (v : pyval) : bool :=
  match v with
  | PStr s => str_eqb s name
  | _ => false
  end.

Definition in_types (name : pystr) (found_types : list pyval) : bool :=
  existsb (is_str name) found_types.

Definition check_type (found_types : list pyval) (r : Report) (req_type : pystr) : Report :=
  if in_types req_type found_types then
    add_pass r (u "PASS: Contains " ++ req_type)
  else add_fail r (u "FAIL: Missing " ++ req_type).

Definition context_ok (schema : dict pyval) : bool :=
  match dict_get schema (u "@context") with
  | Some (PStr s) => str_eqb s (u "https://schema.org")
  | _ => false
  end.

Definition validate_schema (schema : dict pyval) (config : BuildConfig) : result Report :=
  let r := if context_ok schema
           then add_pass new_report (u "PASS: Valid @context")
           else add_fail new_report (u "FAIL: Invalid @context") in
  let graph := match dict_get schema (u "@graph") with
               | Some g => g
               | None => PList []
               end in
  (do items <- iterate graph;
   do found_types <- collect_types items;
   Ok (fold_left (check_type found_types) (required_schema_types config) r))%res.

Definition css_required : list pystr :=
  [u ".audit-summary-grid"; u ".risk-grid"; u ".faq-list"; u ".audit-form"].

Definition validate_css (content : pystr) (config : BuildConfig) : result Report :=
  (do bs <- Codec.encode (encoding config) content;
   let size := Z.of_nat (length bs) in
   let r := check_size new_report size (min_css_size config) in
   Ok (fold_left (check_contains content) css_required r))%res.

(* ================================================================== *)
(** ** The world: file store, logger, environment *)

(** A path is the list of its parts, as pathlib's [parts] gives them in
    the POSIX flavour: an absolute path starts with its anchor, a slash.
    Paths are compared part by part: two lists that reach one file
    through [..] or through a link are two paths of the model.  The
    properties that depend on where a path leads are stated for plain
    parts (no separator, not [.] or [..]). *)
Definition Path : Type := list pystr.

(** [name.split("/")] *)
Fixpoint segments (s : pystr) : list pystr :=
  match s with
  | [] => [[]]
  | c :: r =>
    if (c =? 47)%N then [] :: segments r
    else match segments r with
         | seg :: rest => (c :: seg) :: rest
         | [] => [[c]]
         end
  end.

(** The parts pathlib reads off a string: empty segments and [.] are
    dropped, [..] is kept. *)
Definition is_part (seg : pystr) : bool :=
  negb (str_eqb seg []) && negb (str_eqb seg [46%N]).

Definition parts_of (s : pystr) : list pystr := filter is_part (segments s).

(** The anchor of an absolute name.  Exactly two slashes at the front are
    kept as they are; one, or three and more, are one slash. *)
Definition anchor_of (s : pystr) : option pystr :=
  if startswith [47; 47; 47]%N s then Some [47%N]
  else if startswith [47; 47]%N s then Some [47; 47]%N
  else if startswith [47%N] s then Some [47%N]
  else None.

(** [path / name]: the parts of [name] are added to those of [path],
    unless [name] is absolute, which replaces [path]. *)
Definition path_div (p : Path) (name : pystr) : Path :=
  match anchor_of name with
  | Some a => a :: parts_of name
  | None => p ++ parts_of name
  end.
Notation "p // name" := (path_div p name) (at level 40, left associativity).

(** [str(path)] *)
Definition path_str (p : Path) : pystr :=
  match p with
  | [] => u "."
  | a :: rest => if startswith [47%N] a then a ++ join (u "/") rest
                 else join (u "/") p
  end.
Definition path_name (p : Path) : pystr := last p [].
Definition path_parent (p : Path) : Path := removelast p.

Definition path_eq_dec (p q : Path) : {p = q} + {p <> q} :=
  list_eq_dec (list_eq_dec N.eq_dec) p q.

Definition path_eqb (p q : Path) : bool :=
  if path_eq_dec p q then true else false.

Fixpoint is_prefix (pre p : Path) : bool :=
  match pre, p with
  | [], _ => true
  | _ :: _, [] => false
  | a :: pre', b :: p' => str_eqb a b && is_prefix pre' p'
  end.

Inductive Level : Type := DEBUG | INFO | ERROR.

(** A record handed to the logger: its level, its text and, where the
    script formats an exception into the message, that exception, whose
    text is the interpreter's and follows [lr_text]. *)
Record LogRecord : Type := {
  lr_level : Level;
  lr_text : pystr;
  lr_exc : option Exn
}.

(** What the operating system can answer when it refuses to create or
    open a path, and the exception Python raises for it. *)
Inductive OsFault : Type := Denied | Exists | OtherFault.

Definition os_exn (f : OsFault) : Exn :=
  match f with
  | Denied => PermissionError
  | Exists => FileExistsError
  | OtherFault => OSError
  end.

(** The file store holds the regular files with their bytes and the
    directories.  [w_fault] is the operating system's verdict on creating
    or opening a path for writing: [Some f] when it refuses.
    [w_write_fault p] is [Some k] when a write to the file [p], once it is
    open, fails after [k] bytes (a full disk, an input/output error):
    Python raises [OSError] and the file keeps what was written.
    [w_linesep] is [os.linesep], which a file opened in text mode writes
    for every line feed.  The records passed to the logger are kept in
    [w_log], oldest first; what the handlers print, and the log file, are
    not modelled: the store holds the files other than the log file. *)
Record World : Type := {
  w_files : list (Path * bytes);
  w_dirs : list Path;
  w_fault : Path -> option OsFault;
  w_linesep : pystr;
  w_write_fault : Path -> option nat;
  w_log : list LogRecord
}.

(** The readings of the process environment and of the clock, one per
    place where the script reads it. *)
Record Ambient : Type := {
  env_COMPUTERNAME : option pystr;
  env_HOSTNAME : option pystr;
  utc_now_manifest : pystr;
  utc_now_readme : pystr;
  local_now_backup : pystr
}.

(** Computations that read and change the world and may raise.  The world
    returned with an exception is the world at the raise. *)
Definition M (A : Type) : Type := World -> result A * World.

Definition ret {A} (a : A) : M A := fun w => (Ok a, w).
Definition raise {A} (e : Exn) : M A := fun w => (Err e, w).

Definition bind {A B} (m : M A) (k : A -> M B) : M B :=
  fun w =>
    match m w with
    | (Ok a, w') => k a w'
    | (Err e, w') => (Err e, w')
    end.

Definition lift {A} (r : result A) : M A :=
  match r with
  | Ok a => ret a
  | Err e => raise e
  end.

Declare Scope world_scope.
Delimit Scope world_scope with world.
Notation "x <- m ;; k" := (bind m (fun x => k))
  (at level 61, m at next level, right associativity) : world_scope.
Notation "m ;; k" := (bind m (fun _ => k))
  (at level 61, right associativity) : world_scope.
Local Open Scope world_scope.

(** *** Logger *)

Definition emit (lvl : Level) (text : pystr) (exc : option Exn) : M unit :=
  fun w =>
    (Ok tt, {| w_files := w_files w; w_dirs := w_dirs w; w_fault := w_fault w;
               w_linesep := w_linesep w; w_write_fault := w_write_fault w;
               w_log := w_log w ++ [{| lr_level := lvl; lr_text := text;
                                       lr_exc := exc |}] |}).

Definition log_info (text : pystr) : M unit := emit INFO text None.
Definition log_debug (text : pystr) : M unit := emit DEBUG text None.
Definition log_error (text : pystr) (exc : option Exn) : M unit := emit ERROR text exc.

Fixpoint log_checks (prefix : pystr) (cs : list pystr) : M unit :=
  match cs with
  | [] => ret tt
  | c :: rest => log_debug (prefix ++ c) ;; log_checks prefix rest
  end.

(** *** File store *)

Fixpoint file_get (files : list (Path * bytes)) (p : Path) : option bytes :=
  match files with
  | [] => None
  | (q, bs) :: r => if path_eqb q p then Some bs else file_get r p
  end.

Fixpoint file_put (files : list (Path * bytes)) (p : Path) (bs : bytes)
  : list (Path * bytes) :=
  match files with
  | [] => [(p, bs)]
  | (q, old) :: r =>
    if path_eqb q p then (q, bs) :: r else (q, old) :: file_put r p bs
  end.

Definition set_files (w : World) (files : list (Path * bytes)) : World :=
  {| w_files := files; w_dirs := w_dirs w; w_fault := w_fault w;
     w_linesep := w_linesep w; w_write_fault := w_write_fault w;
     w_log := w_log w |}.

Definition set_dirs (w : World) (dirs : list Path) : World :=
  {| w_files := w_files w; w_dirs := dirs; w_fault := w_fault w;
     w_linesep := w_linesep w; w_write_fault := w_write_fault w;
     w_log := w_log w |}.

(** [path.exists()]: a file or a directory at the path or below it. *)
Definition path_exists (w : World) (p : Path) : bool :=
  existsb (fun f => is_prefix p (fst f)) (w_files w)
  || existsb (is_prefix p) (w_dirs w).

(** The path and its ancestors, shortest first. *)
Definition with_ancestors (p : Path) : list Path :=
  map (fun k => firstn k p) (seq 1 (length p)).

Definition add_dir (dirs : list Path) (d : Path) : list Path :=
  if existsb (path_eqb d) dirs then dirs else dirs ++ [d].

(** [path.mkdir(parents=True, exist_ok=True)] *)
Definition mkdir_parents (d : Path) : M unit :=
  fun w =>
    match w_fault w d with
    | Some f => (Err (os_exn f), w)
    | None => (Ok tt, set_dirs w (fold_left add_dir (with_ancestors d) (w_dirs w)))
    end.

(** [open(path, "w")]: the file exists and is empty afterwards. *)
Definition open_write (p : Path) : M unit :=
  fun w =>
    match w_fault w p with
    | Some f => (Err (os_exn f), w)
    | None => (Ok tt, set_files w (file_put (w_files w) p []))
    end.

(** The archive is written whole: a write of [zipfile] that fails is not
    modelled. *)
Definition put_bytes (p : Path) (bs : bytes) : M unit :=
  fun w => (Ok tt, set_files w (file_put (w_files w) p bs)).

(** A write to an open file, which the operating system may cut short. *)
Definition write_bytes (p : Path) (bs : bytes) : M unit :=
  fun w =>
    match w_write_fault w p with
    | Some k => (Err OSError, set_files w (file_put (w_files w) p (firstn k bs)))
    | None => (Ok tt, set_files w (file_put (w_files w) p bs))
    end.

(** The line separators of POSIX and of Windows. *)
Definition LF : pystr := [10%N].
Definition CRLF : pystr := [13%N; 10%N].

(** What a file opened in text mode with the default [newline] writes for
    a text: every line feed becomes [os.linesep]. *)
Definition to_os_newlines (linesep : pystr) (s : pystr) : pystr :=
  flat_map (fun c => if (c =? 10)%N then linesep else [c]) s.

(** [path.write_text(content, encoding=encoding)], and the size of the
    file afterwards.  The file is opened in text mode, and so created or
    emptied, before the text is translated, encoded and written. *)
Definition write_text (p : Path) (content : pystr) (encoding : pystr) : M nat :=
  open_write p ;;
  (fun w =>
     (bs <- lift (Codec.encode encoding (to_os_newlines (w_linesep w) content)) ;;
      write_bytes p bs ;;
      ret (length bs)) w).

(** [except] clauses: [PermissionError] is an [OSError], and so is
    [FileExistsError]. *)
Definition is_permission_error (e : Exn) : bool :=
  match e with PermissionError => true | _ => false end.

Definition is_os_error (e : Exn) : bool :=
  match e with
  | PermissionError | FileExistsError | OSError => true
  | _ => false
  end.

(* ================================================================== *)
(** ** Build functions *)

Definition compute_checksum (content : pystr) (encoding : pystr) : result pystr :=
  (do bs <- Codec.encode encoding content; Ok (Sha256.hexdigest bs))%res.

(** The default of the [encoding] parameter of [compute_checksum]. *)
Definition default_checksum_encoding : pystr := u "utf-8".

(** The body of the [try] statement of [safe_write]. *)
Definition safe_write_try (path : Path) (content : pystr) (encoding : pystr) : M nat :=
  mkdir_parents (path_parent path) ;;
  size <- write_text path content encoding ;;
  log_info (u "Wrote " ++ path_name path ++ u " ("
            ++ format_thousands (N.of_nat size) ++ u " bytes)") ;;
  ret size.

Definition safe_write (path : Path) (content : pystr) (encoding : pystr) : M nat :=
  fun w =>
    match safe_write_try path content encoding w with
    | (Ok size, w') => (Ok size, w')
    | (Err e, w') =>
      if is_permission_error e then
        (log_error (u "Permission denied writing " ++ path_str path ++ u ": ") (Some e) ;;
         raise e) w'
      else if is_os_error e then
        (log_error (u "OS error writing " ++ path_str path ++ u ": ") (Some e) ;;
         raise e) w'
      else (Err e, w')
    end.

Definition rebase (src dst p : Path) : Path := dst ++ skipn (length src) p.

Definition refused (w : World) (p : Path) : bool :=
  match w_fault w p with
  | Some _ => true
  | None => false
  end.

(** A path [q] of the copy cannot be made when the operating system
    refuses it or one of the directories between [dst] and it. *)
Definition copy_refused (w : World) (dst q : Path) : bool :=
  existsb (refused w) (skipn (length dst) (with_ancestors q)).

(** The copy of one file: what it leaves at the destination, and whether
    it failed. *)
Definition copy_file (w : World) (src dst : Path) (f : Path * bytes)
  : list (Path * bytes) * bool :=
  let q := rebase src dst (fst f) in
  if copy_refused w dst q then ([], true)
  else
    match w_write_fault w q with
    | Some k => ([(q, firstn k (snd f))], true)
    | None => ([(q, snd f)], false)
    end.

(** [shutil.copytree(src, dst)].  A source that is no directory and a
    destination that exists or cannot be created stop the copy before it
    starts.  After that a file or directory that cannot be copied is
    noted and the copy goes on; at the end [shutil.Error], an [OSError],
    is raised if anything was noted. *)
Definition copytree (src dst : Path) : M unit :=
  fun w =>
    match file_get (w_files w) src with
    | Some _ => (Err OSError, w)
    | None =>
      if path_exists w dst then (Err FileExistsError, w)
      else
        match w_fault w dst with
        | Some f => (Err (os_exn f), w)
        | None =>
          let below := fun p => is_prefix src p in
          let sources := filter (fun f => below (fst f)) (w_files w) in
          let dirs := map (rebase src dst) (filter below (w_dirs w)) in
          let new_dirs :=
            with_ancestors dst
            ++ filter (fun q => negb (copy_refused w dst q)) dirs in
          let new_files := flat_map (fun f => fst (copy_file w src dst f)) sources in
          let failed :=
            existsb (fun f => snd (copy_file w src dst f)) sources
            || existsb (copy_refused w dst) dirs in
          let w' :=
            {| w_files := fold_left (fun fs f => file_put fs (fst f) (snd f))
                                    new_files (w_files w);
               w_dirs := fold_left add_dir new_dirs (w_dirs w);
               w_fault := w_fault w;
               w_linesep := w_linesep w;
               w_write_fault := w_write_fault w;
               w_log := w_log w |} in
          if failed then (Err OSError, w') else (Ok tt, w')
        end
    end.

Definition create_backup (path : Path) (amb : Ambient) : M (option Path) :=
  fun w =>
    if negb (path_exists w path) then (Ok None, w)
    else
      let ts := local_now_backup amb in
      let backup := path_parent path // (path_name path ++ u "_backup_" ++ ts) in
      (copytree path backup ;;
       log_info (u "Created backup: " ++ path_str backup) ;;
       ret (Some backup)) w.

Definition set_validation (m : BuildManifest) (k : pystr) (r : Report) : BuildManifest :=
  {| m_version := m_version m; m_promptcore_ver := m_promptcore_ver m;
     generated_at := generated_at m; hostname := hostname m;
     artifacts := artifacts m; checksums := checksums m;
     validation := dict_set (validation m) k r |}.

Definition set_artifact (m : BuildManifest) (k : pystr) (v : pystr) : BuildManifest :=
  {| m_version := m_version m; m_promptcore_ver := m_promptcore_ver m;
     generated_at := generated_at m; hostname := hostname m;
     artifacts := dict_set (artifacts m) k v; checksums := checksums m;
     validation := validation m |}.

Definition set_checksum (m : BuildManifest) (k : pystr) (v : pystr) : BuildManifest :=
  {| m_version := m_version m; m_promptcore_ver := m_promptcore_ver m;
     generated_at := generated_at m; hostname := hostname m;
     artifacts := artifacts m; checksums := dict_set (checksums m) k v;
     validation := validation m |}.

Definition report_value (r : Report) : pyval :=
  PDict [ (u "passed", PBool (passed r));
          (u "checks", PList (map PStr (checks r))) ].

Definition str_dict_value (d : dict pystr) : pyval :=
  PDict (map (fun kv => (fst kv, PStr (snd kv))) d).

(** The [manifest_dict] of [build_package]. *)
Definition manifest_dict (m : BuildManifest) : pyval :=
  PDict [ (u "version", PStr (m_version m));
          (u "promptcore_ver", PStr (m_promptcore_ver m));
          (u "generated_at", PStr (generated_at m));
          (u "hostname", PStr (hostname m));
          (u "artifacts", str_dict_value (artifacts m));
          (u "checksums", str_dict_value (checksums m));
          (u "validation",
           PDict (map (fun kv => (fst kv, report_value (snd kv))) (validation m))) ].

(** [os.environ.get("COMPUTERNAME", os.environ.get("HOSTNAME", "unknown"))] *)
Definition read_hostname (amb : Ambient) : pystr :=
  match env_COMPUTERNAME amb with
  | Some h => h
  | None =>
    match env_HOSTNAME amb with
    | Some h => h
    | None => u "unknown"
    end
  end.

(** The steps of [build_package] after the preview return: the four
    artifacts, each written, recorded and hashed in turn, then the
    manifest file. *)
Definition write_artifacts (output_dir : Path) (config : BuildConfig)
    (astro_content : pystr) (schema_content : dict pyval)
    (css_content readme_content : pystr) (manifest : BuildManifest)
  : M BuildManifest :=
  let src_pages := output_dir // u "src" // u "pages" in
  let styles := output_dir // u "styles" in
  let public := output_dir // u "public" in
  let docs := output_dir // u "docs" in
  log_info (u "Writing files...") ;;

  let astro_path := src_pages // (page_slug config ++ u ".astro") in
  safe_write astro_path astro_content (encoding config) ;;
  let manifest := set_artifact manifest (u "astro") (path_str astro_path) in
  sum <- lift (compute_checksum astro_content default_checksum_encoding) ;;
  let manifest := set_checksum manifest (u "astro") sum in

  let schema_path := public // u "schema-audit.json" in
  let schema_str := json_dumps (PDict schema_content) false in
  safe_write schema_path schema_str (encoding config) ;;
  let manifest := set_artifact manifest (u "schema") (path_str schema_path) in
  sum <- lift (compute_checksum schema_str default_checksum_encoding) ;;
  let manifest := set_checksum manifest (u "schema") sum in

  let css_path := styles // u "audit-styles.css" in
  safe_write css_path css_content (encoding config) ;;
  let manifest := set_artifact manifest (u "css") (path_str css_path) in
  sum <- lift (compute_checksum css_content default_checksum_encoding) ;;
  let manifest := set_checksum manifest (u "css") sum in

  let readme_path := docs // u "readme.md" in
  safe_write readme_path readme_content (encoding config) ;;
  let manifest := set_artifact manifest (u "readme") (path_str readme_path) in
  sum <- lift (compute_checksum readme_content default_checksum_encoding) ;;
  let manifest := set_checksum manifest (u "readme") sum in

  let manifest_path := output_dir // u "build-manifest.json" in
  let manifest_str := json_dumps (manifest_dict manifest) true in
  safe_write manifest_path manifest_str (encoding config) ;;
  ret manifest.

Definition build_package (output_dir : Path) (config : BuildConfig)
    (amb : Ambient) (dry_run : bool) : M BuildManifest :=
  let manifest :=
    {| m_version := version config;
       m_promptcore_ver := promptcore_ver config;
       generated_at := utc_now_manifest amb;
       hostname := read_hostname amb;
       artifacts := []; checksums := []; validation := [] |} in

  log_info (u "Generating content...") ;;
  let astro_content := generate_astro_content config in
  let schema_content := generate_schema config in
  let css_content := generate_css in
  let readme_content := generate_readme config (utc_now_readme amb) in

  log_info (u "Validating content...") ;;

  astro_validation <- lift (validate_astro astro_content config) ;;
  let manifest := set_validation manifest (u "astro") astro_validation in
  log_checks (u "  Astro: ") (checks astro_validation) ;;

  schema_validation <- lift (validate_schema schema_content config) ;;
  let manifest := set_validation manifest (u "schema") schema_validation in
  log_checks (u "  Schema: ") (checks schema_validation) ;;

  css_validation <- lift (validate_css css_content config) ;;
  let manifest := set_validation manifest (u "css") css_validation in
  log_checks (u "  CSS: ") (checks css_validation) ;;

  let all_passed :=
    forallb (fun b : bool => b)
            [passed astro_validation; passed schema_validation;
             passed css_validation] in

  if negb all_passed then
    log_error (u "Validation failed — aborting build") None ;;
    raise (ValidationError (u "Content validation failed"))
  else
    log_info (u "All validations passed") ;;
    if dry_run then
      log_info (u "DRY RUN — skipping file writes") ;;
      ret manifest
    else
      write_artifacts output_dir config astro_content schema_content
                      css_content readme_content manifest.

(* ================================================================== *)
(** ** Archive and command line *)

Record Args : Type := {
  a_output : Path;
  a_zip : bool;
  a_backup : bool;
  a_dry_run : bool;
  a_log_file : option Path;
  a_verbose : bool
}.

(** [setup_logging(log_path)]: the file handler opens the log file, which
    the operating system may refuse.  The handlers themselves are not
    modelled (see [World]), so neither is the level [--verbose] sets on
    the console handler. *)
Definition setup_logging (log_path : option Path) : M unit :=
  fun w =>
    match log_path with
    | None => (Ok tt, w)
    | Some p =>
      match w_fault w p with
      | Some f => (Err (os_exn f), w)
      | None => (Ok tt, w)
      end
    end.

Section Archive.

(** The bytes [zipfile] produces for a compression mode and the entries
    (name in the archive, content) added to it, in order. *)
Variable zip_encode : Z -> list (Path * bytes) -> bytes.

(** The compression methods [zipfile] knows: stored, deflated, bzip2 and
    lzma.  [ZipFile] refuses any other before it opens the file. *)
Definition supported_compression : list Z := [0; 8; 12; 14]%Z.

(** [os.walk] visits the regular files below [source_dir]; the model
    takes them in the order of the file store. *)
Definition create_zip (source_dir output_path : Path) (config : BuildConfig)
  : M Path :=
  log_info (u "Creating ZIP archive: " ++ path_str output_path) ;;
  (if existsb (Z.eqb (zip_compression config)) supported_compression
   then ret tt
   else raise NotImplementedError) ;;
  open_write output_path ;;
  (fun w =>
     let members :=
       filter (fun f => is_prefix source_dir (fst f)
                        && negb (path_eqb source_dir (fst f)))
              (w_files w) in
     let entries :=
       map (fun f => (skipn (length (path_parent source_dir)) (fst f), snd f))
           members in
     (put_bytes output_path (zip_encode (zip_compression config) entries) ;;
      log_checks (u "  Added: ") (map (fun e => path_str (fst e)) entries) ;;
      let size := length (zip_encode (zip_compression config) entries) in
      log_info (u "ZIP created: " ++ format_thousands (N.of_nat size) ++ u " bytes") ;;
      ret output_path) w).

(** [if args.backup: create_backup(args.output, logger)] *)
Definition backup_step (args : Args) (amb : Ambient) : M unit :=
  if a_backup args
  then create_backup (a_output args) amb ;; ret tt
  else ret tt.

(** [if args.zip and not args.dry_run: create_zip(...)] *)
Definition zip_step (args : Args) (config : BuildConfig) : M unit :=
  if a_zip args && negb (a_dry_run args)
  then
    let zip_path :=
      path_parent (a_output args) // (path_name (a_output args) ++ u ".zip") in
    create_zip (a_output args) zip_path config ;; ret tt
  else ret tt.

(** The body of the [try] statement of [main]. *)
Definition main_try (args : Args) (config : BuildConfig) (amb : Ambient) : M Z :=
  backup_step args amb ;;
  manifest <- build_package (a_output args) config amb (a_dry_run args) ;;
  zip_step args config ;;
  let rule := repeat 61%N 60 in
  log_info rule ;;
  log_info (u "BUILD COMPLETE") ;;
  log_info (u "  Output: " ++ path_str (a_output args)) ;;
  log_info (u "  Artifacts: " ++ str_of_Z (Z.of_nat (length (artifacts manifest)))) ;;
  log_info rule ;;
  ret 0.

(** [main] with the configuration as a parameter: the value it returns is
    the exit code; an exception it lets through is an [Err]. *)
Definition main_with (config : BuildConfig) (args : Args) (amb : Ambient) : M Z :=
  setup_logging (a_log_file args) ;;
  let rule := repeat 61%N 60 in
  log_info rule ;;
  log_info (u "NexTara DCS Audit Builder " ++ version config) ;;
  log_info (u "PromptCore Alignment: " ++ promptcore_ver config) ;;
  log_info rule ;;
  (fun w =>
     match main_try args config amb w with
     | (Ok code, w') => (Ok code, w')
     | (Err e, w') =>
       if is_validation_error e then
         (log_error (u "Validation failed: ") (Some e) ;; ret 1) w'
       else
         (log_error (u "Build failed: ") (Some e) ;; ret 2) w'
     end).

(** [main()]: the configuration is [BuildConfig()]. *)
Definition main (args : Args) (amb : Ambient) : M Z :=
  main_with default_config args amb.


End Archive.

(* ================================================================== *)
(** * Vocabulary of the properties *)

Unset Implicit Arguments.

(** ** The store and the outcomes of a build *)

(** [same_store w w']: the two worlds have the same files and directories
    and the same operating system (faults, line separator); they may
    differ in the log. *)
Definition same_store (w w' : World) : Prop :=
  w_files w' = w_files w /\ w_dirs w' = w_dirs w /\ w_fault w' = w_fault w
  /\ w_linesep w' = w_linesep w /\ w_write_fault w' = w_write_fault w.

(** [same_os w w']: the operating system answers alike in both worlds. *)
Definition same_os (w w' : World) : Prop :=
  w_fault w' = w_fault w /\ w_linesep w' = w_linesep w
  /\ w_write_fault w' = w_write_fault w.

(** A name without a slash. *)
Definition no_slash (s : pystr) : bool := forallb (fun c => negb (c =? 47)%N) s.

(** A plain name: one part of a path in either flavour of pathlib, with
    no separator and no drive, and not [.] or [..]. *)
Definition has_separator (s : pystr) : bool :=
  existsb (fun c => (c =? 47) || (c =? 92) || (c =? 58))%N s.

Definition plain_name (s : pystr) : bool :=
  negb (has_separator s) && is_part s && negb (str_eqb s [46; 46]%N).

(** A plain path: after the anchor, if it has one, at least one part,
    and plain parts only. *)
Definition plain_path (p : Path) : bool :=
  match p with
  | [] => false
  | a :: rest =>
    if startswith [47%N] a
    then negb (match rest with [] => true | _ => false end)
         && forallb plain_name rest
    else forallb plain_name p
  end.

(** A computation is [quiet] when it never touches the store. *)
Definition quiet {A} (m : M A) : Prop :=
  forall w, same_store w (snd (m w)).

(** The manifest [build_package] holds once the three reports are in. *)
Definition validated_manifest (config : BuildConfig) (amb : Ambient)
    (ra rs rc : Report) : BuildManifest :=
  {| m_version := version config;
     m_promptcore_ver := promptcore_ver config;
     generated_at := utc_now_manifest amb;
     hostname := read_hostname amb;
     artifacts := []; checksums := [];
     validation := [(u "astro", ra); (u "schema", rs); (u "css", rc)] |}.

(** What [build_package] does, by the outcome of the three validators:
    an exception of a validator is passed on; a failed report raises
    [ValidationError]; a preview returns the manifest; in each of these
    cases the store is as it was.  Otherwise the artifacts are written,
    starting from a world with the same store. *)
Inductive build_outcome (output_dir : Path) (config : BuildConfig)
    (amb : Ambient) (dry_run : bool) (w : World)
  : result BuildManifest * World -> Prop :=
| BuildValidatorRaised e w' :
    (validate_astro (generate_astro_content config) config = Err e
     \/ (exists ra,
          validate_astro (generate_astro_content config) config = Ok ra
          /\ validate_schema (generate_schema config) config = Err e)
     \/ (exists ra rs,
          validate_astro (generate_astro_content config) config = Ok ra
          /\ validate_schema (generate_schema config) config = Ok rs
          /\ validate_css generate_css config = Err e)) ->
    same_store w w' ->
    build_outcome output_dir config amb dry_run w (Err e, w')
| BuildValidationFailed ra rs rc w' :
    validate_astro (generate_astro_content config) config = Ok ra ->
    validate_schema (generate_schema config) config = Ok rs ->
    validate_css generate_css config = Ok rc ->
    passed ra && passed rs && passed rc = false ->
    same_store w w' ->
    build_outcome output_dir config amb dry_run w
      (Err (ValidationError (u "Content validation failed")), w')
| BuildPreview ra rs rc w' :
    validate_astro (generate_astro_content config) config = Ok ra ->
    validate_schema (generate_schema config) config = Ok rs ->
    validate_css generate_css config = Ok rc ->
    passed ra && passed rs && passed rc = true ->
    dry_run = true ->
    same_store w w' ->
    build_outcome output_dir config amb dry_run w
      (Ok (validated_manifest config amb ra rs rc), w')
| BuildWrites ra rs rc w1 :
    validate_astro (generate_astro_content config) config = Ok ra ->
    validate_schema (generate_schema config) config = Ok rs ->
    validate_css generate_css config = Ok rc ->
    passed ra && passed rs && passed rc = true ->
    dry_run = false ->
    same_store w w1 ->
    build_outcome output_dir config amb dry_run w
      (write_artifacts output_dir config (generate_astro_content config)
         (generate_schema config) generate_css
         (generate_readme config (utc_now_readme amb))
         (validated_manifest config amb ra rs rc) w1).

(** One of the three validators raises [e], those before it having
    returned their reports. *)
Definition validator_raises (config : BuildConfig) (e : Exn) : Prop :=
  validate_astro (generate_astro_content config) config = Err e
  \/ (exists ra,
        validate_astro (generate_astro_content config) config = Ok ra
        /\ validate_schema (generate_schema config) config = Err e)
  \/ (exists ra rs,
        validate_astro (generate_astro_content config) config = Ok ra
        /\ validate_schema (generate_schema config) config = Ok rs
        /\ validate_css generate_css config = Err e).

(** ** Exceptions of a computation *)

(** The computation never raises [ValidationError]. *)
Definition no_validation_error {A} (m : M A) : Prop :=
  forall w e w', m w = (Err e, w') -> is_validation_error e = false.

Definition result_no_validation_error {A} (r : result A) : Prop :=
  forall e, r = Err e -> is_validation_error e = false.

(** ** Where the artifacts go and what they hold *)

Definition astro_path (output_dir : Path) (config : BuildConfig) : Path :=
  output_dir // u "src" // u "pages" // (page_slug config ++ u ".astro").
Definition schema_path (output_dir : Path) : Path :=
  output_dir // u "public" // u "schema-audit.json".
Definition css_path (output_dir : Path) : Path :=
  output_dir // u "styles" // u "audit-styles.css".
Definition readme_path (output_dir : Path) : Path :=
  output_dir // u "docs" // u "readme.md".
Definition manifest_path (output_dir : Path) : Path :=
  output_dir // u "build-manifest.json".

(** The text written to the structured-data file. *)
Definition schema_text (config : BuildConfig) : pystr :=
  json_dumps (PDict (generate_schema config)) false.

(** The four artifacts of a build: name in the manifest, file, content. *)
Definition artifact_table (output_dir : Path) (config : BuildConfig)
    (amb : Ambient) : list (pystr * Path * pystr) :=
  [ (u "astro", astro_path output_dir config, generate_astro_content config);
    (u "schema", schema_path output_dir, schema_text config);
    (u "css", css_path output_dir, generate_css);
    (u "readme", readme_path output_dir,
     generate_readme config (utc_now_readme amb)) ].

(** Recomputing the hash over the bytes of the file at [path] reproduces
    the checksum the manifest records under [name]. *)
Definition checksum_matches_file (m : BuildManifest) (w : World)
    (name : pystr) (path : Path) : bool :=
  match dict_get (checksums m) name, file_get (w_files w) path with
  | Some sum, Some bs => str_eqb (Sha256.hexdigest bs) sum
  | _, _ => false
  end.

(** ** Structured data *)

(** The top-level entries of the graph of a schema. *)
Definition graph_entries (schema : dict pyval) : list pyval :=
  match dict_get schema (u "@graph") with
  | Some (PList l) => l
  | _ => []
  end.

(** The [@type] value of an entry. *)
Definition entry_type (item : pyval) : option pyval :=
  match item with
  | PDict d => dict_get d (u "@type")
  | _ => None
  end.

(** [name] appears among the [@type] values of the top-level entries. *)
Definition has_type (schema : dict pyval) (name : pystr) : Prop :=
  exists item, In item (graph_entries schema) /\ entry_type item = Some (PStr name).

(** The [@id] of the [i]-th top-level node of the graph. *)
Definition node_id (schema : dict pyval) (i : nat) : option pyval :=
  match dict_get schema (u "@graph") with
  | Some (PList l) =>
    match nth_error l i with
    | Some (PDict d) => dict_get d (u "@id")
    | _ => None
    end
  | _ => None
  end.

(** ** Configurations and inputs used as instances *)

(** A schema with the right context and the three types, and one entry of
    the graph that is no dictionary. *)
Definition junk_entry_schema : dict pyval :=
  [ (u "@context", PStr (u "https://schema.org"));
    (u "@graph",
     PList [ PDict [(u "@type", PStr (u "WebPage"))];
             PDict [(u "@type", PStr (u "Service"))];
             PDict [(u "@type", PStr (u "FAQPage"))];
             PStr (u "junk") ]) ].

Definition with_encoding (config : BuildConfig) (enc : pystr) : BuildConfig :=
  {| version := version config; promptcore_ver := promptcore_ver config;
     domain := domain config; page_slug := page_slug config;
     encoding := enc; zip_compression := zip_compression config;
     min_astro_size := min_astro_size config;
     min_css_size := min_css_size config;
     required_schema_types := required_schema_types config |}.

Definition with_min_sizes (config : BuildConfig) (astro css : Z) : BuildConfig :=
  {| version := version config; promptcore_ver := promptcore_ver config;
     domain := domain config; page_slug := page_slug config;
     encoding := encoding config; zip_compression := zip_compression config;
     min_astro_size := astro; min_css_size := css;
     required_schema_types := required_schema_types config |}.

(** The configuration whose [domain] and [page_slug] are replaced. *)
Definition with_domain_slug (config : BuildConfig) (d s : pystr) : BuildConfig :=
  {| version := version config; promptcore_ver := promptcore_ver config;
     domain := d; page_slug := s;
     encoding := encoding config; zip_compression := zip_compression config;
     min_astro_size := min_astro_size config;
     min_css_size := min_css_size config;
     required_schema_types := required_schema_types config |}.

(** A stylesheet floor above the size of the stylesheet. *)
Definition strict_css_config : BuildConfig := with_min_sizes default_config 5000 10000.

(** A markup floor above the size of the markup. *)
Definition oversized_floor_config : BuildConfig :=
  with_min_sizes default_config 20000 500.

(** A markup floor above the size of the markup, and an encoding that
    cannot encode the stylesheet. *)
Definition cp1252_oversized_config : BuildConfig :=
  with_encoding oversized_floor_config (u "cp1252").

(** An encoding other than UTF-8 that writes ASCII text as UTF-8 does. *)
Definition raw_escape_config : BuildConfig :=
  with_encoding default_config (u "raw_unicode_escape").

(** The stylesheet cannot be checked against its file in this encoding. *)
Definition utf16_config : BuildConfig := with_encoding default_config (u "utf-16").

(** The configuration of the example in the specification. *)
Definition example_config : BuildConfig :=
  with_domain_slug default_config (u "https://example.com") (u "audit").

Definition empty_world : World :=
  {| w_files := []; w_dirs := []; w_fault := fun _ => None;
     w_linesep := LF; w_write_fault := fun _ => None; w_log := [] |}.

(** A world in which the operating system refuses one path. *)
Definition refusing (p : Path) (f : OsFault) : World :=
  {| w_files := []; w_dirs := [];
     w_fault := fun q => if path_eqb q p then Some f else None;
     w_linesep := LF; w_write_fault := fun _ => None;
     w_log := [] |}.

Definition sample_ambient : Ambient :=
  {| env_COMPUTERNAME := None;
     env_HOSTNAME := Some (u "builder");
     utc_now_manifest := u "2026-01-01T00:00:00+00:00";
     utc_now_readme := u "2026-01-01T00:00:01+00:00";
     local_now_backup := u "20260101_000000" |}.



(** A [zipfile] stand-in for runs that make no archive. *)
Definition no_archive : Z -> list (Path * bytes) -> bytes := fun _ _ => [].

(** ** Further vocabulary *)

(** A line of a report that records a check that passed, or failed. *)
Definition is_pass_line (c : pystr) : bool := startswith (u "PASS: ") c.
Definition is_fail_line (c : pystr) : bool := startswith (u "FAIL: ") c.

(** A report whose verdict is that of its lines: every line is a PASS or a
    FAIL line, and the report passed exactly when none is a FAIL line. *)
Definition lines_agree (r : Report) : Prop :=
  forallb (fun c => is_pass_line c || is_fail_line c) (checks r) = true
  /\ passed r = negb (existsb is_fail_line (checks r)).

(** The [@type] names of the three nodes [generate_schema] builds. *)
Definition generated_types : list pystr :=
  [u "WebPage"; u "Service"; u "FAQPage"].

(** [m] changes no file but those at the paths [P] holds of. *)
Definition only_touches {A} (P : Path -> Prop) (m : M A) : Prop :=
  forall w q, ~ P q ->
    file_get (w_files (snd (m w))) q = file_get (w_files w) q.

(** The five files of a build. *)
Definition build_paths (output_dir : Path) (config : BuildConfig) : list Path :=
  [ astro_path output_dir config; schema_path output_dir;
    css_path output_dir; readme_path output_dir; manifest_path output_dir ].

(** The file store names every file once. *)
Definition unique_files (w : World) : Prop := NoDup (map fst (w_files w)).

(** Where [create_backup] copies [path] to. *)
Definition backup_path (path : Path) (amb : Ambient) : Path :=
  path_parent path // (path_name path ++ u "_backup_" ++ local_now_backup amb).

(** Where [main] puts the archive. *)
Definition zip_path (args : Args) : Path :=
  path_parent (a_output args) // (path_name (a_output args) ++ u ".zip").

(** The log grew by exactly the records [rs]. *)
Definition logged (w w' : World) (rs : list LogRecord) : Prop :=
  w_log w' = w_log w ++ rs.

(** The record [safe_write] logs when the operating system refuses. *)
Definition refusal_record (path : Path) (f : OsFault) : LogRecord :=
  {| lr_level := ERROR;
     lr_text := (match f with
                 | Denied => u "Permission denied writing "
                 | _ => u "OS error writing "
                 end) ++ path_str path ++ u ": ";
     lr_exc := Some (os_exn f) |}.


(** The configuration whose [zip_compression] is replaced. *)
Definition with_compression (config : BuildConfig) (method : Z) : BuildConfig :=
  {| version := version config; promptcore_ver := promptcore_ver config;
     domain := domain config; page_slug := page_slug config;
     encoding := encoding config; zip_compression := method;
     min_astro_size := min_astro_size config;
     min_css_size := min_css_size config;
     required_schema_types := required_schema_types config |}.

(** A world whose store holds one file, [out/a.txt]. *)
Definition stocked_world : World :=
  {| w_files := [([u "out"; u "a.txt"], [x61; x62; x63])];
     w_dirs := [[u "out"]];
     w_fault := fun _ => None;
     w_linesep := LF; w_write_fault := fun _ => None; w_log := [] |}.

(** The same with a backup of [out] in place already. *)
Definition backed_up_world : World :=
  {| w_files := w_files stocked_world;
     w_dirs := [[u "out"]; backup_path [u "out"] sample_ambient];
     w_fault := fun _ => None;
     w_linesep := LF; w_write_fault := fun _ => None; w_log := [] |}.

(** [p.relative_to(base)] for a path [p] below [base]. *)
Definition relative_to (base p : Path) : Path := skipn (length base) p.

(** [m] keeps a store that names every file once that way. *)
Definition keeps_unique {A} (m : M A) : Prop :=
  forall w, unique_files w -> unique_files (snd (m w)).

(** The command line [--output out --zip]. *)
Definition archive_args : Args :=
  {| a_output := [u "out"]; a_zip := true; a_backup := false;
     a_dry_run := false; a_log_file := None; a_verbose := false |}.


(** A world in which every write to one file fails after [k] bytes. *)
Definition cutting (p : Path) (k : nat) : World :=
  {| w_files := []; w_dirs := [];
     w_fault := fun _ => None;
     w_linesep := LF;
     w_write_fault := fun q => if path_eqb q p then Some k else None;
     w_log := [] |}.

(** An empty store on a platform that ends its lines as Windows does. *)
Definition crlf_world : World :=
  {| w_files := []; w_dirs := [];
     w_fault := fun _ => None;
     w_linesep := CRLF; w_write_fault := fun _ => None; w_log := [] |}.

(** The world in which [safe_write path] has made the directories and
    opened the file. *)
Definition opened (path : Path) (w : World) : World :=
  set_files
    (set_dirs w (fold_left add_dir (with_ancestors (path_parent path)) (w_dirs w)))
    (file_put (w_files w) path []).



(* ================================================================== *)
(** * Properties *)

(** The templates are unfolded by evaluation only. *)
#[global] Opaque Templates.astro_template Templates.css_template.

(** ** Strings and dictionaries *)

Lemma str_eqb_eq (a b : pystr) : str_eqb a b = true <-> a = b.
Proof.
  unfold str_eqb. destruct (list_eq_dec N.eq_dec a b); split; congruence.
Qed.

Lemma str_eqb_refl (a : pystr) : str_eqb a a = true.
Proof. apply str_eqb_eq. reflexivity. Qed.

(** ** Computations that leave the file store alone *)

Lemma same_store_refl (w : World) : same_store w w.
Proof. repeat split. Qed.

Lemma same_store_trans (w1 w2 w3 : World) :
  same_store w1 w2 -> same_store w2 w3 -> same_store w1 w3.
Proof.
  intros (F1 & D1 & X1 & L1 & W1) (F2 & D2 & X2 & L2 & W2).
  repeat split; congruence.
Qed.

Lemma quiet_ret {A} (a : A) : quiet (ret a).
Proof. intro w. apply same_store_refl. Qed.

Lemma quiet_raise {A} (e : Exn) : quiet (@raise A e).
Proof. intro w. apply same_store_refl. Qed.

Lemma quiet_lift {A} (r : result A) : quiet (lift r).
Proof. destruct r; [apply quiet_ret | apply quiet_raise]. Qed.

Lemma quiet_emit lvl text exc : quiet (emit lvl text exc).
Proof. intro w. repeat split. Qed.

Lemma quiet_bind {A B} (m : M A) (k : A -> M B) :
  quiet m -> (forall a, quiet (k a)) -> quiet (bind m k).
Proof.
  intros Hm Hk w. unfold bind.
  specialize (Hm w). destruct (m w) as [[a | e] w1]; cbn in *.
  - eapply same_store_trans; [exact Hm | apply Hk].
  - exact Hm.
Qed.

Create HintDb quiet.
#[local] Hint Resolve quiet_ret quiet_raise quiet_lift quiet_emit : quiet.

Lemma quiet_log_checks prefix cs : quiet (log_checks prefix cs).
Proof.
  induction cs as [| c cs IH]; cbn [log_checks]; auto with quiet.
  apply quiet_bind; unfold log_debug; auto with quiet.
Qed.

(** Logging always succeeds. *)
Lemma emit_ok lvl text exc w : fst (emit lvl text exc w) = Ok tt.
Proof. reflexivity. Qed.

Lemma log_checks_ok prefix cs w : fst (log_checks prefix cs w) = Ok tt.
Proof.
  revert w. induction cs as [| c cs IH]; intro w; cbn [log_checks].
  - reflexivity.
  - unfold bind, log_debug. cbn [emit]. apply IH.
Qed.

(** ** Inversion of [bind] *)

Lemma bind_ok_inv {A B} (m : M A) (k : A -> M B) w b w' :
  bind m k w = (Ok b, w') ->
  exists a w1, m w = (Ok a, w1) /\ k a w1 = (Ok b, w').
Proof.
  unfold bind. destruct (m w) as [[a | e] w1]; intro H.
  - exists a, w1. split; [reflexivity | exact H].
  - discriminate.
Qed.

Lemma bind_step {A B} (m : M A) (k : A -> M B) w a w1 :
  m w = (Ok a, w1) -> bind m k w = k a w1.
Proof. intro H. unfold bind. rewrite H. reflexivity. Qed.

Lemma bind_fail {A B} (m : M A) (k : A -> M B) w e w1 :
  m w = (Err e, w1) -> bind m k w = (Err e, w1).
Proof. intro H. unfold bind. rewrite H. reflexivity. Qed.

Lemma bind_ret {A B} (a : A) (k : A -> M B) w : bind (ret a) k w = k a w.
Proof. reflexivity. Qed.

Lemma bind_raise {A B} (e : Exn) (k : A -> M B) w :
  bind (raise e) k w = (Err e, w).
Proof. reflexivity. Qed.

Lemma lift_ok_inv {A} (r : result A) w a w' :
  lift r w = (Ok a, w') -> r = Ok a /\ w' = w.
Proof.
  destruct r; cbn; intro H; inversion H; subst; split; reflexivity.
Qed.

(** ** The validation phase of [build_package] *)

Lemma validation_keys_distinct :
  str_eqb (u "astro") (u "schema") = false /\
  str_eqb (u "astro") (u "css") = false /\
  str_eqb (u "schema") (u "css") = false.
Proof. repeat split; vm_compute; reflexivity. Qed.

Lemma set_validation_three config amb ra rs rc :
  set_validation
    (set_validation
       (set_validation
          {| m_version := version config;
             m_promptcore_ver := promptcore_ver config;
             generated_at := utc_now_manifest amb;
             hostname := read_hostname amb;
             artifacts := []; checksums := []; validation := [] |}
          (u "astro") ra)
       (u "schema") rs)
    (u "css") rc
  = validated_manifest config amb ra rs rc.
Proof.
  destruct validation_keys_distinct as (H1 & H2 & H3).
  unfold set_validation, validated_manifest.
  cbn [validation artifacts checksums m_version m_promptcore_ver generated_at
       hostname dict_set].
  rewrite H1. cbn [dict_set]. rewrite H2, H3. reflexivity.
Qed.

Lemma log_info_step {B} text (k : unit -> M B) w :
  exists w1, same_store w w1 /\ bind (log_info text) k w = k tt w1.
Proof.
  eexists. split; [| reflexivity]. repeat split.
Qed.

Lemma log_error_step {B} text exc (k : unit -> M B) w :
  exists w1, same_store w w1 /\ bind (log_error text exc) k w = k tt w1.
Proof.
  eexists. split; [| reflexivity]. repeat split.
Qed.

Lemma log_checks_step {B} prefix cs (k : unit -> M B) w :
  exists w1, same_store w w1 /\ bind (log_checks prefix cs) k w = k tt w1.
Proof.
  pose proof (log_checks_ok prefix cs w) as Hok.
  pose proof (quiet_log_checks prefix cs w) as Hq.
  unfold bind. destruct (log_checks prefix cs w) as [r w1]; cbn in *.
  subst r. exists w1. split; [exact Hq | reflexivity].
Qed.

Ltac step_log w' Hw' :=
  match goal with
  | |- context [bind (log_info ?t) ?k ?w] =>
    destruct (log_info_step t k w) as (w' & Hw' & ->)
  | |- context [bind (log_error ?t ?x) ?k ?w] =>
    destruct (log_error_step t x k w) as (w' & Hw' & ->)
  | |- context [bind (log_checks ?p ?cs) ?k ?w] =>
    destruct (log_checks_step p cs k w) as (w' & Hw' & ->)
  end.

Theorem build_package_outcome output_dir config amb dry_run w :
  build_outcome output_dir config amb dry_run w
    (build_package output_dir config amb dry_run w).
Proof.
  unfold build_package. cbv zeta.
  step_log w1 S1. step_log w2 S2.
  assert (S02 : same_store w w2) by (eapply same_store_trans; eassumption).
  clear S1 S2 w1.
  destruct (validate_astro (generate_astro_content config) config)
    as [ra | e] eqn:Ea.
  2:{ cbn [lift]. rewrite bind_raise.
      apply BuildValidatorRaised; [left; exact Ea | exact S02]. }
  cbn [lift]. rewrite bind_ret.
  step_log w3 S3.
  assert (S03 : same_store w w3) by (eapply same_store_trans; eassumption).
  clear S3 S02 w2.
  destruct (validate_schema (generate_schema config) config) as [rs | e] eqn:Es.
  2:{ cbn [lift]. rewrite bind_raise.
      apply BuildValidatorRaised; [| exact S03].
      right; left. exists ra. split; assumption. }
  cbn [lift]. rewrite bind_ret.
  step_log w4 S4.
  assert (S04 : same_store w w4) by (eapply same_store_trans; eassumption).
  clear S4 S03 w3.
  destruct (validate_css generate_css config) as [rc | e] eqn:Ec.
  2:{ cbn [lift]. rewrite bind_raise.
      apply BuildValidatorRaised; [| exact S04].
      right; right. exists ra, rs. repeat split; assumption. }
  cbn [lift]. rewrite bind_ret.
  step_log w5 S5.
  assert (S05 : same_store w w5) by (eapply same_store_trans; eassumption).
  clear S5 S04 w4.
  rewrite set_validation_three.
  cbn [forallb]. rewrite andb_true_r, andb_assoc.
  destruct (passed ra && passed rs && passed rc) eqn:Hall; cbn [negb].
  - step_log w6 S6.
    assert (S06 : same_store w w6) by (eapply same_store_trans; eassumption).
    destruct dry_run eqn:Hdry.
    + step_log w7 S7. unfold ret.
      apply (BuildPreview _ _ _ _ _ ra rs rc w7 Ea Es Ec Hall eq_refl).
      eapply same_store_trans; eassumption.
    + exact (BuildWrites _ _ _ _ _ ra rs rc w6 Ea Es Ec Hall eq_refl S06).
  - step_log w6 S6. unfold raise.
    apply (BuildValidationFailed _ _ _ _ _ ra rs rc w6 Ea Es Ec Hall).
    eapply same_store_trans; eassumption.
Qed.

(** A preview never touches the store, whatever the reports say. *)
Lemma preview_is_quiet output_dir config amb :
  quiet (build_package output_dir config amb true).
Proof.
  intro w.
  pose proof (build_package_outcome output_dir config amb true w) as O.
  inversion O as [ e w' Hraise S
                 | ra rs rc w' Ea Es Ec Hall S
                 | ra rs rc w' Ea Es Ec Hall Hdry S
                 | ra rs rc w1 Ea Es Ec Hall Hdry S Hw ];
    cbn [snd]; try exact S.
  discriminate.
Qed.

(** ** The file store under [safe_write] *)

Lemma path_eqb_eq (p q : Path) : path_eqb p q = true <-> p = q.
Proof.
  unfold path_eqb. destruct (path_eq_dec p q); split; congruence.
Qed.

Lemma path_eqb_neq (p q : Path) : p <> q -> path_eqb p q = false.
Proof.
  intro H. unfold path_eqb. destruct (path_eq_dec p q); congruence.
Qed.

Lemma file_get_put_same files p bs : file_get (file_put files p bs) p = Some bs.
Proof.
  induction files as [| [q old] r IH]; cbn [file_put file_get].
  - rewrite (proj2 (path_eqb_eq p p) eq_refl). reflexivity.
  - destruct (path_eqb q p) eqn:E; cbn [file_get]; rewrite E; auto.
Qed.

Lemma file_get_put_other files p q bs :
  q <> p -> file_get (file_put files p bs) q = file_get files q.
Proof.
  intro Hne.
  induction files as [| [q' old] r IH]; cbn [file_put file_get].
  - rewrite path_eqb_neq by congruence. reflexivity.
  - destruct (path_eqb q' p) eqn:E; cbn [file_get].
    + apply path_eqb_eq in E. subst q'.
      rewrite path_eqb_neq by congruence. reflexivity.
    + destruct (path_eqb q' q); auto.
Qed.

(** ** Names, parts and line ends *)

Lemma to_os_newlines_LF (s : pystr) : to_os_newlines LF s = s.
Proof.
  unfold to_os_newlines, LF. induction s as [| c s IH]; [reflexivity |].
  cbn [flat_map]. rewrite IH. destruct (c =? 10)%N eqn:E.
  - apply N.eqb_eq in E. subst c. reflexivity.
  - reflexivity.
Qed.

Lemma has_separator_no_slash (s : pystr) :
  has_separator s = false -> no_slash s = true.
Proof.
  unfold has_separator, no_slash. induction s as [| c s IH]; [reflexivity |].
  cbn [existsb forallb]. intro H. apply orb_false_iff in H.
  destruct H as (Hc & Hs). rewrite (IH Hs).
  destruct (c =? 47)%N; [discriminate | reflexivity].
Qed.

Lemma segments_no_slash (s : pystr) : no_slash s = true -> segments s = [s].
Proof.
  unfold no_slash. induction s as [| c s IH]; [reflexivity |].
  cbn [forallb segments]. intro H. apply andb_true_iff in H.
  destruct H as (Hc & Hs). rewrite (IH Hs).
  destruct (c =? 47)%N; [discriminate | reflexivity].
Qed.

(** A name that ends with a text without a slash has a last segment that
    ends with that text. *)
Lemma segments_suffix (s t : pystr) :
  no_slash t = true ->
  exists front seg, segments (s ++ t) = front ++ [seg ++ t].
Proof.
  intro Ht. induction s as [| c s (front & seg & IH)].
  - exists [], []. apply segments_no_slash. exact Ht.
  - change ((c :: s) ++ t) with (c :: (s ++ t)). cbn [segments]. rewrite IH.
    destruct (c =? 47)%N.
    + exists ([] :: front), seg. reflexivity.
    + destruct front as [| f front]; cbn [app].
      * exists [], (c :: seg). reflexivity.
      * exists ((c :: f) :: front), seg. reflexivity.
Qed.

Lemma long_is_part (x : pystr) : (2 <= length x)%nat -> is_part x = true.
Proof.
  intro H. unfold is_part.
  destruct (str_eqb x []) eqn:E1.
  { apply str_eqb_eq in E1. subst x. cbn in H. lia. }
  destruct (str_eqb x [46%N]) eqn:E2.
  { apply str_eqb_eq in E2. subst x. cbn in H. lia. }
  reflexivity.
Qed.

Lemma parts_of_suffix (s t : pystr) :
  no_slash t = true -> (2 <= length t)%nat ->
  exists front seg, parts_of (s ++ t) = front ++ [seg ++ t].
Proof.
  intros Ht Hl. destruct (segments_suffix s t Ht) as (front & seg & E).
  unfold parts_of. rewrite E, filter_app. cbn [filter].
  rewrite long_is_part by (rewrite length_app; lia).
  exists (filter is_part front), seg. reflexivity.
Qed.

(** The last part of [p / (s ++ t)] ends with [t]. *)
Lemma path_div_name (p : Path) (s t : pystr) :
  no_slash t = true -> (2 <= length t)%nat ->
  exists seg, path_name (p // (s ++ t)) = seg ++ t.
Proof.
  intros Ht Hl. destruct (parts_of_suffix s t Ht Hl) as (front & seg & E).
  exists seg. unfold path_name, path_div. rewrite E.
  destruct (anchor_of (s ++ t)) as [a |].
  - change (a :: front ++ [seg ++ t]) with ((a :: front) ++ [seg ++ t]).
    apply last_last.
  - rewrite app_assoc. apply last_last.
Qed.

Lemma no_slash_anchor (n : pystr) : no_slash n = true -> anchor_of n = None.
Proof.
  unfold no_slash, anchor_of. destruct n as [| c n]; [reflexivity |].
  cbn [forallb startswith]. intro H. apply andb_true_iff in H.
  destruct H as (Hc & _). rewrite N.eqb_sym.
  destruct (c =? 47)%N; [discriminate | reflexivity].
Qed.

(** Under a plain name [path / name] has one part more. *)
Lemma path_div_plain (p : Path) (n : pystr) :
  plain_name n = true -> p // n = p ++ [n].
Proof.
  unfold plain_name. intro H. apply andb_true_iff in H. destruct H as (H & _).
  apply andb_true_iff in H. destruct H as (Hs & Hp).
  apply negb_true_iff, has_separator_no_slash in Hs.
  unfold path_div, parts_of. rewrite (no_slash_anchor n Hs).
  rewrite (segments_no_slash n Hs). cbn [filter]. rewrite Hp. reflexivity.
Qed.

Lemma plain_path_last (p : Path) :
  plain_path p = true -> p <> [] /\ plain_name (last p []) = true.
Proof.
  assert (L : forall l : list pystr,
             l <> [] -> forallb plain_name l = true ->
             plain_name (last l []) = true).
  { induction l as [| x l IH]; [congruence |].
    intros _ H. cbn [forallb] in H. apply andb_true_iff in H.
    destruct H as (Hx & Hl). destruct l as [| y l]; [exact Hx |].
    apply IH; [discriminate | exact Hl]. }
  unfold plain_path. destruct p as [| a rest]; [discriminate |].
  intro H. split; [discriminate |].
  destruct (startswith [47%N] a).
  - destruct rest as [| b rest]; [discriminate |].
    cbn [negb andb] in H. change (last (a :: b :: rest) []) with (last (b :: rest) []).
    apply L; [discriminate | exact H].
  - apply L; [discriminate | exact H].
Qed.

(** ** What [safe_write] leaves when it returns *)

Lemma safe_write_ok path content enc w n w' :
  safe_write path content enc w = (Ok n, w') ->
  exists bs,
    Codec.encode enc (to_os_newlines (w_linesep w) content) = Ok bs
    /\ n = length bs
    /\ file_get (w_files w') path = Some bs
    /\ (forall q, q <> path -> file_get (w_files w') q = file_get (w_files w) q)
    /\ same_os w w'
    /\ (w_fault w (path_parent path) = None /\ w_fault w path = None
        /\ w_write_fault w path = None).
Proof.
  unfold safe_write.
  destruct (safe_write_try path content enc w) as [[n0 | e] w0] eqn:T.
  2:{ destruct (is_permission_error e); [discriminate |].
      destruct (is_os_error e); discriminate. }
  intro H. inversion H; subst n0 w0; clear H.
  unfold safe_write_try, mkdir_parents, write_text, open_write, write_bytes in T.
  unfold bind at 1 in T.
  destruct (w_fault w (path_parent path)) eqn:Fd; [discriminate |].
  unfold bind at 1 in T. unfold bind at 1 in T. cbn [w_fault set_dirs] in T.
  destruct (w_fault w path) eqn:Ff; [discriminate |].
  cbv beta in T. cbn [w_linesep set_files set_dirs] in T.
  unfold bind at 1 in T.
  destruct (Codec.encode enc (to_os_newlines (w_linesep w) content))
    as [bs | e]; cbn [lift] in T; [| discriminate].
  unfold ret at 1 in T. unfold bind at 1 in T.
  cbn [w_write_fault set_files set_dirs] in T.
  destruct (w_write_fault w path) eqn:Fw; [discriminate |].
  cbv [bind ret log_info emit set_files set_dirs w_files w_dirs w_fault
       w_linesep w_write_fault w_log] in T.
  inversion T; subst; clear T.
  exists bs. cbn [w_files w_fault w_linesep w_write_fault].
  repeat split.
  - apply file_get_put_same.
  - intros q Hq. rewrite !file_get_put_other by exact Hq. reflexivity.
Qed.

(** ** The artifacts and where they go *)

Lemma last_two {A} (l : list A) (x y d : A) : last (l ++ [x; y]) d = y.
Proof.
  change [x; y] with ([x] ++ [y]). rewrite app_assoc. apply last_last.
Qed.

Lemma schema_path_parts (output_dir : Path) :
  schema_path output_dir = output_dir ++ [u "public"; u "schema-audit.json"].
Proof.
  unfold schema_path. rewrite !path_div_plain by (vm_compute; reflexivity).
  rewrite <- app_assoc. reflexivity.
Qed.

Lemma css_path_parts (output_dir : Path) :
  css_path output_dir = output_dir ++ [u "styles"; u "audit-styles.css"].
Proof.
  unfold css_path. rewrite !path_div_plain by (vm_compute; reflexivity).
  rewrite <- app_assoc. reflexivity.
Qed.

Lemma readme_path_parts (output_dir : Path) :
  readme_path output_dir = output_dir ++ [u "docs"; u "readme.md"].
Proof.
  unfold readme_path. rewrite !path_div_plain by (vm_compute; reflexivity).
  rewrite <- app_assoc. reflexivity.
Qed.

Lemma manifest_path_parts (output_dir : Path) :
  manifest_path output_dir = output_dir ++ [u "build-manifest.json"].
Proof.
  unfold manifest_path. apply path_div_plain. vm_compute. reflexivity.
Qed.

(** Whatever the page slug, the name of the page file ends with [.astro]. *)
Lemma astro_path_name (output_dir : Path) (config : BuildConfig) :
  exists seg, path_name (astro_path output_dir config) = seg ++ u ".astro".
Proof.
  unfold astro_path. apply path_div_name.
  - vm_compute. reflexivity.
  - vm_compute. lia.
Qed.

Lemma astro_name_differs (seg lit : pystr) :
  last lit 0%N <> 111%N -> seg ++ u ".astro" <> lit.
Proof.
  intros H E. apply H. rewrite <- E.
  change (u ".astro") with ([46; 97; 115; 116; 114] ++ [111])%N.
  rewrite app_assoc. apply last_last.
Qed.

(** The name of the page file is that of no other file the build, or the
    README, names. *)
Lemma astro_path_differs (output_dir : Path) (config : BuildConfig)
    (dir file : pystr) :
  last file 0%N <> 111%N ->
  astro_path output_dir config <> output_dir ++ [dir; file].
Proof.
  intros H E. destruct (astro_path_name output_dir config) as (seg & Hn).
  rewrite E in Hn. unfold path_name in Hn. rewrite last_two in Hn.
  apply (astro_name_differs seg file H). symmetry. exact Hn.
Qed.

Lemma artifact_paths_apart output_dir config :
  let a := astro_path output_dir config in
  let s := schema_path output_dir in
  let c := css_path output_dir in
  let r := readme_path output_dir in
  let m := manifest_path output_dir in
  (a <> s /\ a <> c /\ a <> r /\ a <> m)
  /\ (s <> c /\ s <> r /\ s <> m)
  /\ (c <> r /\ c <> m)
  /\ r <> m.
Proof.
  cbv zeta.
  rewrite schema_path_parts, css_path_parts, readme_path_parts,
          manifest_path_parts.
  repeat split;
    try (apply astro_path_differs; vm_compute; discriminate);
    try (intro E; apply app_inv_head in E; vm_compute in E; discriminate).
  intro E. destruct (astro_path_name output_dir config) as (seg & Hn).
  rewrite E in Hn. unfold path_name in Hn. rewrite last_last in Hn.
  revert Hn. apply not_eq_sym, astro_name_differs. vm_compute. discriminate.
Qed.

Lemma artifact_paths_distinct output_dir config :
  NoDup [ astro_path output_dir config; schema_path output_dir;
          css_path output_dir; readme_path output_dir;
          manifest_path output_dir ].
Proof.
  destruct (artifact_paths_apart output_dir config)
    as ((Nas & Nac & Nar & Nam) & (Nsc & Nsr & Nsm) & (Ncr & Ncm) & Nrm).
  repeat constructor; cbn [In]; intuition congruence.
Qed.

Lemma compute_checksum_ok content enc sum :
  compute_checksum content enc = Ok sum ->
  exists hashed,
    Codec.encode enc content = Ok hashed /\ sum = Sha256.hexdigest hashed.
Proof.
  unfold compute_checksum, bind_result.
  destruct (Codec.encode enc content) as [bs | e]; intro H; inversion H.
  exists bs. split; reflexivity.
Qed.

Ltac log_in H w1 S1 :=
  match type of H with
  | bind (log_info ?t) ?k ?w = _ =>
    let E := fresh "E" in
    destruct (log_info_step t k w) as (w1 & S1 & E); rewrite E in H; clear E
  end.

Ltac write_in H bs Enc Len Got Kept Os w1 :=
  let n := fresh "n" in
  let W := fresh "W" in
  apply bind_ok_inv in H; destruct H as (n & w1 & W & H);
  apply safe_write_ok in W;
  destruct W as (bs & Enc & Len & Got & Kept & Os & _).

Ltac sum_in H hashed Enc sum :=
  let w1 := fresh "w" in
  let L := fresh "L" in
  apply bind_ok_inv in H; destruct H as (sum & w1 & L & H);
  apply lift_ok_inv in L; destruct L as (L & ->);
  apply compute_checksum_ok in L; destruct L as (hashed & Enc & ->).

(** The maps of the manifest after the four pairs of updates. *)
Lemma manifest_after_updates (m : BuildManifest) (pa ps pc pr sa ss sc sr : pystr) :
  artifacts m = [] -> checksums m = [] ->
  let m' :=
    set_checksum (set_artifact
      (set_checksum (set_artifact
        (set_checksum (set_artifact
          (set_checksum (set_artifact m (u "astro") pa) (u "astro") sa)
          (u "schema") ps) (u "schema") ss)
        (u "css") pc) (u "css") sc)
      (u "readme") pr) (u "readme") sr in
  artifacts m' = [(u "astro", pa); (u "schema", ps); (u "css", pc); (u "readme", pr)]
  /\ checksums m' = [(u "astro", sa); (u "schema", ss); (u "css", sc); (u "readme", sr)]
  /\ validation m' = validation m.
Proof.
  destruct m as [v p g h a c val]. cbn [artifacts checksums].
  intros -> ->. vm_compute. repeat split.
Qed.

(** A successful run of the writing steps: every artifact was encoded,
    with the line ends of the platform, in the configured encoding, and as
    it is in the checksum's; the manifest names the four artifacts in
    order, and each file holds the bytes of the configured encoding. *)
Lemma write_artifacts_ok output_dir config A S C R m w m' w' :
  artifacts m = [] -> checksums m = [] ->
  write_artifacts output_dir config A S C R m w = (Ok m', w') ->
  exists ba bs bc br ha hs hc hr,
    (Codec.encode (encoding config) (to_os_newlines (w_linesep w) A) = Ok ba
     /\ Codec.encode (encoding config)
          (to_os_newlines (w_linesep w) (json_dumps (PDict S) false)) = Ok bs
     /\ Codec.encode (encoding config) (to_os_newlines (w_linesep w) C) = Ok bc
     /\ Codec.encode (encoding config) (to_os_newlines (w_linesep w) R) = Ok br)
    /\ (Codec.encode default_checksum_encoding A = Ok ha
        /\ Codec.encode default_checksum_encoding (json_dumps (PDict S) false) = Ok hs
        /\ Codec.encode default_checksum_encoding C = Ok hc
        /\ Codec.encode default_checksum_encoding R = Ok hr)
    /\ artifacts m' =
         [ (u "astro", path_str (astro_path output_dir config));
           (u "schema", path_str (schema_path output_dir));
           (u "css", path_str (css_path output_dir));
           (u "readme", path_str (readme_path output_dir)) ]
    /\ checksums m' =
         [ (u "astro", Sha256.hexdigest ha);
           (u "schema", Sha256.hexdigest hs);
           (u "css", Sha256.hexdigest hc);
           (u "readme", Sha256.hexdigest hr) ]
    /\ validation m' = validation m
    /\ (file_get (w_files w') (astro_path output_dir config) = Some ba
        /\ file_get (w_files w') (schema_path output_dir) = Some bs
        /\ file_get (w_files w') (css_path output_dir) = Some bc
        /\ file_get (w_files w') (readme_path output_dir) = Some br)
    /\ file_get (w_files w') (manifest_path output_dir) <> None.
Proof.
  intros HA HC H.
  destruct (artifact_paths_apart output_dir config)
    as ((Nas & Nac & Nar & Nam) & (Nsc & Nsr & Nsm) & (Ncr & Ncm) & Nrm).
  unfold write_artifacts in H. cbv zeta in H.
  fold (astro_path output_dir config) (schema_path output_dir)
       (css_path output_dir) (readme_path output_dir)
       (manifest_path output_dir) in H.
  log_in H w0 S0. destruct S0 as (_ & _ & _ & L0 & _).
  write_in H ba Ea La Ga Ka Fa w1. sum_in H ha Ha suma.
  write_in H bs Es Ls Gs Ks Fs w2. sum_in H hs Hs sums.
  write_in H bc Ec Lc Gc Kc Fc w3. sum_in H hc Hc sumc.
  write_in H br Er Lr Gr Kr Fr w4. sum_in H hr Hr sumr.
  write_in H bm Em Lm Gm Km Fm w5.
  unfold ret in H. inversion H as [[Hm Hw]]; clear H. subst w'.
  destruct Fa as (_ & L1 & _). destruct Fs as (_ & L2 & _).
  destruct Fc as (_ & L3 & _).
  rewrite L0 in Ea. rewrite L1, L0 in Es. rewrite L2, L1, L0 in Ec.
  rewrite L3, L2, L1, L0 in Er.
  destruct (manifest_after_updates m
              (path_str (astro_path output_dir config))
              (path_str (schema_path output_dir))
              (path_str (css_path output_dir))
              (path_str (readme_path output_dir))
              (Sha256.hexdigest ha) (Sha256.hexdigest hs)
              (Sha256.hexdigest hc) (Sha256.hexdigest hr) HA HC)
    as (MA & MC & MV).
  exists ba, bs, bc, br, ha, hs, hc, hr.
  split; [repeat split; assumption |].
  split; [repeat split; assumption |].
  split; [exact MA |].
  split; [exact MC |].
  split; [exact MV |].
  split.
  { repeat split.
    - rewrite (Km _ Nam), (Kr _ Nar), (Kc _ Nac), (Ks _ Nas). exact Ga.
    - rewrite (Km _ Nsm), (Kr _ Nsr), (Kc _ Nsc). exact Gs.
    - rewrite (Km _ Ncm), (Kr _ Ncr). exact Gc.
    - rewrite (Km _ Nrm). exact Gr. }
  rewrite Gm. discriminate.
Qed.

(** ** Which exceptions the steps can raise *)

Lemma nve_ret {A} (a : A) : no_validation_error (ret a).
Proof. intros w e w' H. discriminate. Qed.

Lemma nve_emit lvl text exc : no_validation_error (emit lvl text exc).
Proof. intros w e w' H. discriminate. Qed.

Lemma nve_lift {A} (r : result A) :
  result_no_validation_error r -> no_validation_error (lift r).
Proof.
  intros Hr w e w' H. destruct r as [a | e0]; cbn in H; [discriminate |].
  inversion H; subst. apply Hr. reflexivity.
Qed.

Lemma nve_bind {A B} (m : M A) (k : A -> M B) :
  no_validation_error m -> (forall a, no_validation_error (k a)) ->
  no_validation_error (bind m k).
Proof.
  intros Hm Hk w e w' H. unfold bind in H.
  destruct (m w) as [[a | e0] w1] eqn:E.
  - eapply Hk. exact H.
  - inversion H; subst. eapply Hm. exact E.
Qed.


Lemma os_exn_not_validation (f : OsFault) : is_validation_error (os_exn f) = false.
Proof. destruct f; reflexivity. Qed.

Lemma encode_nve (enc s : pystr) : result_no_validation_error (Codec.encode enc s).
Proof.
  intros e. unfold Codec.encode, Codec.encode_with.
  destruct (Codec.lookup enc) as [c |].
  - destruct (Codec.encode_body c s); intro H; inversion H; reflexivity.
  - intro H; inversion H; reflexivity.
Qed.

Lemma compute_checksum_nve (content enc : pystr) :
  result_no_validation_error (compute_checksum content enc).
Proof.
  intros e. unfold compute_checksum, bind_result.
  pose proof (encode_nve enc content) as He.
  destruct (Codec.encode enc content) as [bs | e0]; intro H; inversion H; subst.
  apply He. reflexivity.
Qed.

(** The validators raise what the codec raises, or [TypeError] and
    [AttributeError] on a malformed graph: never [ValidationError], never
    an error of the operating system. *)
Lemma collect_types_errors (items : list pyval) (e : Exn) :
  collect_types items = Err e -> e = TypeError \/ e = AttributeError.
Proof.
  induction items as [| item items IH]; cbn [collect_types]; [discriminate |].
  unfold bind_result.
  destruct (type_of_item item) as [v | e0] eqn:Et.
  - destruct (collect_types items) as [ts | e1]; [discriminate |].
    intro H. inversion H; subst. apply IH. reflexivity.
  - intro H. inversion H; subst. unfold type_of_item in Et.
    destruct item as [| b | z | s | l | d];
      try (inversion Et; right; reflexivity).
    destruct (dict_get d (u "@type")) as [t |]; [| discriminate].
    destruct t; inversion Et; left; reflexivity.
Qed.

Lemma validate_schema_exceptions (schema : dict pyval) (config : BuildConfig) (e : Exn) :
  validate_schema schema config = Err e -> e = TypeError \/ e = AttributeError.
Proof.
  unfold validate_schema, bind_result. cbv zeta.
  destruct (iterate _) as [items | e0] eqn:Ei.
  - destruct (collect_types items) as [found | e1] eqn:Ec; [discriminate |].
    intro H. inversion H; subst. eapply collect_types_errors. exact Ec.
  - intro H. inversion H; subst.
    destruct (dict_get schema (u "@graph")) as [g |]; [| discriminate].
    destruct g; inversion Ei; left; reflexivity.
Qed.

Lemma validate_astro_nve content config :
  result_no_validation_error (validate_astro content config).
Proof.
  intros e. unfold validate_astro, bind_result.
  pose proof (encode_nve (encoding config) content) as He.
  destruct (Codec.encode (encoding config) content); [discriminate |].
  intro H. inversion H; subst. apply He. reflexivity.
Qed.

Lemma validate_css_nve content config :
  result_no_validation_error (validate_css content config).
Proof.
  intros e. unfold validate_css, bind_result.
  pose proof (encode_nve (encoding config) content) as He.
  destruct (Codec.encode (encoding config) content); [discriminate |].
  intro H. inversion H; subst. apply He. reflexivity.
Qed.

Lemma validate_schema_nve schema config :
  result_no_validation_error (validate_schema schema config).
Proof.
  intros e H.
  destruct (validate_schema_exceptions schema config e H); subst; reflexivity.
Qed.

Lemma encode_not_os_error (enc s : pystr) (e : Exn) :
  Codec.encode enc s = Err e -> is_os_error e = false.
Proof.
  unfold Codec.encode, Codec.encode_with.
  destruct (Codec.lookup enc) as [c |].
  - destruct (Codec.encode_body c s); intro H; inversion H; reflexivity.
  - intro H; inversion H; reflexivity.
Qed.

Lemma validate_astro_not_os content config e :
  validate_astro content config = Err e -> is_os_error e = false.
Proof.
  unfold validate_astro, bind_result.
  pose proof (encode_not_os_error (encoding config) content) as He.
  destruct (Codec.encode (encoding config) content); [discriminate |].
  intro H. inversion H; subst. apply He. reflexivity.
Qed.

Lemma validate_css_not_os content config e :
  validate_css content config = Err e -> is_os_error e = false.
Proof.
  unfold validate_css, bind_result.
  pose proof (encode_not_os_error (encoding config) content) as He.
  destruct (Codec.encode (encoding config) content); [discriminate |].
  intro H. inversion H; subst. apply He. reflexivity.
Qed.

Lemma validate_schema_not_os schema config e :
  validate_schema schema config = Err e -> is_os_error e = false.
Proof.
  intro H.
  destruct (validate_schema_exceptions schema config e H); subst; reflexivity.
Qed.

Lemma nve_mkdir_parents (d : Path) : no_validation_error (mkdir_parents d).
Proof.
  intros w e w' H. unfold mkdir_parents in H.
  destruct (w_fault w d); inversion H. apply os_exn_not_validation.
Qed.

Lemma nve_open_write (p : Path) : no_validation_error (open_write p).
Proof.
  intros w e w' H. unfold open_write in H.
  destruct (w_fault w p); inversion H. apply os_exn_not_validation.
Qed.

Lemma nve_write_text p content enc : no_validation_error (write_text p content enc).
Proof.
  unfold write_text.
  apply nve_bind; [apply nve_open_write | intros _].
  intros w. apply nve_bind; [apply nve_lift, encode_nve | intros bs].
  apply nve_bind; [| intros _; apply nve_ret].
  intros w0 e w' H. unfold write_bytes in H.
  destruct (w_write_fault w0 p); inversion H. reflexivity.
Qed.

Lemma nve_safe_write p content enc : no_validation_error (safe_write p content enc).
Proof.
  assert (T : no_validation_error (safe_write_try p content enc)).
  { unfold safe_write_try.
    apply nve_bind; [apply nve_mkdir_parents | intros _].
    apply nve_bind; [apply nve_write_text | intros n].
    apply nve_bind; [apply nve_emit | intros _]. apply nve_ret. }
  intros w e w' H. unfold safe_write in H.
  destruct (safe_write_try p content enc w) as [[n | e0] w0] eqn:E;
    [discriminate |].
  apply T in E.
  destruct (is_permission_error e0);
    [| destruct (is_os_error e0)];
    cbv [bind log_error emit raise] in H; inversion H; subst; exact E.
Qed.

Lemma nve_write_artifacts output_dir config A S C R m :
  no_validation_error (write_artifacts output_dir config A S C R m).
Proof.
  unfold write_artifacts. cbv zeta.
  repeat first
    [ apply nve_ret
    | apply nve_bind;
      [ first [ apply nve_emit | apply nve_safe_write
              | apply nve_lift, compute_checksum_nve ]
      | intro ] ].
Qed.






(** ** A full build that succeeds *)

Lemma build_package_full_ok output_dir config amb w m w' :
  build_package output_dir config amb false w = (Ok m, w') ->
  exists ra rs rc w1,
    validate_astro (generate_astro_content config) config = Ok ra
    /\ validate_schema (generate_schema config) config = Ok rs
    /\ validate_css generate_css config = Ok rc
    /\ passed ra && passed rs && passed rc = true
    /\ same_store w w1
    /\ write_artifacts output_dir config (generate_astro_content config)
         (generate_schema config) generate_css
         (generate_readme config (utc_now_readme amb))
         (validated_manifest config amb ra rs rc) w1 = (Ok m, w').
Proof.
  intro H.
  pose proof (build_package_outcome output_dir config amb false w) as O.
  rewrite H in O.
  inversion O as [ | | ra rs rc w1 Ea Es Ec Hall Hdry S
                   | ra rs rc w1 Ea Es Ec Hall Hdry S Hw ].
  - discriminate.
  - exists ra, rs, rc, w1.
    repeat split; try assumption; try apply S; symmetry; assumption.
Qed.

Lemma all_passed_true (a b c : bool) :
  a && b && c = true -> a = true /\ b = true /\ c = true.
Proof. destruct a, b, c; cbn; intuition congruence. Qed.

(** A failed report raises [ValidationError] and leaves the store. *)
Lemma failed_validation_raises
    (output_dir : Path) (config : BuildConfig) (amb : Ambient)
    (dry_run : bool) (w : World) (ra rs rc : Report) :
  validate_astro (generate_astro_content config) config = Ok ra ->
  validate_schema (generate_schema config) config = Ok rs ->
  validate_css generate_css config = Ok rc ->
  passed ra && passed rs && passed rc = false ->
  exists w',
    build_package output_dir config amb dry_run w
    = (Err (ValidationError (u "Content validation failed")), w')
    /\ same_store w w'.
Proof.
  intros Ea Es Ec Hfail.
  pose proof (build_package_outcome output_dir config amb dry_run w) as O.
  destruct (build_package output_dir config amb dry_run w) as [r w'].
  exists w'.
  inversion O as [ e w0 Hraise S
                 | ra' rs' rc' w0 Ea' Es' Ec' Hall S
                 | ra' rs' rc' w0 Ea' Es' Ec' Hall Hdry S
                 | ra' rs' rc' w1 Ea' Es' Ec' Hall Hdry S Hw ]; subst.
  - exfalso.
    destruct Hraise as [E | [(x & _ & E) | (x & y & _ & _ & E)]]; congruence.
  - split; [reflexivity | exact S].
  - exfalso. congruence.
  - exfalso. congruence.
Qed.

(** An exception of a validator is the exception of the build. *)
Lemma validator_exception_raised
    (output_dir : Path) (config : BuildConfig) (amb : Ambient)
    (dry_run : bool) (w : World) (e : Exn) :
  validator_raises config e ->
  exists w',
    build_package output_dir config amb dry_run w = (Err e, w')
    /\ same_store w w'.
Proof.
  intro Hr.
  pose proof (build_package_outcome output_dir config amb dry_run w) as O.
  destruct (build_package output_dir config amb dry_run w) as [r w'].
  exists w'.
  inversion O as [ e0 w0 Hraise S
                 | ra' rs' rc' w0 Ea' Es' Ec' Hall S
                 | ra' rs' rc' w0 Ea' Es' Ec' Hall Hdry S
                 | ra' rs' rc' w1 Ea' Es' Ec' Hall Hdry S Hw ]; subst.
  - split; [| exact S]. f_equal. f_equal.
    destruct Hr as [E | [(x & Ex & E) | (x & y & Ex & Ey & E)]];
      destruct Hraise as [E' | [(x' & Ex' & E') | (x' & y' & Ex' & Ey' & E')]];
      congruence.
  - exfalso.
    destruct Hr as [E | [(x & _ & E) | (x & y & _ & _ & E)]]; congruence.
  - exfalso.
    destruct Hr as [E | [(x & _ & E) | (x & y & _ & _ & E)]]; congruence.
  - exfalso.
    destruct Hr as [E | [(x & _ & E) | (x & y & _ & _ & E)]]; congruence.
Qed.

Lemma validator_raises_no_validation_error (config : BuildConfig) (e : Exn) :
  validator_raises config e -> is_validation_error e = false.
Proof.
  intros [E | [(x & _ & E) | (x & y & _ & _ & E)]].
  - exact (validate_astro_nve _ _ _ E).
  - exact (validate_schema_nve _ _ _ E).
  - exact (validate_css_nve _ _ _ E).
Qed.

(** ** C1: the validation gate *)

(** C1, amended.  If the three validators return their reports and one of
    them has [passed = False], [build_package] raises [ValidationError]
    in a world whose files and directories are those it started from: no
    artifact and no manifest file is written.  If a validator itself
    raises, which it does when the configured encoding cannot encode the
    content or the graph is malformed, [build_package] raises that
    exception, which is never [ValidationError], whatever the checks
    before it said, and again writes nothing.  Conversely,
    [build_package] changes the file store only when all three reports
    have [passed = True] (and the run is not a preview). *)
Theorem build_package_validation_gate
    (output_dir : Path) (config : BuildConfig) (amb : Ambient)
    (dry_run : bool) (w : World) :
  (forall ra rs rc,
      validate_astro (generate_astro_content config) config = Ok ra ->
      validate_schema (generate_schema config) config = Ok rs ->
      validate_css generate_css config = Ok rc ->
      passed ra && passed rs && passed rc = false ->
      exists w',
        build_package output_dir config amb dry_run w
        = (Err (ValidationError (u "Content validation failed")), w')
        /\ same_store w w')
  /\ (forall e,
        validator_raises config e ->
        is_validation_error e = false
        /\ exists w',
            build_package output_dir config amb dry_run w = (Err e, w')
            /\ same_store w w')
  /\ (forall r w',
        build_package output_dir config amb dry_run w = (r, w') ->
        ~ same_store w w' ->
        dry_run = false
        /\ exists ra rs rc,
            validate_astro (generate_astro_content config) config = Ok ra
            /\ validate_schema (generate_schema config) config = Ok rs
            /\ validate_css generate_css config = Ok rc
            /\ passed ra = true /\ passed rs = true /\ passed rc = true).
Proof.
  split; [| split].
  - intros ra rs rc. apply failed_validation_raises.
  - intros e Hr. split.
    + exact (validator_raises_no_validation_error config e Hr).
    + exact (validator_exception_raised output_dir config amb dry_run w e Hr).
  - intros r w' H Hchanged.
    pose proof (build_package_outcome output_dir config amb dry_run w) as O.
    rewrite H in O.
    inversion O as [ e w0 Hraise S
                   | ra rs rc w0 Ea Es Ec Hall S
                   | ra rs rc w0 Ea Es Ec Hall Hdry S
                   | ra rs rc w1 Ea Es Ec Hall Hdry S Hw ]; subst;
      try (exfalso; apply Hchanged; assumption).
    split; [reflexivity |].
    exists ra, rs, rc. apply all_passed_true in Hall. tauto.
Qed.

Lemma build_package_validation_gate_witness :
  exists w',
    build_package [u "out"] strict_css_config sample_ambient false empty_world
    = (Err (ValidationError (u "Content validation failed")), w')
    /\ same_store empty_world w'.
Proof.
  eapply (proj1 (build_package_validation_gate
                   [u "out"] strict_css_config sample_ambient false empty_world)).
  - vm_compute. reflexivity.
  - vm_compute. reflexivity.
  - vm_compute. reflexivity.
  - reflexivity.
Defined.

(** C1 as stated fails: with a markup floor of 20000 bytes and the
    encoding [cp1252] the size check of the markup fails, yet
    [build_package] raises [UnicodeEncodeError], the exception of the
    stylesheet validator, and not [ValidationError]. *)
Lemma validation_gate_counterexample :
  exists ra w',
    validate_astro (generate_astro_content cp1252_oversized_config)
                   cp1252_oversized_config = Ok ra
    /\ passed ra = false
    /\ build_package [u "out"] cp1252_oversized_config sample_ambient false
                     empty_world
       = (Err UnicodeEncodeError, w').
Proof.
  assert (H : match validate_astro
                      (generate_astro_content cp1252_oversized_config)
                      cp1252_oversized_config,
                    build_package [u "out"] cp1252_oversized_config
                      sample_ambient false empty_world with
              | Ok ra, (Err UnicodeEncodeError, _) => passed ra = false
              | _, _ => False
              end) by (vm_compute; reflexivity).
  destruct (validate_astro (generate_astro_content cp1252_oversized_config)
                           cp1252_oversized_config) as [ra | e];
    [| contradiction].
  destruct (build_package [u "out"] cp1252_oversized_config sample_ambient
                          false empty_world) as [[m | e] w'];
    [contradiction |].
  destruct e; try contradiction.
  exists ra, w'. split; [reflexivity |]. split; [exact H | reflexivity].
Qed.

(** ** C3: preview mode *)

(** C3.  With [dry_run = True] and all three reports passed,
    [build_package] returns a manifest whose [artifacts] and [checksums]
    are empty, in a world whose files and directories are untouched; its
    [validation] map holds the three reports.  A full run with the same
    configuration gets the same verdict: it never raises
    [ValidationError], and when it returns, the [validation] map of its
    manifest is that of the preview. *)
Theorem build_package_dry_run
    (output_dir : Path) (config : BuildConfig) (amb : Ambient) (w : World)
    (ra rs rc : Report) :
  validate_astro (generate_astro_content config) config = Ok ra ->
  validate_schema (generate_schema config) config = Ok rs ->
  validate_css generate_css config = Ok rc ->
  passed ra && passed rs && passed rc = true ->
  exists m w',
    build_package output_dir config amb true w = (Ok m, w')
    /\ same_store w w'
    /\ artifacts m = [] /\ checksums m = []
    /\ validation m = [(u "astro", ra); (u "schema", rs); (u "css", rc)]
    /\ forall output_dir2 amb2 w2,
        match build_package output_dir2 config amb2 false w2 with
        | (Ok m2, _) => validation m2 = validation m
        | (Err e, _) => is_validation_error e = false
        end.
Proof.
  intros Ea Es Ec Hall.
  pose proof (build_package_outcome output_dir config amb true w) as O.
  destruct (build_package output_dir config amb true w) as [r w'].
  inversion O as [ e w0 Hraise S
                 | ra' rs' rc' w0 Ea' Es' Ec' Hall' S
                 | ra' rs' rc' w0 Ea' Es' Ec' Hall' Hdry S
                 | ra' rs' rc' w1 Ea' Es' Ec' Hall' Hdry S Hw ]; subst.
  - exfalso.
    destruct Hraise as [E | [(x & _ & E) | (x & y & _ & _ & E)]]; congruence.
  - exfalso. congruence.
  - assert (ra' = ra) by congruence. assert (rs' = rs) by congruence.
    assert (rc' = rc) by congruence. subst ra' rs' rc'.
    exists (validated_manifest config amb ra rs rc), w'.
    split; [reflexivity |]. split; [exact S |].
    split; [reflexivity |]. split; [reflexivity |]. split; [reflexivity |].
    intros output_dir2 amb2 w2.
    destruct (build_package output_dir2 config amb2 false w2)
      as [[m2 | e] w2'] eqn:H2.
    + apply build_package_full_ok in H2.
      destruct H2 as (ra2 & rs2 & rc2 & w3 & Ea2 & Es2 & Ec2 & _ & _ & Hw).
      apply write_artifacts_ok in Hw; [| reflexivity | reflexivity].
      destruct Hw as (? & ? & ? & ? & ? & ? & ? & ? & _ & _ & _ & _ & V & _).
      rewrite V. cbn [validation validated_manifest]. congruence.
    + pose proof (build_package_outcome output_dir2 config amb2 false w2) as O2.
      rewrite H2 in O2.
      inversion O2 as [ e0 w0 Hraise S2
                      | ra2 rs2 rc2 w0 Ea2 Es2 Ec2 Hall2 S2
                      |
                      | ra2 rs2 rc2 w1 Ea2 Es2 Ec2 Hall2 Hdry2 S2 Hw ]; subst.
      * exfalso.
        destruct Hraise as [E | [(x & _ & E) | (x & y & _ & _ & E)]];
          congruence.
      * exfalso. congruence.
      * exact (nve_write_artifacts _ _ _ _ _ _ _ _ _ _ Hw).
  - discriminate.
Qed.

Lemma build_package_dry_run_witness :
  exists ra rs rc m w',
    build_package [u "out"] default_config sample_ambient true empty_world = (Ok m, w')
    /\ same_store empty_world w'
    /\ artifacts m = [] /\ checksums m = []
    /\ validation m = [(u "astro", ra); (u "schema", rs); (u "css", rc)]
    /\ forall output_dir2 amb2 w2,
        match build_package output_dir2 default_config amb2 false w2 with
        | (Ok m2, _) => validation m2 = validation m
        | (Err e, _) => is_validation_error e = false
        end.
Proof.
  do 3 eexists.
  eapply (build_package_dry_run [u "out"] default_config sample_ambient empty_world).
  - vm_compute. reflexivity.
  - vm_compute. reflexivity.
  - vm_compute. reflexivity.
  - reflexivity.
Defined.

(** The build with the default configuration on an empty store returns. *)
Lemma default_build_returns :
  exists m w',
    build_package [u "out"] default_config sample_ambient false empty_world
    = (Ok m, w').
Proof.
  assert (H : match build_package [u "out"] default_config sample_ambient
                                  false empty_world with
              | (Ok _, _) => True
              | (Err _, _) => False
              end) by (vm_compute; exact I).
  destruct (build_package [u "out"] default_config sample_ambient false empty_world)
    as [[m | e] w']; [| contradiction].
  exists m, w'. reflexivity.
Qed.

(** ** C10: the shape of the manifest *)

(** C10.  The manifest of a full build that returns has exactly the keys
    [astro], [schema], [css], [readme] in [artifacts] and in [checksums]
    (so none for the manifest file) and exactly the keys [astro],
    [schema], [css] in [validation]. *)
Theorem build_package_manifest_keys
    (output_dir : Path) (config : BuildConfig) (amb : Ambient) (w : World)
    (m : BuildManifest) (w' : World) :
  build_package output_dir config amb false w = (Ok m, w') ->
  keys (artifacts m) = [u "astro"; u "schema"; u "css"; u "readme"]
  /\ keys (checksums m) = [u "astro"; u "schema"; u "css"; u "readme"]
  /\ keys (validation m) = [u "astro"; u "schema"; u "css"].
Proof.
  intro H. apply build_package_full_ok in H.
  destruct H as (ra & rs & rc & w1 & _ & _ & _ & _ & _ & Hw).
  apply write_artifacts_ok in Hw; [| reflexivity | reflexivity].
  destruct Hw as (? & ? & ? & ? & ? & ? & ? & ? & _ & _ & A & C & V & _).
  rewrite A, C, V. repeat split.
Qed.

Lemma build_package_manifest_keys_witness :
  exists m w',
    build_package [u "out"] default_config sample_ambient false empty_world
    = (Ok m, w')
    /\ keys (artifacts m) = [u "astro"; u "schema"; u "css"; u "readme"]
    /\ keys (checksums m) = [u "astro"; u "schema"; u "css"; u "readme"]
    /\ keys (validation m) = [u "astro"; u "schema"; u "css"].
Proof.
  destruct default_build_returns as (m & w' & E).
  exists m, w'. split; [exact E |].
  exact (build_package_manifest_keys
           [u "out"] default_config sample_ambient empty_world m w' E).
Defined.
(** ** The checksum encoding *)

Lemma lookup_utf8_literal : Codec.lookup (u "utf-8") = Some Codec.UTF8.
Proof. vm_compute. reflexivity. Qed.

Lemma encode_utf8_name (enc : pystr) (s : pystr) :
  Codec.lookup enc = Some Codec.UTF8 ->
  Codec.encode enc s = Codec.encode (u "utf-8") s.
Proof.
  intro H. unfold Codec.encode. rewrite H, lookup_utf8_literal. reflexivity.
Qed.

Lemma four_keys_lookup (va vs vc vr : pystr) :
  let d := [(u "astro", va); (u "schema", vs); (u "css", vc); (u "readme", vr)] in
  dict_get d (u "astro") = Some va /\ dict_get d (u "schema") = Some vs
  /\ dict_get d (u "css") = Some vc /\ dict_get d (u "readme") = Some vr.
Proof. vm_compute. repeat split. Qed.

(** ** C9: what the checksums are computed over *)

(** C9, amended.  In a full build that returns, for each of the four
    artifacts the checksum in the manifest is the SHA-256 digest of the
    UTF-8 encoding of the content, whatever [config.encoding] is, while
    the file holds the content, with the line ends of the platform, in
    [config.encoding].  The two byte strings are equal when the
    configured encoding is UTF-8 and the platform writes a line feed as
    it is; in general they are equal exactly when the two encodings give
    the same result. *)
Theorem checksums_hash_utf8_bytes
    (output_dir : Path) (config : BuildConfig) (amb : Ambient) (w : World)
    (m : BuildManifest) (w' : World) :
  build_package output_dir config amb false w = (Ok m, w') ->
  forall name path content,
    In (name, path, content) (artifact_table output_dir config amb) ->
    exists hashed written,
      Codec.encode (u "utf-8") content = Ok hashed
      /\ dict_get (checksums m) name = Some (Sha256.hexdigest hashed)
      /\ Codec.encode (encoding config)
           (to_os_newlines (w_linesep w) content) = Ok written
      /\ file_get (w_files w') path = Some written
      /\ (Codec.lookup (encoding config) = Some Codec.UTF8 ->
          w_linesep w = LF -> written = hashed)
      /\ (written = hashed <->
          Codec.encode (encoding config)
            (to_os_newlines (w_linesep w) content)
          = Codec.encode (u "utf-8") content).
Proof.
  intro H. apply build_package_full_ok in H.
  destruct H as (ra & rs & rc & w1 & _ & _ & _ & _ & S & Hw).
  apply write_artifacts_ok in Hw; [| reflexivity | reflexivity].
  destruct Hw as (ba & bs & bc & br & ha & hs & hc & hr
                  & (Ea & Es & Ec & Er) & (Ha & Hs & Hc & Hr)
                  & _ & C & _ & (Fa & Fs & Fc & Fr) & _).
  unfold default_checksum_encoding in Ha, Hs, Hc, Hr.
  destruct S as (_ & _ & _ & L & _). rewrite L in Ea, Es, Ec, Er.
  destruct (four_keys_lookup (Sha256.hexdigest ha) (Sha256.hexdigest hs)
                             (Sha256.hexdigest hc) (Sha256.hexdigest hr))
    as (Da & Ds & Dc & Dr).
  rewrite <- C in Da, Ds, Dc, Dr.
  assert (same : forall content written hashed,
             Codec.encode (encoding config)
               (to_os_newlines (w_linesep w) content) = Ok written ->
             Codec.encode (u "utf-8") content = Ok hashed ->
             (Codec.lookup (encoding config) = Some Codec.UTF8 ->
              w_linesep w = LF -> written = hashed)
             /\ (written = hashed <->
                 Codec.encode (encoding config)
                   (to_os_newlines (w_linesep w) content)
                 = Codec.encode (u "utf-8") content)).
  { intros content written hashed E1 E2. split.
    - intros Lk Lf. rewrite Lf, to_os_newlines_LF in E1.
      rewrite (encode_utf8_name _ _ Lk) in E1. congruence.
    - rewrite E1, E2. split; intro E; [subst; reflexivity | congruence]. }
  intros name path content Hin.
  unfold artifact_table in Hin. cbn [In] in Hin.
  destruct Hin as [E | [E | [E | [E | []]]]]; inversion E; subst; clear E.
  - exists ha, ba. repeat split; try assumption; apply (same _ _ _ Ea Ha).
  - exists hs, bs. repeat split; try assumption; apply (same _ _ _ Es Hs).
  - exists hc, bc. repeat split; try assumption; apply (same _ _ _ Ec Hc).
  - exists hr, br. repeat split; try assumption; apply (same _ _ _ Er Hr).
Qed.

Lemma checksums_hash_utf8_bytes_witness :
  exists m w' hashed,
    build_package [u "out"] default_config sample_ambient false empty_world
    = (Ok m, w')
    /\ Codec.encode (u "utf-8") generate_css = Ok hashed
    /\ dict_get (checksums m) (u "css") = Some (Sha256.hexdigest hashed)
    /\ file_get (w_files w') (css_path [u "out"]) = Some hashed.
Proof.
  destruct default_build_returns as (m & w' & E).
  destruct (checksums_hash_utf8_bytes
              [u "out"] default_config sample_ambient empty_world m w' E
              (u "css") (css_path [u "out"]) generate_css)
    as (hashed & written & Hh & Hd & Hw & Hf & Heq & _).
  { cbn [artifact_table In]. right; right; left. reflexivity. }
  exists m, w', hashed.
  rewrite (Heq lookup_utf8_literal eq_refl) in Hf.
  exact (conj E (conj Hh (conj Hd Hf))).
Defined.

(** C9 as stated fails in its [only when]: [raw_unicode_escape] is not
    UTF-8, the build returns with it, and it writes the structured data,
    which is ASCII, with the very bytes UTF-8 gives it, so that the
    recorded checksum is that of the file. *)
Lemma checksum_utf8_only_counterexample :
  Codec.lookup (encoding raw_escape_config) = Some Codec.RawUnicodeEscape
  /\ exists m w' hashed,
      build_package [u "out"] raw_escape_config sample_ambient false
                    empty_world = (Ok m, w')
      /\ Codec.encode (u "utf-8") (schema_text raw_escape_config) = Ok hashed
      /\ file_get (w_files w') (schema_path [u "out"]) = Some hashed
      /\ checksum_matches_file m w' (u "schema") (schema_path [u "out"])
         = true.
Proof.
  split; [vm_compute; reflexivity |].
  assert (H : match build_package [u "out"] raw_escape_config sample_ambient
                                  false empty_world,
                    Codec.encode (u "utf-8") (schema_text raw_escape_config) with
              | (Ok m, w'), Ok hashed =>
                match file_get (w_files w') (schema_path [u "out"]) with
                | Some written =>
                  written = hashed
                  /\ checksum_matches_file m w' (u "schema")
                       (schema_path [u "out"]) = true
                | None => False
                end
              | _, _ => False
              end) by (vm_compute; split; reflexivity).
  destruct (build_package [u "out"] raw_escape_config sample_ambient false
                          empty_world) as [[m | e] w']; [| contradiction].
  destruct (Codec.encode (u "utf-8") (schema_text raw_escape_config))
    as [hashed | e]; [| contradiction].
  destruct (file_get (w_files w') (schema_path [u "out"])) as [written |] eqn:F;
    [| contradiction].
  destruct H as (Hb & Hm).
  exists m, w', hashed. split; [reflexivity |]. split; [reflexivity |].
  split; [| exact Hm].
  rewrite <- Hb. exact F.
Qed.

(** ** C2: the checksum against the bytes of the file *)

(** C2 (the code departs from it).  With [encoding = "utf-16"] the build
    returns, and the checksum recorded for the stylesheet is not the
    SHA-256 digest of the bytes of the stylesheet file: the file holds
    UTF-16, the checksum is taken over UTF-8. *)
Theorem checksum_differs_from_file_utf16 :
  exists m w',
    build_package [u "out"] utf16_config sample_ambient false empty_world
    = (Ok m, w')
    /\ checksum_matches_file m w' (u "css") (css_path [u "out"]) = false.
Proof.
  assert (H : match build_package [u "out"] utf16_config sample_ambient
                                  false empty_world with
              | (Ok m, w') =>
                checksum_matches_file m w' (u "css") (css_path [u "out"]) = false
              | (Err _, _) => False
              end) by (vm_compute; reflexivity).
  destruct (build_package [u "out"] utf16_config sample_ambient false empty_world)
    as [[m | e] w']; [| contradiction].
  exists m, w'. split; [reflexivity | exact H].
Qed.

(** ** C4: the structured-data validator *)

Lemma fold_check_type_passed (found : list pyval) (req : list pystr) (r : Report) :
  passed (fold_left (check_type found) req r)
  = passed r && forallb (fun t => in_types t found) req.
Proof.
  revert r. induction req as [| t req IH]; intro r; cbn [fold_left forallb].
  - rewrite andb_true_r. reflexivity.
  - rewrite IH. unfold check_type.
    destruct (in_types t found); cbn [passed add_pass add_fail andb].
    + reflexivity.
    + rewrite andb_false_r. reflexivity.
Qed.

Lemma is_str_iff (name : pystr) (v : pyval) :
  is_str name v = true <-> v = PStr name.
Proof.
  destruct v; cbn [is_str]; try (split; [discriminate | intro H; inversion H]).
  rewrite str_eqb_eq. split; intro H; [subst | inversion H]; reflexivity.
Qed.

Lemma in_types_iff (name : pystr) (found : list pyval) :
  in_types name found = true <-> In (PStr name) found.
Proof.
  unfold in_types. rewrite existsb_exists. split.
  - intros (v & Hin & Hs). apply is_str_iff in Hs. subst v. exact Hin.
  - intro Hin. exists (PStr name). split; [exact Hin | apply is_str_iff; reflexivity].
Qed.

Lemma type_of_item_str (item v : pyval) (name : pystr) :
  type_of_item item = Ok v ->
  (v = PStr name <-> entry_type item = Some (PStr name)).
Proof.
  unfold type_of_item, entry_type.
  destruct item as [| b | z | s | l | d]; try discriminate.
  destruct (dict_get d (u "@type")) as [t |].
  - destruct t; try discriminate; intro H; inversion H; subst;
      split; intro E; inversion E; reflexivity.
  - intro H. inversion H; subst. split; discriminate.
Qed.

Lemma collect_types_In (items found : list pyval) (name : pystr) :
  collect_types items = Ok found ->
  (In (PStr name) found <->
   exists item, In item items /\ entry_type item = Some (PStr name)).
Proof.
  revert found. induction items as [| item items IH]; intros found H.
  - cbn in H. inversion H; subst. cbn. split; [tauto | intros (x & [] & _)].
  - cbn [collect_types] in H. unfold bind_result in H.
    destruct (type_of_item item) as [v |] eqn:Et; [| discriminate].
    destruct (collect_types items) as [ts |] eqn:Ec; [| discriminate].
    inversion H; subst found. specialize (IH ts eq_refl).
    pose proof (type_of_item_str item v name Et) as Hv.
    cbn [In]. split.
    + intros [E | Hin].
      * exists item. split; [left; reflexivity | apply Hv; exact E].
      * apply IH in Hin. destruct Hin as (x & Hx & Tx).
        exists x. split; [right; exact Hx | exact Tx].
    + intros (x & [E | Hx] & Tx).
      * subst x. left. apply Hv. exact Tx.
      * right. apply IH. exists x. split; assumption.
Qed.

(** The items the validator visits are the entries of the graph whenever
    it gets through them without an exception. *)
Lemma visited_items_are_entries (schema : dict pyval) (items found : list pyval) :
  iterate (match dict_get schema (u "@graph") with
           | Some g => g
           | None => PList []
           end) = Ok items ->
  collect_types items = Ok found ->
  items = graph_entries schema.
Proof.
  unfold graph_entries.
  destruct (dict_get schema (u "@graph")) as [g |]; cbn [iterate].
  - destruct g as [| b | z | s | l | d]; cbn [iterate]; try discriminate.
    + intros H1 H2. inversion H1; subst items.
      destruct s as [| c s]; [reflexivity | cbn in H2; discriminate].
    + intros H1 _. inversion H1. reflexivity.
    + intros H1 H2. inversion H1; subst items.
      destruct d as [| kv d]; [reflexivity | cbn in H2; discriminate].
  - intros H1 _. inversion H1. reflexivity.
Qed.

Lemma context_ok_iff (schema : dict pyval) :
  context_ok schema = true
  <-> dict_get schema (u "@context") = Some (PStr (u "https://schema.org")).
Proof.
  unfold context_ok.
  destruct (dict_get schema (u "@context")) as [v |].
  - destruct v; try (split; [discriminate | intro H; inversion H]).
    rewrite str_eqb_eq. split; intro H; [subst | inversion H]; reflexivity.
  - split; discriminate.
Qed.

Lemma validate_schema_passed (schema : dict pyval) (config : BuildConfig) (r : Report) :
  validate_schema schema config = Ok r ->
  (passed r = true <->
   dict_get schema (u "@context") = Some (PStr (u "https://schema.org"))
   /\ forall name, In name (required_schema_types config) -> has_type schema name).
Proof.
  unfold validate_schema. cbv zeta. unfold bind_result.
  destruct (iterate _) as [items |] eqn:Ei; [| discriminate].
  destruct (collect_types items) as [found |] eqn:Ec; [| discriminate].
  intro H. inversion H; subst r; clear H.
  pose proof (visited_items_are_entries schema items found Ei Ec) as Hitems.
  rewrite fold_check_type_passed.
  rewrite andb_true_iff, forallb_forall.
  assert (Hctx : passed (if context_ok schema
                         then add_pass new_report (u "PASS: Valid @context")
                         else add_fail new_report (u "FAIL: Invalid @context"))
                 = context_ok schema)
    by (destruct (context_ok schema); reflexivity).
  rewrite Hctx, context_ok_iff.
  assert (Hty : forall name, in_types name found = true <-> has_type schema name).
  { intro name. rewrite in_types_iff, (collect_types_In items found name Ec).
    unfold has_type. rewrite Hitems. reflexivity. }
  split; intros (Hc & Hall); (split; [exact Hc |]);
    intros name Hin; apply Hty; apply Hall; exact Hin.
Qed.

(** C4, amended.  When [validate_schema] returns a report, which it does
    not when the graph cannot be iterated or holds an entry that is no
    dictionary, the report has
    [passed = True] exactly when [@context] is the string
    [https://schema.org] and every required type name is the [@type] of
    some top-level entry of [@graph]; so two schemas with the same
    [@context] and the same set of entries, in whatever order and with
    whatever repetitions, get the same verdict. *)
Theorem validate_schema_passed_iff
    (schema : dict pyval) (config : BuildConfig) (r : Report) :
  validate_schema schema config = Ok r ->
  (passed r = true <->
   dict_get schema (u "@context") = Some (PStr (u "https://schema.org"))
   /\ forall name, In name (required_schema_types config) -> has_type schema name)
  /\ (forall schema2 r2,
        validate_schema schema2 config = Ok r2 ->
        dict_get schema2 (u "@context") = dict_get schema (u "@context") ->
        (forall item, In item (graph_entries schema2)
                      <-> In item (graph_entries schema)) ->
        passed r2 = passed r).
Proof.
  intro H. pose proof (validate_schema_passed schema config r H) as P.
  split; [exact P |].
  intros schema2 r2 H2 Hctx Hset.
  pose proof (validate_schema_passed schema2 config r2 H2) as P2.
  assert (Hsame : forall name, has_type schema2 name <-> has_type schema name).
  { intro name. unfold has_type.
    split; intros (item & Hin & Ht); exists item; (split; [apply Hset; exact Hin | exact Ht]). }
  rewrite Hctx in P2.
  assert (E : passed r2 = true <-> passed r = true).
  { rewrite P, P2. split; intros (Hc & Hall); (split; [exact Hc |]);
      intros name Hin; apply Hsame; apply Hall; exact Hin. }
  destruct (passed r), (passed r2); try reflexivity.
  - apply E. reflexivity.
  - symmetry. apply E. reflexivity.
Qed.

Lemma validate_schema_passed_iff_witness :
  exists r,
    validate_schema (generate_schema default_config) default_config = Ok r
    /\ (passed r = true <->
        dict_get (generate_schema default_config) (u "@context")
        = Some (PStr (u "https://schema.org"))
        /\ forall name, In name (required_schema_types default_config) ->
                        has_type (generate_schema default_config) name).
Proof.
  eexists. split.
  - vm_compute. reflexivity.
  - eapply (proj1 (validate_schema_passed_iff (generate_schema default_config)
                     default_config _ _)).
    Unshelve. vm_compute. reflexivity.
Defined.

(** C4 as stated fails in its [if]: the context is right and every
    required type is the type of an entry of the graph, yet the validator
    returns no report at all, because the last entry is a string. *)
Lemma validate_schema_counterexample :
  dict_get junk_entry_schema (u "@context")
  = Some (PStr (u "https://schema.org"))
  /\ (forall name,
        In name (required_schema_types default_config) ->
        has_type junk_entry_schema name)
  /\ validate_schema junk_entry_schema default_config = Err AttributeError.
Proof.
  split; [vm_compute; reflexivity |].
  split; [| vm_compute; reflexivity].
  intros name Hin. unfold has_type.
  exists (PDict [(u "@type", PStr name)]).
  split; [| cbn [entry_type]; vm_compute; reflexivity ].
  cbn [required_schema_types default_config In] in Hin.
  destruct Hin as [<- | [<- | [<- | []]]]; vm_compute; tauto.
Qed.

(** The validator returns a report for every schema whose graph is a list
    of dictionaries with a string, or nothing, for [@type]. *)
Lemma validate_schema_returns (schema : dict pyval) (config : BuildConfig) :
  (exists l, dict_get schema (u "@graph") = Some (PList l)
             /\ forall item, In item l ->
                  exists d, item = PDict d
                            /\ (dict_get d (u "@type") = None
                                \/ exists s, dict_get d (u "@type") = Some (PStr s))) ->
  exists r, validate_schema schema config = Ok r.
Proof.
  intros (l & Hg & Hl). unfold validate_schema. cbv zeta. rewrite Hg.
  cbn [iterate bind_result].
  assert (Hc : exists found, collect_types l = Ok found).
  { clear Hg. induction l as [| item l IH].
    - exists []. reflexivity.
    - destruct (Hl item (or_introl eq_refl)) as (d & -> & Ht).
      destruct IH as (found & Hf); [intros x Hx; apply Hl; right; exact Hx |].
      cbn [collect_types type_of_item]. rewrite Hf.
      destruct Ht as [-> | (s & ->)]; cbn [bind_result]; eexists; reflexivity. }
  destruct Hc as (found & ->). cbn [bind_result]. eexists. reflexivity.
Qed.

(** ** C5: the identifier of the page node *)

(** C5.  The first node of the generated [@graph] has, for [@id] and for
    [url], the domain, a slash and the page slug; with the domain
    [https://example.com] and the slug [audit] that is
    [https://example.com/audit]. *)
Theorem generate_schema_first_node_id :
  (forall config : BuildConfig,
      exists node rest,
        dict_get (generate_schema config) (u "@graph")
        = Some (PList (PDict node :: rest))
        /\ dict_get node (u "@id")
           = Some (PStr (domain config ++ u "/" ++ page_slug config))
        /\ dict_get node (u "url")
           = Some (PStr (domain config ++ u "/" ++ page_slug config)))
  /\ (exists node rest,
        dict_get (generate_schema example_config) (u "@graph")
        = Some (PList (PDict node :: rest))
        /\ dict_get node (u "@id") = Some (PStr (u "https://example.com/audit"))
        /\ dict_get node (u "url") = Some (PStr (u "https://example.com/audit"))).
Proof.
  split.
  - intro config. unfold generate_schema. cbv zeta.
    do 2 eexists. split; [| split].
    + cbn [dict_get].
      change (str_eqb (u "@context") (u "@graph")) with false.
      change (str_eqb (u "@graph") (u "@graph")) with true.
      cbv iota. reflexivity.
    + cbn [dict_get].
      change (str_eqb (u "@type") (u "@id")) with false.
      change (str_eqb (u "@id") (u "@id")) with true.
      cbv iota. reflexivity.
    + cbn [dict_get].
      change (str_eqb (u "@type") (u "url")) with false.
      change (str_eqb (u "@id") (u "url")) with false.
      change (str_eqb (u "url") (u "url")) with true.
      cbv iota. reflexivity.
  - do 2 eexists. split; [| split].
    + vm_compute. reflexivity.
    + vm_compute. reflexivity.
    + vm_compute. reflexivity.
Qed.

(** ** A report that passed implies the size floor *)





(** ** The validators return on what the generators give *)

Lemma generated_types_found (config : BuildConfig) :
  collect_types (graph_entries (generate_schema config))
  = Ok (map PStr generated_types).
Proof. vm_compute. reflexivity. Qed.

Lemma generated_graph (config : BuildConfig) :
  dict_get (generate_schema config) (u "@graph")
  = Some (PList (graph_entries (generate_schema config))).
Proof. vm_compute. reflexivity. Qed.

Lemma generated_context (config : BuildConfig) :
  dict_get (generate_schema config) (u "@context")
  = Some (PStr (u "https://schema.org")).
Proof. vm_compute. reflexivity. Qed.

Lemma generated_schema_returns (config : BuildConfig) :
  exists r, validate_schema (generate_schema config) config = Ok r.
Proof.
  unfold validate_schema, bind_result. cbv zeta.
  rewrite generated_graph. cbn [iterate].
  rewrite generated_types_found. eexists. reflexivity.
Qed.




(** ** C7: the size floors *)




(** ** C8: what the generators read of the configuration *)

Lemma node_id_page (config : BuildConfig) :
  node_id (generate_schema config) 0
  = Some (PStr (domain config ++ u "/" ++ page_slug config)).
Proof.
  unfold node_id, generate_schema. cbv zeta. cbn [dict_get].
  change (str_eqb (u "@context") (u "@graph")) with false.
  change (str_eqb (u "@graph") (u "@graph")) with true.
  cbv iota. cbn [nth_error dict_get].
  change (str_eqb (u "@type") (u "@id")) with false.
  change (str_eqb (u "@id") (u "@id")) with true.
  cbv iota. reflexivity.
Qed.

Lemma node_id_service (config : BuildConfig) :
  node_id (generate_schema config) 1
  = Some (PStr (domain config ++ u "/#dcs-audit-service")).
Proof.
  unfold node_id, generate_schema. cbv zeta. cbn [dict_get].
  change (str_eqb (u "@context") (u "@graph")) with false.
  change (str_eqb (u "@graph") (u "@graph")) with true.
  cbv iota. cbn [nth_error dict_get].
  change (str_eqb (u "@type") (u "@id")) with false.
  change (str_eqb (u "@id") (u "@id")) with true.
  cbv iota. reflexivity.
Qed.

(** C8.  The markup does not depend on [domain] or [page_slug], nor does
    the README; the structured data does: two configurations that differ
    in one of the two fields have different structured data. *)
Theorem generate_astro_content_ignores_domain_slug
    (config : BuildConfig) (d s : pystr) :
  generate_astro_content (with_domain_slug config d s)
  = generate_astro_content config
  /\ (forall now,
        generate_readme (with_domain_slug config d s) now
        = generate_readme config now)
  /\ (generate_schema (with_domain_slug config d s) = generate_schema config
      <-> d = domain config /\ s = page_slug config).
Proof.
  split; [reflexivity |].
  split.
  { intro now. unfold generate_readme.
    cbn [version promptcore_ver with_domain_slug]. reflexivity. }
  split.
  - intro H.
    pose proof (f_equal (fun x => node_id x 1) H) as H1.
    pose proof (f_equal (fun x => node_id x 0) H) as H0.
    cbv beta in H0, H1.
    rewrite !node_id_service in H1. rewrite !node_id_page in H0.
    cbn [domain page_slug with_domain_slug] in H0, H1.
    injection H1 as H1. apply app_inv_tail in H1. subst d.
    injection H0 as H0. apply app_inv_head in H0.
    injection H0 as H0.
    split; [reflexivity | exact H0].
  - intros (-> & ->). destruct config; reflexivity.
Qed.

(** ** C6: exit codes *)

(** With the configuration of [main] the validators pass, so [main]
    returns 0 or 2. *)
Lemma default_reports_pass :
  exists ra rs rc,
    validate_astro (generate_astro_content default_config) default_config = Ok ra
    /\ validate_schema (generate_schema default_config) default_config = Ok rs
    /\ validate_css generate_css default_config = Ok rc
    /\ passed ra && passed rs && passed rc = true.
Proof.
  assert (H : match validate_astro (generate_astro_content default_config)
                                   default_config,
                    validate_schema (generate_schema default_config)
                                    default_config,
                    validate_css generate_css default_config with
              | Ok ra, Ok rs, Ok rc => passed ra && passed rs && passed rc = true
              | _, _, _ => False
              end) by (vm_compute; reflexivity).
  destruct (validate_astro _ _) as [ra |]; [| contradiction].
  destruct (validate_schema _ _) as [rs |]; [| contradiction].
  destruct (validate_css _ _) as [rc |]; [| contradiction].
  exists ra, rs, rc. repeat split. exact H.
Qed.



Section ExitCodes.

Variable zip_encode : Z -> list (Path * bytes) -> bytes.



(** The closing log lines of the [try] body, after the three steps. *)
Lemma main_try_steps args config amb w0 :
  match backup_step args amb w0 with
  | (Err e, wb) => main_try zip_encode args config amb w0 = (Err e, wb)
  | (Ok _, wb) =>
    match build_package (a_output args) config amb (a_dry_run args) wb with
    | (Err e, wv) => main_try zip_encode args config amb w0 = (Err e, wv)
    | (Ok m, wv) =>
      match zip_step zip_encode args config wv with
      | (Err e, wz) => main_try zip_encode args config amb w0 = (Err e, wz)
      | (Ok _, wz) =>
        exists wt, same_store wz wt
                   /\ main_try zip_encode args config amb w0 = (Ok 0%Z, wt)
      end
    end
  end.
Proof.
  destruct (backup_step args amb w0) as [[[] | e] wb] eqn:Eb.
  2:{ unfold main_try. apply bind_fail. exact Eb. }
  destruct (build_package (a_output args) config amb (a_dry_run args) wb)
    as [[m | e] wv] eqn:Ev.
  2:{ unfold main_try. rewrite (bind_step _ _ _ _ _ Eb).
      apply bind_fail. exact Ev. }
  destruct (zip_step zip_encode args config wv) as [[[] | e] wz] eqn:Ez.
  2:{ unfold main_try.
      rewrite (bind_step _ _ _ _ _ Eb), (bind_step _ _ _ _ _ Ev).
      apply bind_fail. exact Ez. }
  unfold main_try.
  rewrite (bind_step _ _ _ _ _ Eb), (bind_step _ _ _ _ _ Ev),
          (bind_step _ _ _ _ _ Ez).
  cbv zeta. eexists. split; [| reflexivity].
  cbv [bind log_info emit ret]. repeat split.
Qed.

Lemma main_with_after_setup config args amb w :
  setup_logging (a_log_file args) w = (Ok tt, w) ->
  exists w0,
    same_store w w0
    /\ main_with zip_encode config args amb w =
       match main_try zip_encode args config amb w0 with
       | (Ok code, w') => (Ok code, w')
       | (Err e, w') =>
         if is_validation_error e then
           (log_error (u "Validation failed: ") (Some e) ;; ret 1%Z)%world w'
         else
           (log_error (u "Build failed: ") (Some e) ;; ret 2%Z)%world w'
       end.
Proof.
  intro Hs. unfold main_with. rewrite (bind_step _ _ _ _ _ Hs). cbv zeta.
  eexists. split; [| reflexivity]. repeat split.
Qed.







End ExitCodes.




(** ** Checks of the embedding against known values *)

(** The test vector of FIPS 180-4 for the message [abc]. *)
Example sha256_abc :
  Sha256.hexdigest (map byte_of (u "abc"))
  = u "ba7816bf8f01cfea414140de5dae2223b00361a396177a9cb410ff61f20015ad".
Proof. vm_compute. reflexivity. Qed.

Example sha256_empty :
  Sha256.hexdigest []
  = u "e3b0c44298fc1c149afbf4c8996fb92427ae41e4649b934ca495991b7852b855".
Proof. vm_compute. reflexivity. Qed.

(** The digests of the two templates, as [sha256sum] gives them for the
    text of the literals in the script. *)
Example astro_template_digest :
  compute_checksum (generate_astro_content default_config) (u "utf-8")
  = Ok (u "275e7a389845bcb25ba4b9a451d741c47f0079683dd4fce10c833e0efc88ca78").
Proof. vm_compute. reflexivity. Qed.

Example css_template_digest :
  compute_checksum generate_css (u "utf-8")
  = Ok (u "8b4b26322a242ce33377c5eda1a7afafa5e9de6c3ade14e9bc90a87c3e0b52ab").
Proof. vm_compute. reflexivity. Qed.

Example thousands_separator :
  format_thousands 19301 = u "19,301" /\ format_thousands 999 = u "999"
  /\ format_thousands 1234567 = u "1,234,567".
Proof. vm_compute. repeat split. Qed.

Example json_dumps_nested :
  json_dumps (PDict [(u "a", PList [PInt 1; PStr (u "x"); PDict []; PList []]);
                     (u "b", PNone)]) false
  = requote 126 (u "{
  ~a~: [
    1,
    ~x~,
    {},
    []
  ],
  ~b~: null
}").
Proof. vm_compute. reflexivity. Qed.

(** Windows-1252 can encode the markup and cannot encode the stylesheet:
    the validator of the stylesheet then raises the codec's exception, and
    so does [build_package], whatever the other reports say. *)
Example cp1252_stylesheet_raises :
  validate_css generate_css (with_encoding default_config (u "cp1252"))
  = Err UnicodeEncodeError
  /\ fst (build_package [u "out"]
            (with_encoding oversized_floor_config (u "cp1252"))
            sample_ambient false empty_world)
     = Err UnicodeEncodeError.
Proof. split; vm_compute; reflexivity. Qed.

(** ** Paths and the file store as a list *)

Lemma is_prefix_app (s r : Path) : is_prefix s (s ++ r) = true.
Proof.
  induction s as [| a s IH]; [reflexivity |].
  cbn [is_prefix app]. rewrite str_eqb_refl. exact IH.
Qed.

Lemma is_prefix_split (s p : Path) :
  is_prefix s p = true -> exists r, p = s ++ r.
Proof.
  revert p. induction s as [| a s IH]; intros p H.
  - exists p. reflexivity.
  - destruct p as [| b p]; [discriminate |].
    cbn [is_prefix] in H. apply andb_true_iff in H. destruct H as (Hab & Hp).
    apply str_eqb_eq in Hab. subst b.
    destruct (IH p Hp) as (r & ->). exists r. reflexivity.
Qed.

Lemma is_prefix_trans (a b p : Path) :
  is_prefix a b = true -> is_prefix b p = true -> is_prefix a p = true.
Proof.
  intros Hab Hbp.
  apply is_prefix_split in Hab. destruct Hab as (r1 & ->).
  apply is_prefix_split in Hbp. destruct Hbp as (r2 & ->).
  rewrite <- app_assoc. apply is_prefix_app.
Qed.

Lemma rebase_app (src dst rest : Path) : rebase src dst (src ++ rest) = dst ++ rest.
Proof.
  unfold rebase. f_equal.
  rewrite skipn_app, skipn_all, Nat.sub_diag. reflexivity.
Qed.

Lemma file_get_In (fs : list (Path * bytes)) (p : Path) (bs : bytes) :
  file_get fs p = Some bs -> In (p, bs) fs.
Proof.
  induction fs as [| [q old] fs IH]; cbn [file_get]; [discriminate |].
  destruct (path_eqb q p) eqn:E.
  - apply path_eqb_eq in E. subst q. intro H. inversion H. left. reflexivity.
  - intro H. right. apply IH. exact H.
Qed.

Lemma In_file_get (fs : list (Path * bytes)) (p : Path) (bs : bytes) :
  NoDup (map fst fs) -> In (p, bs) fs -> file_get fs p = Some bs.
Proof.
  induction fs as [| [q old] fs IH]; intros ND Hin; [destruct Hin |].
  cbn [map fst] in ND. inversion ND as [| x l Hnot ND']; subst.
  cbn [file_get]. destruct Hin as [E | Hin].
  - inversion E; subst. rewrite (proj2 (path_eqb_eq p p) eq_refl). reflexivity.
  - destruct (path_eqb q p) eqn:E.
    + apply path_eqb_eq in E. subst q. exfalso. apply Hnot.
      apply (in_map fst) in Hin. exact Hin.
    + apply IH; assumption.
Qed.

Lemma fold_put_other (l fs : list (Path * bytes)) (q : Path) :
  (forall f, In f l -> fst f <> q) ->
  file_get (fold_left (fun fs f => file_put fs (fst f) (snd f)) l fs) q
  = file_get fs q.
Proof.
  revert fs. induction l as [| f l IH]; intros fs H; cbn [fold_left].
  - reflexivity.
  - rewrite IH by (intros g Hg; apply H; right; exact Hg).
    apply file_get_put_other. intro E. apply (H f (or_introl eq_refl)).
    symmetry. exact E.
Qed.

Lemma fold_put_in (l fs : list (Path * bytes)) (k : Path) (v : bytes) :
  NoDup (map fst l) -> In (k, v) l ->
  file_get (fold_left (fun fs f => file_put fs (fst f) (snd f)) l fs) k
  = Some v.
Proof.
  revert fs. induction l as [| f l IH]; intros fs ND Hin; [destruct Hin |].
  cbn [map] in ND. inversion ND as [| x t Hnot ND']; subst.
  cbn [fold_left]. destruct Hin as [-> | Hin].
  - cbn [fst snd]. rewrite fold_put_other.
    + apply file_get_put_same.
    + intros g Hg E. apply Hnot. cbn [fst]. rewrite <- E.
      apply in_map. exact Hg.
  - apply IH; assumption.
Qed.

Lemma NoDup_keys_filter (P : Path * bytes -> bool) (fs : list (Path * bytes)) :
  NoDup (map fst fs) -> NoDup (map fst (filter P fs)).
Proof.
  induction fs as [| f fs IH]; intro ND; [constructor |].
  cbn [map] in ND. inversion ND as [| x t Hnot ND']; subst.
  cbn [filter]. destruct (P f); [| apply IH; exact ND'].
  cbn [map]. constructor; [| apply IH; exact ND'].
  intro Hin. apply Hnot. apply in_map_iff in Hin.
  destruct Hin as (g & Eg & Hg). apply filter_In in Hg.
  rewrite <- Eg. apply in_map. apply Hg.
Qed.

Lemma no_file_below (w : World) (d p : Path) (bs : bytes) :
  path_exists w d = false -> In (p, bs) (w_files w) -> is_prefix d p = false.
Proof.
  unfold path_exists. intros H Hin. apply orb_false_iff in H.
  destruct H as (Hf & _).
  destruct (is_prefix d p) eqn:E; [| reflexivity].
  assert (existsb (fun f => is_prefix d (fst f)) (w_files w) = true).
  { apply existsb_exists. exists (p, bs). split; [exact Hin | exact E]. }
  congruence.
Qed.


(* ================================================================== *)
(** * Further properties of the script *)

(** ** Substring tests *)

Lemma startswith_app_l (a b s : pystr) :
  startswith (a ++ b) s = true -> startswith a s = true.
Proof.
  revert s. induction a as [| x a IH]; intros s H; [reflexivity |].
  destruct s as [| y s]; cbn in *; [discriminate |].
  apply andb_true_iff in H. destruct H as (Hx & Hr).
  rewrite Hx. cbn. apply IH. exact Hr.
Qed.

Lemma contains_app_l (a b s : pystr) :
  contains (a ++ b) s = true -> contains a s = true.
Proof.
  induction s as [| y s IH]; cbn [contains]; intro H;
    apply orb_true_iff in H; apply orb_true_iff.
  - destruct H as [H | H]; [left; eapply startswith_app_l; exact H | discriminate].
  - destruct H as [H | H];
      [left; eapply startswith_app_l; exact H | right; apply IH; exact H].
Qed.

Lemma startswith_lower (a s : pystr) :
  startswith a s = true -> startswith (lower a) (lower s) = true.
Proof.
  revert s. induction a as [| x a IH]; intros s H; [reflexivity |].
  destruct s as [| y s]; cbn in *; [discriminate |].
  apply andb_true_iff in H. destruct H as (Hx & Hr).
  apply N.eqb_eq in Hx. subst y. rewrite N.eqb_refl. cbn.
  apply IH. exact Hr.
Qed.

Lemma contains_lower (a s : pystr) :
  contains a s = true -> contains (lower a) (lower s) = true.
Proof.
  induction s as [| y s IH]; cbn [contains lower map]; intro H;
    apply orb_true_iff in H; apply orb_true_iff.
  - destruct H as [H | H]; [| discriminate].
    left. apply (startswith_lower a []). exact H.
  - destruct H as [H | H].
    + left. apply (startswith_lower a (y :: s)). exact H.
    + right. apply IH. exact H.
Qed.

(** The second test of the accessibility check adds nothing to the first. *)
Lemma has_form_labels_lower (content : pystr) :
  has_form_labels content = contains (u "label for=") (lower content).
Proof.
  unfold has_form_labels.
  destruct (contains (u "label for=") (lower content)) eqn:E1; [reflexivity |].
  destruct (contains (u "label for=" ++ dq) content) eqn:E2; [| reflexivity].
  apply contains_app_l in E2. apply contains_lower in E2.
  change (lower (u "label for=")) with (u "label for=") in E2. congruence.
Qed.

(** ** The loops over required substrings *)

Lemma fold_check_contains_passed (content : pystr) (elems : list pystr) (r : Report) :
  passed (fold_left (check_contains content) elems r)
  = passed r && forallb (fun e => contains e content) elems.
Proof.
  revert r. induction elems as [| e elems IH]; intro r; cbn [fold_left forallb].
  - rewrite andb_true_r. reflexivity.
  - rewrite IH. unfold check_contains.
    destruct (contains e content); cbn [passed add_pass add_fail andb].
    + reflexivity.
    + rewrite andb_false_r. reflexivity.
Qed.

Lemma fold_check_contains_length (content : pystr) (elems : list pystr) (r : Report) :
  length (checks (fold_left (check_contains content) elems r))
  = (length (checks r) + length elems)%nat.
Proof.
  revert r. induction elems as [| e elems IH]; intro r; cbn [fold_left length].
  - rewrite Nat.add_0_r. reflexivity.
  - rewrite IH. unfold check_contains.
    destruct (contains e content); cbn [checks add_pass add_fail];
      rewrite length_app; cbn [length]; lia.
Qed.

Lemma fold_check_type_length (found : list pyval) (req : list pystr) (r : Report) :
  length (checks (fold_left (check_type found) req r))
  = (length (checks r) + length req)%nat.
Proof.
  revert r. induction req as [| t req IH]; intro r; cbn [fold_left length].
  - rewrite Nat.add_0_r. reflexivity.
  - rewrite IH. unfold check_type.
    destruct (in_types t found); cbn [checks add_pass add_fail];
      rewrite length_app; cbn [length]; lia.
Qed.

Lemma check_size_report (size minimum : Z) :
  passed (check_size new_report size minimum) = (minimum <=? size)%Z
  /\ length (checks (check_size new_report size minimum)) = 1%nat.
Proof.
  unfold check_size. rewrite (Z.leb_antisym size minimum).
  destruct (size <? minimum)%Z; split; reflexivity.
Qed.

(** ** X1, X2: what the markup and stylesheet validators decide *)

(** X1.  [validate_astro] raises what encoding the content raises;
    otherwise it returns a report of seven checks that passes exactly when
    the encoded content has at least [min_astro_size] bytes, each of the
    five required substrings occurs in the content, and the lower-cased
    content contains [label for=] (the second, case-sensitive test of the
    script never decides). *)
Theorem validate_astro_outcome (content : pystr) (config : BuildConfig) :
  match Codec.encode (encoding config) content with
  | Err e => validate_astro content config = Err e
  | Ok bs =>
    exists r,
      validate_astro content config = Ok r
      /\ length (checks r) = 7%nat
      /\ passed r
         = (min_astro_size config <=? Z.of_nat (length bs))%Z
           && forallb (fun e => contains e content) astro_required
           && contains (u "label for=") (lower content)
  end.
Proof.
  unfold validate_astro, bind_result.
  destruct (Codec.encode (encoding config) content) as [bs | e]; [| reflexivity].
  cbv zeta. eexists. split; [reflexivity |].
  destruct (check_size_report (Z.of_nat (length bs)) (min_astro_size config))
    as (Hp & Hl).
  rewrite has_form_labels_lower.
  destruct (contains (u "label for=") (lower content));
    cbn [passed checks add_pass add_fail];
    rewrite ?length_app, fold_check_contains_length, ?fold_check_contains_passed,
            Hl, ?Hp; cbn [length astro_required];
    split; try reflexivity.
  - rewrite andb_true_r. reflexivity.
  - rewrite andb_false_r. reflexivity.
Qed.

(** X2.  [validate_css] raises what encoding the content raises; otherwise
    it returns a report of five checks that passes exactly when the
    encoded content has at least [min_css_size] bytes and each of the four
    required selectors occurs in the content. *)
Theorem validate_css_outcome (content : pystr) (config : BuildConfig) :
  match Codec.encode (encoding config) content with
  | Err e => validate_css content config = Err e
  | Ok bs =>
    exists r,
      validate_css content config = Ok r
      /\ length (checks r) = 5%nat
      /\ passed r
         = (min_css_size config <=? Z.of_nat (length bs))%Z
           && forallb (fun e => contains e content) css_required
  end.
Proof.
  unfold validate_css, bind_result.
  destruct (Codec.encode (encoding config) content) as [bs | e]; [| reflexivity].
  cbv zeta. eexists. split; [reflexivity |].
  destruct (check_size_report (Z.of_nat (length bs)) (min_css_size config))
    as (Hp & Hl).
  rewrite fold_check_contains_length, fold_check_contains_passed, Hl, Hp.
  split; reflexivity.
Qed.

(** ** X3: the lines of a report *)

Lemma pass_line_not_fail (c : pystr) : is_pass_line c = true -> is_fail_line c = false.
Proof.
  unfold is_pass_line, is_fail_line.
  destruct c as [| x c]; [discriminate |].
  change (u "PASS: ") with (80 :: u "ASS: ")%N.
  change (u "FAIL: ") with (70 :: u "AIL: ")%N.
  cbn [startswith]. intro H. apply andb_true_iff in H. destruct H as (H & _).
  apply N.eqb_eq in H. subst x. reflexivity.
Qed.

Lemma lines_agree_new : lines_agree new_report.
Proof. split; reflexivity. Qed.

Lemma lines_agree_pass (r : Report) (msg : pystr) :
  lines_agree r -> is_pass_line msg = true -> lines_agree (add_pass r msg).
Proof.
  intros (Hall & Hp) Hm. split; cbn [checks passed add_pass].
  - rewrite forallb_app, Hall. cbn [forallb andb]. rewrite Hm. reflexivity.
  - rewrite existsb_app. cbn [existsb]. rewrite (pass_line_not_fail msg Hm).
    rewrite !orb_false_r. exact Hp.
Qed.

Lemma lines_agree_fail (r : Report) (msg : pystr) :
  lines_agree r -> is_fail_line msg = true -> lines_agree (add_fail r msg).
Proof.
  intros (Hall & Hp) Hm. split; cbn [checks passed add_fail].
  - rewrite forallb_app, Hall. cbn [forallb andb]. rewrite Hm, orb_true_r.
    reflexivity.
  - rewrite existsb_app. cbn [existsb]. rewrite Hm, orb_true_r. reflexivity.
Qed.

Lemma lines_agree_check_size (r : Report) (size minimum : Z) :
  lines_agree r -> lines_agree (check_size r size minimum).
Proof.
  intro H. unfold check_size. destruct (size <? minimum)%Z.
  - apply lines_agree_fail; [exact H | reflexivity].
  - apply lines_agree_pass; [exact H | reflexivity].
Qed.

Lemma lines_agree_check_contains (content : pystr) (elems : list pystr) (r : Report) :
  lines_agree r -> lines_agree (fold_left (check_contains content) elems r).
Proof.
  revert r. induction elems as [| e elems IH]; intros r H; cbn [fold_left].
  - exact H.
  - apply IH. unfold check_contains. destruct (contains e content).
    + apply lines_agree_pass; [exact H | reflexivity].
    + apply lines_agree_fail; [exact H | reflexivity].
Qed.

Lemma lines_agree_check_type (found : list pyval) (req : list pystr) (r : Report) :
  lines_agree r -> lines_agree (fold_left (check_type found) req r).
Proof.
  revert r. induction req as [| t req IH]; intros r H; cbn [fold_left].
  - exact H.
  - apply IH. unfold check_type. destruct (in_types t found).
    + apply lines_agree_pass; [exact H | reflexivity].
    + apply lines_agree_fail; [exact H | reflexivity].
Qed.

(** X3.  In every report a validator returns, each check line starts with
    [PASS: ] or [FAIL: ], and [passed] is true exactly when no line starts
    with [FAIL: ]. *)
Theorem report_lines_agree (config : BuildConfig) (r : Report) :
  (forall content, validate_astro content config = Ok r -> lines_agree r)
  /\ (forall schema, validate_schema schema config = Ok r -> lines_agree r)
  /\ (forall content, validate_css content config = Ok r -> lines_agree r).
Proof.
  split; [| split].
  - intros content. unfold validate_astro, bind_result.
    destruct (Codec.encode (encoding config) content) as [bs | e]; [| discriminate].
    cbv zeta. intro H. injection H as <-.
    assert (L : lines_agree
                  (fold_left (check_contains content) astro_required
                     (check_size new_report (Z.of_nat (length bs))
                        (min_astro_size config)))).
    { apply lines_agree_check_contains, lines_agree_check_size, lines_agree_new. }
    destruct (has_form_labels content).
    + apply lines_agree_pass; [exact L | reflexivity].
    + apply lines_agree_fail; [exact L | reflexivity].
  - intros schema. unfold validate_schema, bind_result. cbv zeta.
    destruct (iterate _) as [items |]; [| discriminate].
    destruct (collect_types items) as [found |]; [| discriminate].
    intro H. injection H as <-.
    apply lines_agree_check_type. destruct (context_ok schema).
    + apply lines_agree_pass; [apply lines_agree_new | reflexivity].
    + apply lines_agree_fail; [apply lines_agree_new | reflexivity].
  - intros content. unfold validate_css, bind_result.
    destruct (Codec.encode (encoding config) content) as [bs | e]; [| discriminate].
    cbv zeta. intro H. injection H as <-.
    exact (lines_agree_check_contains content css_required _
             (lines_agree_check_size _ _ _ lines_agree_new)).
Qed.

Lemma report_lines_agree_witness :
  exists r, validate_css generate_css default_config = Ok r /\ lines_agree r.
Proof.
  destruct default_reports_pass as (ra & rs & rc & _ & _ & Ec & _).
  exists rc. split; [exact Ec |].
  exact (proj2 (proj2 (report_lines_agree default_config rc)) generate_css Ec).
Defined.

(** ** X4: the structured-data validator on malformed input *)

Lemma collect_types_non_dict (items : list pyval) (item : pyval) :
  In item items -> (forall d, item <> PDict d) ->
  exists e, collect_types items = Err e.
Proof.
  intros Hin Hnd. induction items as [| x items IH]; [destruct Hin |].
  cbn [collect_types]. unfold bind_result.
  destruct (type_of_item x) as [v | e0] eqn:Et; [| eexists; reflexivity].
  destruct Hin as [-> | Hin].
  - destruct item; cbn in Et; try discriminate. exfalso. eapply Hnd. reflexivity.
  - destruct (IH Hin) as (e & ->). eexists. reflexivity.
Qed.

(** X4.  [validate_schema] raises nothing but [TypeError] and
    [AttributeError]; a report it returns has one check for [@context]
    and one for each required type; a schema without [@graph] is treated
    as one with an empty graph (no exception, and it passes only when
    [@context] is right and no type is required); a graph that is a list
    with an entry that is not a dictionary makes it raise. *)
Theorem validate_schema_edge_cases (schema : dict pyval) (config : BuildConfig) :
  (forall e, validate_schema schema config = Err e ->
             e = TypeError \/ e = AttributeError)
  /\ (forall r, validate_schema schema config = Ok r ->
                length (checks r) = S (length (required_schema_types config)))
  /\ (dict_get schema (u "@graph") = None ->
      exists r,
        validate_schema schema config = Ok r
        /\ passed r
           = context_ok schema
             && (length (required_schema_types config) =? 0)%nat)
  /\ (forall l item,
        dict_get schema (u "@graph") = Some (PList l) -> In item l ->
        (forall d, item <> PDict d) ->
        exists e, validate_schema schema config = Err e).
Proof.
  split; [exact (validate_schema_exceptions schema config) |].
  unfold validate_schema, bind_result. cbv zeta.
  split; [| split].
  - intro r. destruct (iterate _) as [items |]; [| discriminate].
    destruct (collect_types items) as [found |]; [| discriminate].
    intro H. injection H as <-. rewrite fold_check_type_length.
    destruct (context_ok schema); cbn [checks add_pass add_fail new_report app length];
      reflexivity.
  - intros ->. cbn [iterate collect_types]. eexists. split; [reflexivity |].
    rewrite fold_check_type_passed. f_equal.
    + destruct (context_ok schema); reflexivity.
    + destruct (required_schema_types config); reflexivity.
  - intros l item -> Hin Hnd. cbn [iterate].
    destruct (collect_types_non_dict l item Hin Hnd) as (e & ->).
    eexists. reflexivity.
Qed.

Lemma validate_schema_edge_cases_witness :
  exists r,
    validate_schema [(u "@context", PStr (u "https://schema.org"))] default_config
    = Ok r
    /\ passed r = false.
Proof.
  destruct (proj1 (proj2 (proj2 (validate_schema_edge_cases
                                   [(u "@context", PStr (u "https://schema.org"))]
                                   default_config))) eq_refl)
    as (r & Hr & Hp).
  exists r. split; [exact Hr |]. rewrite Hp. reflexivity.
Defined.

(** ** X5: the generated structured data against its validator *)

Lemma generated_has_type (config : BuildConfig) (name : pystr) :
  has_type (generate_schema config) name <-> In name generated_types.
Proof.
  unfold has_type.
  rewrite <- (collect_types_In _ _ name (generated_types_found config)).
  rewrite in_map_iff. split.
  - intros (x & E & Hin). inversion E; subst. exact Hin.
  - intro Hin. exists name. split; [reflexivity | exact Hin].
Qed.

(** X5.  For every configuration [validate_schema] returns a report on
    the output of [generate_schema], and the report passes exactly when
    every required type is one of [WebPage], [Service] and [FAQPage]:
    [domain] and [page_slug] have no part in the verdict. *)
Theorem generated_schema_validates (config : BuildConfig) :
  exists r,
    validate_schema (generate_schema config) config = Ok r
    /\ (passed r = true <->
        forall name, In name (required_schema_types config) ->
                     In name generated_types).
Proof.
  destruct (generated_schema_returns config) as (r & Hr). exists r. split; [exact Hr |].
  rewrite (validate_schema_passed _ _ _ Hr). split.
  - intros (_ & Hall) name Hin.
    apply (proj1 (generated_has_type config name)). apply Hall. exact Hin.
  - intro Hall. split; [apply generated_context |].
    intros name Hin.
    apply (proj2 (generated_has_type config name)). apply Hall. exact Hin.
Qed.

(** ** Computations that touch only some files *)

Lemma ot_of_quiet {A} (P : Path -> Prop) (m : M A) : quiet m -> only_touches P m.
Proof. intros Hq w q _. destruct (Hq w) as (F & _). rewrite F. reflexivity. Qed.

Lemma ot_bind {A B} (P : Path -> Prop) (m : M A) (k : A -> M B) :
  only_touches P m -> (forall a, only_touches P (k a)) ->
  only_touches P (bind m k).
Proof.
  intros Hm Hk w q Hq. unfold bind.
  specialize (Hm w q Hq). destruct (m w) as [[a | e] w1]; cbn [snd] in *.
  - rewrite (Hk a w1 q Hq). exact Hm.
  - exact Hm.
Qed.

Lemma ot_weaken {A} (P Q : Path -> Prop) (m : M A) :
  (forall q, P q -> Q q) -> only_touches P m -> only_touches Q m.
Proof. intros HPQ Hm w q Hq. apply Hm. intro HP. apply Hq, HPQ, HP. Qed.

Lemma ot_mkdir_parents (P : Path -> Prop) (d : Path) :
  only_touches P (mkdir_parents d).
Proof.
  intros w q _. unfold mkdir_parents. destruct (w_fault w d); reflexivity.
Qed.

Lemma ot_open_write (p : Path) : only_touches (eq p) (open_write p).
Proof.
  intros w q Hq. unfold open_write. destruct (w_fault w p); [reflexivity |].
  cbn [snd set_files w_files]. apply file_get_put_other. congruence.
Qed.

Lemma ot_put_bytes (p : Path) (bs : bytes) : only_touches (eq p) (put_bytes p bs).
Proof.
  intros w q Hq. cbn [put_bytes snd set_files w_files].
  apply file_get_put_other. congruence.
Qed.

Lemma ot_write_bytes (p : Path) (bs : bytes) : only_touches (eq p) (write_bytes p bs).
Proof.
  intros w q Hq. unfold write_bytes.
  destruct (w_write_fault w p); cbn [snd set_files w_files];
    apply file_get_put_other; congruence.
Qed.

Lemma ot_safe_write_try (p : Path) (content enc : pystr) :
  only_touches (eq p) (safe_write_try p content enc).
Proof.
  unfold safe_write_try, write_text.
  apply ot_bind; [apply ot_mkdir_parents | intros _].
  apply ot_bind; [| intro n;
                    apply ot_bind; [apply ot_of_quiet, quiet_emit | intros _];
                    apply ot_of_quiet, quiet_ret].
  apply ot_bind; [apply ot_open_write | intros _].
  intros w0. apply ot_bind; [apply ot_of_quiet, quiet_lift | intro bs].
  apply ot_bind; [apply ot_write_bytes | intros _].
  apply ot_of_quiet, quiet_ret.
Qed.

(** [safe_write] changes no file but its target, whatever its outcome. *)
Lemma ot_safe_write (p : Path) (content enc : pystr) :
  only_touches (eq p) (safe_write p content enc).
Proof.
  intros w q Hq. unfold safe_write.
  pose proof (ot_safe_write_try p content enc w q Hq) as T.
  destruct (safe_write_try p content enc w) as [[n | e] w0]; cbn [snd] in *;
    [exact T |].
  destruct (is_permission_error e); [exact T |].
  destruct (is_os_error e); exact T.
Qed.

Lemma ot_write_artifacts output_dir config A S C R m :
  only_touches (fun q => In q (build_paths output_dir config))
               (write_artifacts output_dir config A S C R m).
Proof.
  unfold write_artifacts. cbv zeta.
  fold (astro_path output_dir config) (schema_path output_dir)
       (css_path output_dir) (readme_path output_dir)
       (manifest_path output_dir).
  repeat first
    [ apply ot_of_quiet, quiet_ret
    | apply ot_bind;
      [ first
          [ apply ot_of_quiet, quiet_emit
          | apply ot_of_quiet, quiet_lift
          | eapply ot_weaken; [| apply ot_safe_write];
            intros q <-; unfold build_paths; cbn [In]; tauto ]
      | intro ] ].
Qed.

(** ** X6: when [build_package] raises [ValidationError] *)


(** X6.  [build_package] raises [ValidationError] exactly when the three
    validators returned their reports and one of them did not pass; the
    message is always [Content validation failed]. *)
Theorem build_package_validation_error_iff
    (output_dir : Path) (config : BuildConfig) (amb : Ambient)
    (dry_run : bool) (w : World) (msg : pystr) :
  (exists w',
      build_package output_dir config amb dry_run w
      = (Err (ValidationError msg), w'))
  <-> (msg = u "Content validation failed"
       /\ exists ra rs rc,
           validate_astro (generate_astro_content config) config = Ok ra
           /\ validate_schema (generate_schema config) config = Ok rs
           /\ validate_css generate_css config = Ok rc
           /\ passed ra && passed rs && passed rc = false).
Proof.
  split.
  - intros (w' & H).
    pose proof (build_package_outcome output_dir config amb dry_run w) as O.
    rewrite H in O.
    inversion O as [ e w0 Hraise S
                   | ra rs rc w0 Ea Es Ec Hall S
                   |
                   | ra rs rc w1 Ea Es Ec Hall Hdry S Hw ]; subst.
    + exfalso.
      destruct Hraise as [E | [(x & _ & E) | (x & y & _ & _ & E)]].
      * pose proof (validate_astro_nve _ _ _ E). discriminate.
      * pose proof (validate_schema_nve _ _ _ E). discriminate.
      * pose proof (validate_css_nve _ _ _ E). discriminate.
    + split; [reflexivity |]. exists ra, rs, rc. repeat split; assumption.
    + pose proof (nve_write_artifacts _ _ _ _ _ _ _ _ _ _ Hw). discriminate.
  - intros (-> & ra & rs & rc & Ea & Es & Ec & Hfail).
    destruct (failed_validation_raises output_dir config amb dry_run w
                ra rs rc Ea Es Ec Hfail) as (w' & H & _).
    exists w'. exact H.
Qed.

(** ** X7, X8: [safe_write] *)





(** What the body of [safe_write] does once the directories are made and
    the file is open. *)
Lemma safe_write_try_opened (path : Path) (content enc : pystr) (w : World) :
  w_fault w (path_parent path) = None ->
  w_fault w path = None ->
  safe_write_try path content enc w =
  match Codec.encode enc (to_os_newlines (w_linesep w) content) with
  | Err e => (Err e, opened path w)
  | Ok bs =>
    match w_write_fault w path with
    | Some k =>
      (Err OSError,
       set_files (opened path w)
                 (file_put (w_files (opened path w)) path (firstn k bs)))
    | None =>
      (log_info (u "Wrote " ++ path_name path ++ u " ("
                 ++ format_thousands (N.of_nat (length bs)) ++ u " bytes)") ;;
       ret (length bs))%world
        (set_files (opened path w)
                   (file_put (w_files (opened path w)) path bs))
    end
  end.
Proof.
  intros Fd Ff.
  unfold safe_write_try, write_text, mkdir_parents, open_write, write_bytes.
  unfold bind at 1. rewrite Fd.
  unfold bind at 1. unfold bind at 1. cbn [w_fault set_dirs]. rewrite Ff.
  cbv beta. cbn [w_linesep set_files set_dirs].
  unfold bind at 1.
  destruct (Codec.encode enc (to_os_newlines (w_linesep w) content))
    as [bs | e]; cbn [lift]; [| reflexivity].
  unfold ret at 1. unfold bind at 1.
  cbn [w_write_fault set_files set_dirs].
  destruct (w_write_fault w path); reflexivity.
Qed.



(** X8.  When the operating system refuses the directory, or refuses the
    file, [safe_write] raises that very exception, changes no file, and
    logs one ERROR record that names the path and carries the exception:
    the error is reported and passed on, never swallowed. *)
Theorem safe_write_refused
    (path : Path) (content enc : pystr) (w : World) (f : OsFault) :
  w_fault w (path_parent path) = Some f
  \/ (w_fault w (path_parent path) = None /\ w_fault w path = Some f) ->
  exists w',
    safe_write path content enc w = (Err (os_exn f), w')
    /\ w_files w' = w_files w
    /\ logged w w' [refusal_record path f].
Proof.
  intros [Fd | (Fd & Ff)];
    unfold safe_write, safe_write_try, write_text, mkdir_parents, open_write;
    unfold bind at 1; rewrite Fd.
  - destruct f; cbn [os_exn is_permission_error is_os_error];
      cbv [bind raise log_error emit]; eexists; repeat split.
  - unfold bind at 1. unfold bind at 1. cbn [w_fault set_dirs]. rewrite Ff.
    destruct f; cbn [os_exn is_permission_error is_os_error];
      cbv [bind raise log_error emit set_dirs w_files w_dirs w_fault w_log];
      eexists; repeat split.
Qed.

Lemma safe_write_refused_witness :
  exists w',
    safe_write [u "out"; u "x.css"] (u "a") (u "utf-8")
               (refusing [u "out"; u "x.css"] Denied)
    = (Err PermissionError, w')
    /\ w_files w' = []
    /\ logged (refusing [u "out"; u "x.css"] Denied) w'
              [refusal_record [u "out"; u "x.css"] Denied].
Proof.
  apply (safe_write_refused [u "out"; u "x.css"] (u "a") (u "utf-8")
           (refusing [u "out"; u "x.css"] Denied) Denied).
  right. split; vm_compute; reflexivity.
Defined.

(** X21.  When the directory is made and the file is opened but the
    operating system cuts the write short after [k] bytes, [safe_write]
    raises [OSError] and logs one ERROR record that names the path; the
    file, emptied when it was opened, holds the first [k] bytes of the
    encoded content, and no other file has changed. *)
Theorem safe_write_cut_short
    (path : Path) (content enc : pystr) (w : World) (bs : bytes) (k : nat) :
  w_fault w (path_parent path) = None ->
  w_fault w path = None ->
  w_write_fault w path = Some k ->
  Codec.encode enc (to_os_newlines (w_linesep w) content) = Ok bs ->
  exists w',
    safe_write path content enc w = (Err OSError, w')
    /\ file_get (w_files w') path = Some (firstn k bs)
    /\ (forall q, q <> path ->
          file_get (w_files w') q = file_get (w_files w) q)
    /\ logged w w' [refusal_record path OtherFault].
Proof.
  intros Fd Ff Fw He.
  unfold safe_write. rewrite (safe_write_try_opened _ _ _ _ Fd Ff), He, Fw.
  cbn [is_permission_error is_os_error].
  unfold bind, raise, log_error, emit, opened, set_files, set_dirs.
  eexists. split; [reflexivity |].
  cbn [w_files w_log]. split; [apply file_get_put_same |].
  split; [| reflexivity].
  intros q Hq. rewrite !file_get_put_other by exact Hq. reflexivity.
Qed.

Lemma safe_write_cut_short_witness :
  exists w',
    safe_write [u "out"; u "x.css"] (u "hello") (u "utf-8")
               (cutting [u "out"; u "x.css"] 2)
    = (Err OSError, w')
    /\ file_get (w_files w') [u "out"; u "x.css"]
       = Some (map byte_of (u "he")).
Proof.
  destruct (safe_write_cut_short [u "out"; u "x.css"] (u "hello") (u "utf-8")
              (cutting [u "out"; u "x.css"] 2) (map byte_of (u "hello")) 2
              eq_refl eq_refl eq_refl eq_refl)
    as (w' & H & F & _).
  exists w'. split; [exact H | exact F].
Defined.

(** ** X9, X10: which files [build_package] touches *)

Lemma has_separator_app (s t : pystr) :
  has_separator (s ++ t) = has_separator s || has_separator t.
Proof. unfold has_separator. apply existsb_app. Qed.

(** A name without a separator followed by an extension is a plain name. *)
Lemma plain_suffix (s t : pystr) :
  has_separator s = false -> has_separator t = false ->
  (3 <= length t)%nat ->
  plain_name (s ++ t) = true.
Proof.
  intros Hs Ht Hl. unfold plain_name. rewrite has_separator_app, Hs, Ht.
  cbn [orb negb andb].
  assert (L : (3 <= length (s ++ t))%nat) by (rewrite length_app; lia).
  rewrite long_is_part by lia. cbn [andb].
  destruct (str_eqb (s ++ t) [46; 46]%N) eqn:E; [| reflexivity].
  apply str_eqb_eq in E. rewrite E in L. cbn in L. lia.
Qed.

Lemma plain_name_no_separator (n : pystr) :
  plain_name n = true -> has_separator n = false.
Proof.
  unfold plain_name. intro H. apply andb_true_iff in H. destruct H as (H & _).
  apply andb_true_iff in H. destruct H as (H & _).
  apply negb_true_iff. exact H.
Qed.

(** With a slug that holds no separator the name of the page file is one
    plain part. *)
Lemma page_name_plain (config : BuildConfig) :
  has_separator (page_slug config) = false ->
  plain_name (page_slug config ++ u ".astro") = true.
Proof.
  intro H. apply plain_suffix; [exact H | reflexivity | vm_compute; lia].
Qed.

Lemma astro_path_parts (output_dir : Path) (config : BuildConfig) :
  has_separator (page_slug config) = false ->
  astro_path output_dir config
  = output_dir ++ [u "src"; u "pages"; page_slug config ++ u ".astro"].
Proof.
  intro H. unfold astro_path.
  rewrite (path_div_plain _ _ (page_name_plain config H)).
  rewrite !path_div_plain by (vm_compute; reflexivity).
  rewrite <- !app_assoc. reflexivity.
Qed.

(** With such a slug the five files lie below the output directory, each
    under plain parts. *)
Lemma build_path_below output_dir config q :
  has_separator (page_slug config) = false ->
  In q (build_paths output_dir config) ->
  exists rest,
    rest <> [] /\ forallb plain_name rest = true /\ q = output_dir ++ rest.
Proof.
  intros H Hq. unfold build_paths in Hq.
  rewrite (astro_path_parts _ _ H), schema_path_parts, css_path_parts,
          readme_path_parts, manifest_path_parts in Hq.
  cbn [In] in Hq.
  destruct Hq as [<- | [<- | [<- | [<- | [<- | []]]]]];
    (eexists; split; [| split; [| reflexivity]]); try discriminate;
    try (vm_compute; reflexivity).
  cbn [forallb]. rewrite (page_name_plain config H). vm_compute. reflexivity.
Qed.

Lemma build_package_frame output_dir config amb dry_run :
  only_touches (fun q => In q (build_paths output_dir config))
               (build_package output_dir config amb dry_run).
Proof.
  intros w q Hq.
  pose proof (build_package_outcome output_dir config amb dry_run w) as O.
  destruct (build_package output_dir config amb dry_run w) as [r w'].
  cbn [snd].
  inversion O as [ e w0 Hraise S
                 | ra rs rc w0 Ea Es Ec Hall S
                 | ra rs rc w0 Ea Es Ec Hall Hdry S
                 | ra rs rc w1 Ea Es Ec Hall Hdry S Hw ]; subst;
    try (destruct S as (F & _); rewrite F; reflexivity).
  pose proof (ot_write_artifacts output_dir config
                (generate_astro_content config) (generate_schema config)
                generate_css (generate_readme config (utc_now_readme amb))
                (validated_manifest config amb ra rs rc) w1 q Hq) as T.
  first [rewrite Hw in T | rewrite <- Hw in T]. cbn [snd] in T. rewrite T.
  destruct S as (F & _). rewrite F. reflexivity.
Qed.

(** X9.  Whatever its outcome, [build_package] changes no file other than
    the five it names: the page, at the path pathlib makes of
    [src/pages/<slug>.astro] under the output directory, the three other
    artifacts and the manifest.  When the page slug holds no separator
    (slash, backslash or colon) the five lie below the output directory,
    each under plain parts.  Not so in general: pathlib drops what is on
    the left of an absolute name, so that with the slug [/srv/page] the
    page file is [/srv/page.astro] (as POSIX paths are read), whatever
    the output directory. *)
Theorem build_package_touches_only_its_files
    (output_dir : Path) (config : BuildConfig) (amb : Ambient)
    (dry_run : bool) :
  only_touches (fun q => In q (build_paths output_dir config))
               (build_package output_dir config amb dry_run)
  /\ (has_separator (page_slug config) = false ->
      forall q,
        In q (build_paths output_dir config) ->
        exists rest,
          rest <> [] /\ forallb plain_name rest = true
          /\ q = output_dir ++ rest)
  /\ astro_path output_dir
       (with_domain_slug config (domain config) (u "/srv/page"))
     = [u "/"; u "srv"; u "page.astro"].
Proof.
  split; [apply build_package_frame |].
  split; [intros H q; apply build_path_below; exact H |].
  unfold astro_path, path_div at 1. cbn [page_slug with_domain_slug].
  change (anchor_of (u "/srv/page" ++ u ".astro")) with (Some (u "/")).
  vm_compute. reflexivity.
Qed.

Lemma build_package_touches_only_its_files_witness :
  forallb (fun q => is_prefix [u "out"] q)
          (build_paths [u "out"] default_config) = true.
Proof.
  destruct (build_package_touches_only_its_files [u "out"] default_config
              sample_ambient false) as (_ & Below & _).
  apply forallb_forall. intros q Hq.
  destruct (Below eq_refl q Hq) as (rest & _ & _ & ->).
  apply is_prefix_app.
Defined.

(** *** Computations that leave the operating system as it is *)

Lemma same_os_refl (w : World) : same_os w w.
Proof. repeat split. Qed.





(** An operating-system error of [safe_write] is a refusal of the
    directory or of the file, which leaves every file, or a write cut
    short, which leaves the target with what was written. *)
Lemma safe_write_os_error p content enc w e w' :
  safe_write p content enc w = (Err e, w') -> is_os_error e = true ->
  (w_files w' = w_files w
   /\ (w_fault w (path_parent p) <> None \/ w_fault w p <> None))
  \/ (w_fault w (path_parent p) = None /\ w_fault w p = None
      /\ exists k bs,
          w_write_fault w p = Some k
          /\ Codec.encode enc (to_os_newlines (w_linesep w) content) = Ok bs
          /\ file_get (w_files w') p = Some (firstn k bs)).
Proof.
  intros H He.
  destruct (w_fault w (path_parent p)) as [f |] eqn:Fd.
  { left. split; [| left; discriminate].
    revert H. unfold safe_write, safe_write_try, mkdir_parents.
    unfold bind at 1. rewrite Fd.
    destruct f; cbn [os_exn is_permission_error is_os_error];
      cbv [bind raise log_error emit]; intro H; inversion H; reflexivity. }
  destruct (w_fault w p) as [f |] eqn:Ff.
  { left. split; [| right; discriminate].
    revert H.
    unfold safe_write, safe_write_try, write_text, mkdir_parents, open_write.
    unfold bind at 1. rewrite Fd.
    unfold bind at 1. unfold bind at 1. cbn [w_fault set_dirs]. rewrite Ff.
    destruct f; cbn [os_exn is_permission_error is_os_error];
      cbv [bind raise log_error emit set_dirs w_files]; intro H; inversion H;
      reflexivity. }
  right. split; [reflexivity |]. split; [reflexivity |].
  unfold safe_write in H. rewrite (safe_write_try_opened _ _ _ _ Fd Ff) in H.
  destruct (Codec.encode enc (to_os_newlines (w_linesep w) content))
    as [bs | e0] eqn:Enc.
  - destruct (w_write_fault w p) as [k |] eqn:Fw.
    + exists k, bs. split; [reflexivity |]. split; [reflexivity |].
      cbn [is_permission_error is_os_error] in H.
      cbv [bind raise log_error emit] in H. inversion H; subst.
      cbn [w_files set_files]. apply file_get_put_same.
    + cbv [bind ret log_info emit] in H. discriminate.
  - exfalso. pose proof (encode_not_os_error _ _ _ Enc) as Hn.
    destruct (is_permission_error e0) eqn:Hp; [destruct e0; discriminate |].
    rewrite Hn in H. inversion H; subst. congruence.
Qed.





(** ** X11, X12: [create_backup] *)

Lemma copy_file_target (w : World) (src dst : Path) (f g : Path * bytes) :
  In g (fst (copy_file w src dst f)) -> fst g = rebase src dst (fst f).
Proof.
  unfold copy_file. cbv zeta.
  destruct (copy_refused w dst (rebase src dst (fst f))); [intros [] |].
  destruct (w_write_fault w (rebase src dst (fst f)));
    intros [<- | []]; reflexivity.
Qed.

(** A copy in which nothing failed is the copy of every file. *)
Lemma copy_all (w : World) (src dst : Path) (l : list (Path * bytes)) :
  existsb (fun f => snd (copy_file w src dst f)) l = false ->
  flat_map (fun f => fst (copy_file w src dst f)) l
  = map (fun f => (rebase src dst (fst f), snd f)) l.
Proof.
  induction l as [| f l IH]; [reflexivity |].
  cbn [existsb flat_map map]. intro H. apply orb_false_iff in H.
  destruct H as (Hf & Hl). rewrite (IH Hl). f_equal.
  unfold copy_file in *. cbv zeta in *.
  destruct (copy_refused w dst (rebase src dst (fst f))); [discriminate |].
  destruct (w_write_fault w (rebase src dst (fst f))); [discriminate |].
  reflexivity.
Qed.


Lemma copytree_returned (src dst : Path) (w w' : World) :
  copytree src dst w = (Ok tt, w') ->
  w_files w' =
  fold_left (fun fs f => file_put fs (fst f) (snd f))
    (map (fun f => (rebase src dst (fst f), snd f))
       (filter (fun f => is_prefix src (fst f)) (w_files w)))
    (w_files w)
  /\ path_exists w dst = false.
Proof.
  unfold copytree.
  destruct (file_get (w_files w) src); [discriminate |].
  destruct (path_exists w dst); [discriminate |].
  destruct (w_fault w dst); [discriminate |].
  cbv zeta.
  destruct (existsb (fun f => snd (copy_file w src dst f))
                    (filter (fun f => is_prefix src (fst f)) (w_files w)))
    eqn:E; [discriminate |].
  cbn [orb]. destruct (existsb (copy_refused w dst) _); [discriminate |].
  intro H. inversion H; subst. cbn [w_files].
  rewrite (copy_all _ _ _ _ E). split; reflexivity.
Qed.

Lemma copytree_frame (src dst : Path) (w : World) (q : Path) :
  is_prefix dst q = false ->
  file_get (w_files (snd (copytree src dst w))) q = file_get (w_files w) q.
Proof.
  intro Hq. unfold copytree.
  destruct (file_get (w_files w) src); [reflexivity |].
  destruct (path_exists w dst); [reflexivity |].
  destruct (w_fault w dst); [reflexivity |].
  cbv zeta.
  assert (K : file_get
                (fold_left (fun fs f => file_put fs (fst f) (snd f))
                   (flat_map (fun f => fst (copy_file w src dst f))
                      (filter (fun f => is_prefix src (fst f)) (w_files w)))
                   (w_files w)) q
              = file_get (w_files w) q).
  { apply fold_put_other.
    intros g Hg E. apply in_flat_map in Hg. destruct Hg as (f & _ & Hg).
    apply copy_file_target in Hg. rewrite Hg in E. subst q.
    unfold rebase in Hq. rewrite is_prefix_app in Hq. discriminate. }
  destruct (_ || _); cbn [snd w_files]; exact K.
Qed.


Lemma create_backup_blocked (path : Path) (amb : Ambient) (w : World) :
  path_exists w path = true ->
  path_exists w (backup_path path amb) = true
  \/ file_get (w_files w) path <> None ->
  exists e, create_backup path amb w = (Err e, w) /\ is_os_error e = true.
Proof.
  intros He Hb. unfold create_backup. rewrite He. cbn [negb]. cbv zeta.
  fold (backup_path path amb). unfold bind at 1, copytree.
  destruct (file_get (w_files w) path).
  { eexists. split; reflexivity. }
  destruct Hb as [Hb | Hb]; [| congruence].
  rewrite Hb. eexists. split; reflexivity.
Qed.



(** X12.  In a file store that names every file once, a backup that
    returns was made at [<parent>/<name>_backup_<timestamp>]; every file
    below the path is found below the backup with the same bytes, and is
    still where it was with the same bytes. *)
Theorem create_backup_copies
    (path : Path) (amb : Ambient) (w : World) (b : Path) (w' : World) :
  unique_files w ->
  create_backup path amb w = (Ok (Some b), w') ->
  b = backup_path path amb
  /\ forall rest bs,
      file_get (w_files w) (path ++ rest) = Some bs ->
      file_get (w_files w') (b ++ rest) = Some bs
      /\ file_get (w_files w') (path ++ rest) = Some bs.
Proof.
  intros U H. unfold create_backup in H.
  destruct (negb (path_exists w path)); [discriminate |].
  cbv zeta in H. fold (backup_path path amb) in H.
  apply bind_ok_inv in H. destruct H as ([] & w1 & Hc & H).
  cbv [bind log_info emit ret] in H. inversion H; subst b w'; clear H.
  split; [reflexivity |].
  intros rest bs Hget. cbn [w_files].
  pose proof (copytree_frame path (backup_path path amb) w) as Frame.
  rewrite Hc in Frame. cbn [snd] in Frame.
  destruct (copytree_returned _ _ _ _ Hc) as (Files & Hb).
  pose proof (file_get_In _ _ _ Hget) as Hin.
  split.
  - rewrite Files.
    rewrite <- (rebase_app path (backup_path path amb) rest).
    apply fold_put_in.
    + rewrite map_map. cbn [fst].
      apply (NoDup_keys_filter (fun f => is_prefix path (fst f))) in U.
      assert (Hl : forall f,
                 In f (filter (fun f => is_prefix path (fst f)) (w_files w)) ->
                 is_prefix path (fst f) = true)
        by (intros f Hf; apply filter_In in Hf; apply Hf).
      revert U Hl.
      generalize (filter (fun f => is_prefix path (fst f)) (w_files w)) as l.
      intros l U Hl. induction l as [| f l IH]; [constructor |].
      cbn [map] in *. inversion U as [| x t Hnot U']; subst.
      constructor.
      * intro Hr. apply Hnot. apply in_map_iff in Hr.
        destruct Hr as (g & Eg & Hg). apply in_map_iff. exists g.
        split; [| exact Hg].
        destruct (is_prefix_split _ _ (Hl g (or_intror Hg))) as (rg & Erg).
        destruct (is_prefix_split _ _ (Hl f (or_introl eq_refl))) as (rf & Erf).
        rewrite Erg, Erf in Eg |- *. rewrite !rebase_app in Eg.
        apply app_inv_head in Eg. subst rg. reflexivity.
      * apply IH; [exact U' | intros g Hg; apply Hl; right; exact Hg].
    + apply in_map_iff. exists (path ++ rest, bs). split; [reflexivity |].
      apply filter_In. split; [exact Hin | apply is_prefix_app].
  - rewrite Frame; [exact Hget |].
    eapply no_file_below; eassumption.
Qed.

Lemma create_backup_copies_witness :
  file_get (w_files (snd (create_backup [u "out"] sample_ambient stocked_world)))
           (backup_path [u "out"] sample_ambient ++ [u "a.txt"])
  = Some [x61; x62; x63].
Proof.
  assert (U : unique_files stocked_world).
  { unfold unique_files. cbn [stocked_world w_files map fst].
    constructor; [intros [] | constructor]. }
  assert (E : create_backup [u "out"] sample_ambient stocked_world
              = (Ok (Some (backup_path [u "out"] sample_ambient)),
                 snd (create_backup [u "out"] sample_ambient stocked_world)))
    by (vm_compute; reflexivity).
  apply (proj2 (create_backup_copies [u "out"] sample_ambient stocked_world
                  _ _ U E) [u "a.txt"] [x61; x62; x63]).
  vm_compute. reflexivity.
Defined.

(** ** X13, X14: [create_zip] *)

Lemma file_put_keys (fs : list (Path * bytes)) (p : Path) (bs : bytes) (k : Path) :
  In k (map fst (file_put fs p bs)) -> k = p \/ In k (map fst fs).
Proof.
  induction fs as [| [q old] fs IH]; cbn [file_put map fst].
  - intros [<- | []]. left. reflexivity.
  - destruct (path_eqb q p); cbn [map fst].
    + intros [<- | H]; right; [left; reflexivity | right; exact H].
    + intros [<- | H]; [right; left; reflexivity |].
      destruct (IH H) as [-> | H']; [left; reflexivity | right; right; exact H'].
Qed.

Lemma file_put_unique (fs : list (Path * bytes)) (p : Path) (bs : bytes) :
  NoDup (map fst fs) -> NoDup (map fst (file_put fs p bs)).
Proof.
  induction fs as [| [q old] fs IH]; intro ND; cbn [file_put].
  - cbn [map fst]. constructor; [intros [] | constructor].
  - cbn [map fst] in ND. inversion ND as [| x t Hnot ND']; subst.
    destruct (path_eqb q p) eqn:E; cbn [map fst].
    + constructor; assumption.
    + constructor; [| apply IH; exact ND'].
      intro Hin. apply file_put_keys in Hin. destruct Hin as [-> | Hin].
      * rewrite (proj2 (path_eqb_eq p p) eq_refl) in E. discriminate.
      * apply Hnot. exact Hin.
Qed.

Lemma arc_name (source_dir rest : Path) :
  source_dir <> [] ->
  skipn (length (path_parent source_dir)) (source_dir ++ rest)
  = path_name source_dir :: rest.
Proof.
  intro Hne. unfold path_parent, path_name.
  rewrite (app_removelast_last [] Hne) at 2.
  rewrite <- app_assoc, skipn_app, skipn_all, Nat.sub_diag. reflexivity.
Qed.

(** The entries [create_zip] makes of a store that names every file once. *)
Lemma archive_entries_spec (source_dir : Path) (fs : list (Path * bytes))
    (name : Path) (bs : bytes) :
  source_dir <> [] ->
  NoDup (map fst fs) ->
  In (name, bs)
     (map (fun f => (skipn (length (path_parent source_dir)) (fst f), snd f))
        (filter (fun f => is_prefix source_dir (fst f)
                          && negb (path_eqb source_dir (fst f))) fs))
  <-> exists rest,
        rest <> [] /\ name = path_name source_dir :: rest
        /\ file_get fs (source_dir ++ rest) = Some bs.
Proof.
  intros Hne U. rewrite in_map_iff. split.
  - intros ([p c] & E & Hin). cbn [fst snd] in E. inversion E; subst; clear E.
    apply filter_In in Hin. destruct Hin as (Hin & Hp). cbn [fst] in Hp.
    apply andb_true_iff in Hp. destruct Hp as (Hpre & Hneq).
    destruct (is_prefix_split _ _ Hpre) as (rest & ->).
    exists rest. split; [| split].
    + intros ->. rewrite app_nil_r in Hneq.
      rewrite (proj2 (path_eqb_eq source_dir source_dir) eq_refl) in Hneq.
      discriminate.
    + apply arc_name. exact Hne.
    + apply In_file_get; assumption.
  - intros (rest & Hrest & -> & Hget).
    exists (source_dir ++ rest, bs). cbn [fst snd].
    split; [rewrite (arc_name _ _ Hne); reflexivity |].
    apply filter_In. split.
    + apply file_get_In. exact Hget.
    + cbn [fst]. rewrite is_prefix_app. cbn [andb].
      destruct (path_eqb source_dir (source_dir ++ rest)) eqn:E; [| reflexivity].
      apply path_eqb_eq in E. exfalso. apply Hrest.
      rewrite <- (app_nil_r source_dir) in E at 1.
      apply app_inv_head in E. symmetry. exact E.
Qed.

Section ArchiveProperties.

Variable zip_encode : Z -> list (Path * bytes) -> bytes.

(** X13.  With a compression method other than stored, deflated, bzip2
    and lzma, [create_zip] raises [NotImplementedError] before it opens
    the archive: the store is as it was. *)
Theorem create_zip_unsupported_compression
    (source_dir output_path : Path) (config : BuildConfig) (w : World) :
  ~ In (zip_compression config) supported_compression ->
  exists w',
    create_zip zip_encode source_dir output_path config w
    = (Err NotImplementedError, w')
    /\ same_store w w'.
Proof.
  intro Hc. unfold create_zip. step_log w1 S1.
  assert (E : existsb (Z.eqb (zip_compression config)) supported_compression
              = false).
  { destruct (existsb _ _) eqn:E; [| reflexivity].
    exfalso. apply Hc. apply existsb_exists in E.
    destruct E as (x & Hx & Ex). apply Z.eqb_eq in Ex. subst x. exact Hx. }
  rewrite E. rewrite bind_raise. exists w1. split; [reflexivity | exact S1].
Qed.

(** What [create_zip] does once the archive is open. *)
Lemma create_zip_entries_of
    (source_dir output_path : Path) (config : BuildConfig) (w : World) :
  In (zip_compression config) supported_compression ->
  w_fault w output_path = None ->
  exists w',
    create_zip zip_encode source_dir output_path config w = (Ok output_path, w')
    /\ w_files w' =
       file_put (file_put (w_files w) output_path []) output_path
         (zip_encode (zip_compression config)
            (map (fun f => (skipn (length (path_parent source_dir)) (fst f),
                            snd f))
               (filter (fun f => is_prefix source_dir (fst f)
                                 && negb (path_eqb source_dir (fst f)))
                  (file_put (w_files w) output_path [])))).
Proof.
  intros Hc Hf. unfold create_zip. step_log w1 S1.
  assert (E : existsb (Z.eqb (zip_compression config)) supported_compression
              = true).
  { apply existsb_exists. exists (zip_compression config).
    split; [exact Hc | apply Z.eqb_refl]. }
  rewrite E, bind_ret. destruct S1 as (F1 & D1 & X1 & _).
  unfold bind at 1, open_write. rewrite X1, Hf. cbv zeta.
  unfold bind at 1, put_bytes. cbn [set_files w_files].
  step_log w2 S2. step_log w3 S3. cbv [ret].
  eexists. split; [reflexivity |].
  destruct S2 as (F2 & _). destruct S3 as (F3 & _).
  rewrite F3, F2. cbn [set_files w_files]. rewrite F1. reflexivity.
Qed.


(** ** X15, X16: [main] *)

Lemma same_store_path_exists (w w' : World) (p : Path) :
  same_store w w' -> path_exists w' p = path_exists w p.
Proof.
  intros (F & D & _). unfold path_exists. rewrite F, D. reflexivity.
Qed.

Lemma os_error_not_validation (e : Exn) :
  is_os_error e = true -> is_validation_error e = false.
Proof. destruct e; cbn; congruence. Qed.

(** A preview run of [main]: no log file, no backup. *)
Lemma main_preview (config : BuildConfig) (args : Args) (amb : Ambient) (w : World) :
  a_log_file args = None ->
  a_backup args = false ->
  a_dry_run args = true ->
  exists w0,
    same_store w w0
    /\ match build_package (a_output args) config amb true w0 with
       | (Ok _, wv) =>
         exists w', same_store w w'
                    /\ main_with zip_encode config args amb w = (Ok 0%Z, w')
       | (Err e, wv) =>
         exists w', same_store w w'
                    /\ main_with zip_encode config args amb w
                       = (Ok (if is_validation_error e then 1 else 2)%Z, w')
       end.
Proof.
  intros Hl Hb Hd.
  assert (Hs : setup_logging (a_log_file args) w = (Ok tt, w))
    by (rewrite Hl; reflexivity).
  destruct (main_with_after_setup zip_encode config args amb w Hs)
    as (w0 & S0 & Hmain).
  exists w0. split; [exact S0 |].
  pose proof (main_try_steps zip_encode args config amb w0) as Steps.
  unfold backup_step in Steps. rewrite Hb in Steps. cbv [ret] in Steps.
  rewrite Hd in Steps.
  pose proof (preview_is_quiet (a_output args) config amb w0) as Q.
  destruct (build_package (a_output args) config amb true w0)
    as [[m | e] wv]; cbn [snd] in Q.
  - unfold zip_step in Steps. rewrite Hd, andb_false_r in Steps.
    cbv [ret] in Steps. destruct Steps as (wt & St & Et).
    exists wt. split.
    + eapply same_store_trans; [exact S0 |].
      eapply same_store_trans; [exact Q | exact St].
    + rewrite Hmain, Et. reflexivity.
  - rewrite Hmain, Steps.
    assert (S : same_store w wv) by (eapply same_store_trans; eassumption).
    destruct (is_validation_error e);
      (eexists; split; [| cbv [bind log_error emit ret]; reflexivity]);
      destruct S as (F & D & X & L & W); repeat split; assumption.
Qed.

(** X15.  Run with [--dry-run], without [--backup] and without a log
    file, [main] returns an exit code and leaves the store as it was,
    whatever the configuration and whether or not [--zip] is given; with
    the configuration [main] builds, [BuildConfig()], the code is 0. *)
Theorem main_dry_run
    (config : BuildConfig) (args : Args) (amb : Ambient) (w : World) :
  a_log_file args = None ->
  a_backup args = false ->
  a_dry_run args = true ->
  (exists code w',
      main_with zip_encode config args amb w = (Ok code, w')
      /\ same_store w w')
  /\ (exists w',
        main zip_encode args amb w = (Ok 0%Z, w') /\ same_store w w').
Proof.
  intros Hl Hb Hd. split.
  - destruct (main_preview config args amb w Hl Hb Hd) as (w0 & _ & H).
    destruct (build_package (a_output args) config amb true w0) as [[m | e] wv];
      destruct H as (w' & S & E); eexists; exists w'; split; eassumption.
  - unfold main.
    destruct (main_preview default_config args amb w Hl Hb Hd) as (w0 & _ & H).
    pose proof (build_package_outcome (a_output args) default_config amb
                  true w0) as O.
    destruct (build_package (a_output args) default_config amb true w0)
      as [[m | e] wv].
    { destruct H as (w' & S & E). exists w'. split; assumption. }
    exfalso.
    destruct default_reports_pass as (ra & rs & rc & Ea & Es & Ec & Hall).
    inversion O as [ e0 w3 Hraise S
                   | ra' rs' rc' w3 Ea' Es2 Ec' Hfail S
                   |
                   | ra' rs' rc' w3 Ea' Es2 Ec' Hp Hdry S Hw ]; subst.
    + destruct Hraise as [E | [(x & _ & E) | (x & y & _ & _ & E)]]; congruence.
    + congruence.
    + discriminate.
Qed.

(** X16.  Run without a log file and with [--backup] on an output path
    that exists, when the backup destination exists already or the
    output path is a regular file, [main] returns 2 without building
    anything: the store is as it was. *)
Theorem main_backup_blocked
    (config : BuildConfig) (args : Args) (amb : Ambient) (w : World) :
  a_log_file args = None ->
  a_backup args = true ->
  path_exists w (a_output args) = true ->
  path_exists w (backup_path (a_output args) amb) = true
  \/ file_get (w_files w) (a_output args) <> None ->
  exists w',
    main_with zip_encode config args amb w = (Ok 2%Z, w')
    /\ same_store w w'.
Proof.
  intros Hl Hb He Hd.
  assert (Hs : setup_logging (a_log_file args) w = (Ok tt, w))
    by (rewrite Hl; reflexivity).
  destruct (main_with_after_setup zip_encode config args amb w Hs)
    as (w0 & S0 & Hmain).
  rewrite Hmain. clear Hmain.
  assert (He0 : path_exists w0 (a_output args) = true)
    by (rewrite (same_store_path_exists _ _ _ S0); exact He).
  assert (Hd0 : path_exists w0 (backup_path (a_output args) amb) = true
                \/ file_get (w_files w0) (a_output args) <> None).
  { destruct Hd as [Hd | Hd]; [left | right].
    - rewrite (same_store_path_exists _ _ _ S0). exact Hd.
    - destruct S0 as (F & _). rewrite F. exact Hd. }
  destruct (create_backup_blocked (a_output args) amb w0 He0 Hd0)
    as (e & Eb & Hos).
  pose proof (main_try_steps zip_encode args config amb w0) as Steps.
  unfold backup_step in Steps. rewrite Hb in Steps.
  rewrite (bind_fail _ _ _ _ _ Eb) in Steps. rewrite Steps.
  rewrite (os_error_not_validation e Hos).
  eexists. split; [cbv [bind log_error emit ret]; reflexivity |].
  destruct S0 as (F & D & X & L & W). repeat split; assumption.
Qed.

End ArchiveProperties.

Lemma create_zip_unsupported_compression_witness :
  exists w',
    create_zip no_archive [u "out"] [u "out.zip"]
      (with_compression default_config 5) empty_world
    = (Err NotImplementedError, w')
    /\ same_store empty_world w'.
Proof.
  apply (create_zip_unsupported_compression no_archive [u "out"] [u "out.zip"]
           (with_compression default_config 5) empty_world).
  cbn. intros [H | [H | [H | [H | []]]]]; discriminate.
Defined.


Lemma main_dry_run_witness :
  exists w',
    main no_archive
      {| a_output := [u "out"]; a_zip := true; a_backup := false;
         a_dry_run := true; a_log_file := None; a_verbose := false |}
      sample_ambient stocked_world = (Ok 0%Z, w')
    /\ same_store stocked_world w'.
Proof.
  apply (proj2 (main_dry_run no_archive default_config
                  {| a_output := [u "out"]; a_zip := true; a_backup := false;
                     a_dry_run := true; a_log_file := None;
                     a_verbose := false |}
                  sample_ambient stocked_world eq_refl eq_refl eq_refl)).
Defined.

Lemma main_backup_blocked_witness :
  exists w',
    main_with no_archive default_config
      {| a_output := [u "out"]; a_zip := false; a_backup := true;
         a_dry_run := false; a_log_file := None; a_verbose := false |}
      sample_ambient backed_up_world = (Ok 2%Z, w')
    /\ same_store backed_up_world w'.
Proof.
  apply (main_backup_blocked no_archive default_config
           {| a_output := [u "out"]; a_zip := false; a_backup := true;
              a_dry_run := false; a_log_file := None; a_verbose := false |}
           sample_ambient backed_up_world eq_refl eq_refl).
  - vm_compute. reflexivity.
  - left. vm_compute. reflexivity.
Defined.

(** ** X17: the archive [main] makes of a build *)

Lemma ku_of_quiet {A} (m : M A) : quiet m -> keeps_unique m.
Proof.
  intros Hq w U. destruct (Hq w) as (F & _). unfold unique_files.
  rewrite F. exact U.
Qed.

Lemma ku_bind {A B} (m : M A) (k : A -> M B) :
  keeps_unique m -> (forall a, keeps_unique (k a)) -> keeps_unique (bind m k).
Proof.
  intros Hm Hk w U. unfold bind. specialize (Hm w U).
  destruct (m w) as [[a | e] w1]; cbn [snd] in *.
  - apply Hk. exact Hm.
  - exact Hm.
Qed.

Lemma ku_mkdir_parents (d : Path) : keeps_unique (mkdir_parents d).
Proof.
  intros w U. unfold mkdir_parents. destruct (w_fault w d); exact U.
Qed.

Lemma ku_open_write (p : Path) : keeps_unique (open_write p).
Proof.
  intros w U. unfold open_write. destruct (w_fault w p); [exact U |].
  apply file_put_unique. exact U.
Qed.

Lemma ku_put_bytes (p : Path) (bs : bytes) : keeps_unique (put_bytes p bs).
Proof. intros w U. apply file_put_unique. exact U. Qed.

Lemma ku_write_bytes (p : Path) (bs : bytes) : keeps_unique (write_bytes p bs).
Proof.
  intros w U. unfold write_bytes.
  destruct (w_write_fault w p); apply file_put_unique; exact U.
Qed.

Lemma ku_safe_write (p : Path) (content enc : pystr) :
  keeps_unique (safe_write p content enc).
Proof.
  assert (T : keeps_unique (safe_write_try p content enc)).
  { unfold safe_write_try, write_text.
    apply ku_bind; [apply ku_mkdir_parents | intros _].
    apply ku_bind; [| intro n;
                      apply ku_bind; [apply ku_of_quiet, quiet_emit | intros _];
                      apply ku_of_quiet, quiet_ret].
    apply ku_bind; [apply ku_open_write | intros _].
    intros w0 U0. cbv beta.
    refine (ku_bind _ _ _ _ w0 U0); [apply ku_of_quiet, quiet_lift | intro bs].
    apply ku_bind; [apply ku_write_bytes | intros _].
    apply ku_of_quiet, quiet_ret. }
  intros w U. specialize (T w U). unfold safe_write.
  destruct (safe_write_try p content enc w) as [[n | e] w0]; cbn [snd] in *;
    [exact T |].
  destruct (is_permission_error e); [exact T |].
  destruct (is_os_error e); exact T.
Qed.

Lemma ku_write_artifacts output_dir config A S C R m :
  keeps_unique (write_artifacts output_dir config A S C R m).
Proof.
  unfold write_artifacts. cbv zeta.
  repeat first
    [ apply ku_of_quiet, quiet_ret
    | apply ku_bind;
      [ first
          [ apply ku_of_quiet, quiet_emit
          | apply ku_of_quiet, quiet_lift
          | apply ku_safe_write ]
      | intro ] ].
Qed.

Lemma ku_build_package output_dir config amb dry_run :
  keeps_unique (build_package output_dir config amb dry_run).
Proof.
  intros w U.
  pose proof (build_package_outcome output_dir config amb dry_run w) as O.
  destruct (build_package output_dir config amb dry_run w) as [r w'].
  cbn [snd].
  assert (Same : forall w1, same_store w w1 -> unique_files w1).
  { intros w1 (F & _). unfold unique_files. rewrite F. exact U. }
  inversion O as [ e w3 Hraise S
                 | ra rs rc w3 Ea Es Ec Hfail S
                 | ra rs rc w3 Ea Es Ec Hp Hdry S
                 | ra rs rc w1 Ea Es Ec Hp Hdry S Hw ]; subst;
    try (apply Same; exact S).
  pose proof (ku_write_artifacts output_dir config
                (generate_astro_content config) (generate_schema config)
                generate_css (generate_readme config (utc_now_readme amb))
                (validated_manifest config amb ra rs rc) w1 (Same w1 S)) as K.
  first [rewrite Hw in K | rewrite <- Hw in K]. exact K.
Qed.

Lemma fold_put_unique (l fs : list (Path * bytes)) :
  NoDup (map fst fs) ->
  NoDup (map fst (fold_left (fun fs f => file_put fs (fst f) (snd f)) l fs)).
Proof.
  revert fs. induction l as [| f l IH]; intros fs U; cbn [fold_left].
  - exact U.
  - apply IH. apply file_put_unique. exact U.
Qed.

Lemma ku_copytree (src dst : Path) : keeps_unique (copytree src dst).
Proof.
  intros w U. unfold copytree.
  destruct (file_get (w_files w) src); [exact U |].
  destruct (path_exists w dst); [exact U |].
  destruct (w_fault w dst); [exact U |].
  cbv zeta. destruct (_ || _); cbn [snd]; unfold unique_files; cbn [w_files];
    apply fold_put_unique; exact U.
Qed.

Lemma ku_create_backup (path : Path) (amb : Ambient) :
  keeps_unique (create_backup path amb).
Proof.
  intros w U. unfold create_backup.
  destruct (negb (path_exists w path)); [exact U |].
  cbv zeta.
  apply (ku_bind (copytree path (backup_path path amb))
           (fun _ => bind (log_info (u "Created backup: "
                                     ++ path_str (backup_path path amb)))
                       (fun _ => ret (Some (backup_path path amb)))));
    [apply ku_copytree | | exact U].
  intros _. apply ku_bind; [apply ku_of_quiet, quiet_emit |].
  intros _. apply ku_of_quiet, quiet_ret.
Qed.

Lemma ku_backup_step (args : Args) (amb : Ambient) :
  keeps_unique (backup_step args amb).
Proof.
  unfold backup_step. destruct (a_backup args); [| apply ku_of_quiet, quiet_ret].
  apply ku_bind; [apply ku_create_backup | intros _; apply ku_of_quiet, quiet_ret].
Qed.

(** A build that returns, not in a dry run, leaves its five files. *)
Lemma build_package_files output_dir config amb w m w' :
  build_package output_dir config amb false w = (Ok m, w') ->
  forall q, In q (build_paths output_dir config) ->
            exists bs, file_get (w_files w') q = Some bs.
Proof.
  intro H.
  pose proof (build_package_outcome output_dir config amb false w) as O.
  rewrite H in O.
  inversion O as [
                 |
                 | ra rs rc w3 Ea Es Ec Hp Hdry S
                 | ra rs rc w1 Ea Es Ec Hp Hdry S Hw ]; subst;
    [discriminate |].
  apply write_artifacts_ok in Hw; [| reflexivity | reflexivity].
  destruct Hw as (ba & bs & bc & br & ha & hs & hc & hr
                  & _ & _ & _ & _ & _ & (Ga & Gs & Gc & Gr) & Gm).
  intros q Hq. unfold build_paths in Hq. cbn [In] in Hq.
  destruct Hq as [<- | [<- | [<- | [<- | [<- | []]]]]];
    [exists ba | exists bs | exists bc | exists br |]; try assumption.
  destruct (file_get (w_files w') (manifest_path output_dir)) as [bm |];
    [exists bm; reflexivity | congruence].
Qed.

Lemma sibling_outside (parent : Path) (name suffix : pystr) (rest : Path) :
  suffix <> [] -> (parent ++ [name]) ++ rest <> parent ++ [name ++ suffix].
Proof.
  intros Hs H. rewrite <- app_assoc in H. apply app_inv_head in H.
  cbn [app] in H. inversion H as [[Hn Hr]].
  rewrite <- (app_nil_r name) in Hn at 1. apply app_inv_head in Hn.
  apply Hs. symmetry. exact Hn.
Qed.

(** For a plain output path the archive is the sibling [<name>.zip] of
    the output directory. *)
Lemma zip_path_parts (args : Args) :
  plain_path (a_output args) = true ->
  a_output args = path_parent (a_output args) ++ [path_name (a_output args)]
  /\ zip_path args
     = path_parent (a_output args) ++ [path_name (a_output args) ++ u ".zip"].
Proof.
  intro Hp. destruct (plain_path_last _ Hp) as (Hne & Hn).
  split; [apply app_removelast_last; exact Hne |].
  unfold zip_path. apply path_div_plain.
  apply plain_suffix;
    [apply plain_name_no_separator; exact Hn | reflexivity | vm_compute; lia].
Qed.

Lemma zip_path_outside (args : Args) (rest : Path) :
  plain_path (a_output args) = true ->
  a_output args ++ rest <> zip_path args.
Proof.
  intro Hp. destruct (zip_path_parts args Hp) as (E & Ez).
  rewrite Ez. rewrite E at 1. apply sibling_outside. vm_compute. discriminate.
Qed.

Section MainArchive.

Variable zip_encode : Z -> list (Path * bytes) -> bytes.

Lemma create_zip_ok_inv source_dir output_path config w p w' :
  create_zip zip_encode source_dir output_path config w = (Ok p, w') ->
  In (zip_compression config) supported_compression
  /\ w_fault w output_path = None.
Proof.
  intro H. unfold create_zip in H. log_in H w1 S1.
  destruct (existsb (Z.eqb (zip_compression config)) supported_compression)
    eqn:E; [| rewrite bind_raise in H; discriminate].
  split.
  - apply existsb_exists in E. destruct E as (x & Hx & Ex).
    apply Z.eqb_eq in Ex. subst x. exact Hx.
  - rewrite bind_ret in H. unfold bind at 1, open_write in H.
    destruct S1 as (_ & _ & X1 & _). rewrite <- X1.
    destruct (w_fault w1 output_path); [discriminate | reflexivity].
Qed.

(** X17.  Let the output path be plain (every part a plain name, so
    neither [.] nor [..] nor the current directory itself) and the page
    slug hold no separator.  Run with [--zip], not as a dry run and
    without a log file, on a store that names every file once, a [main]
    that returns 0 leaves an archive beside the output directory; its
    entries are the files then below the output directory, each under
    its path relative to the parent of the output directory and with its
    bytes, and the five files of the build are among them. *)
Theorem main_archive_holds_build
    (config : BuildConfig) (args : Args) (amb : Ambient) (w w' : World) :
  a_log_file args = None ->
  a_zip args = true ->
  a_dry_run args = false ->
  plain_path (a_output args) = true ->
  has_separator (page_slug config) = false ->
  unique_files w ->
  main_with zip_encode config args amb w = (Ok 0%Z, w') ->
  exists entries,
    file_get (w_files w') (zip_path args)
    = Some (zip_encode (zip_compression config) entries)
    /\ (forall name bs,
          In (name, bs) entries <->
          exists rest,
            rest <> [] /\ name = path_name (a_output args) :: rest
            /\ file_get (w_files w') (a_output args ++ rest) = Some bs)
    /\ (forall q,
          In q (build_paths (a_output args) config) ->
          exists bs,
            file_get (w_files w') q = Some bs
            /\ In (relative_to (path_parent (a_output args)) q, bs) entries).
Proof.
  intros Hl Hz Hd Hplain Hslug U H.
  destruct (plain_path_last _ Hplain) as (Hne & _).
  assert (Hs : setup_logging (a_log_file args) w = (Ok tt, w))
    by (rewrite Hl; reflexivity).
  destruct (main_with_after_setup zip_encode config args amb w Hs)
    as (w0 & S0 & Hmain).
  rewrite Hmain in H. clear Hmain.
  assert (U0 : unique_files w0).
  { destruct S0 as (F & _). unfold unique_files. rewrite F. exact U. }
  pose proof (main_try_steps zip_encode args config amb w0) as Steps.
  pose proof (ku_backup_step args amb w0 U0) as Ub.
  destruct (backup_step args amb w0) as [[[] | e] wb].
  2:{ rewrite Steps in H. destruct (is_validation_error e);
        cbv [bind log_error emit ret] in H; inversion H. }
  cbn [snd] in Ub. rewrite Hd in Steps.
  pose proof (ku_build_package (a_output args) config amb false wb Ub) as Uv.
  destruct (build_package (a_output args) config amb false wb)
    as [[m | e] wv] eqn:Ev.
  2:{ rewrite Steps in H. destruct (is_validation_error e);
        cbv [bind log_error emit ret] in H; inversion H. }
  cbn [snd] in Uv.
  pose proof (build_package_files _ _ _ _ _ _ Ev) as Built.
  destruct (zip_step zip_encode args config wv) as [[[] | e] wz] eqn:Ez.
  2:{ rewrite Steps in H. destruct (is_validation_error e);
        cbv [bind log_error emit ret] in H; inversion H. }
  destruct Steps as (wt & (Ft & _) & Et). rewrite Et in H.
  inversion H; subst wt; clear H Et.
  unfold zip_step in Ez. rewrite Hz, Hd in Ez. cbn [negb andb] in Ez.
  cbv zeta in Ez. fold (zip_path args) in Ez.
  apply bind_ok_inv in Ez. destruct Ez as (p & wz' & Hrun & Hret).
  cbv [ret] in Hret. inversion Hret; subst wz'; clear Hret.
  destruct (create_zip_ok_inv _ _ _ _ _ _ Hrun) as (Hc & Hf).
  destruct (create_zip_entries_of zip_encode (a_output args) (zip_path args)
              config wv Hc Hf) as (wz' & Hrun' & Hfiles).
  rewrite Hrun in Hrun'. inversion Hrun'; subst p wz'; clear Hrun'.
  rewrite Ft, Hfiles.
  assert (Below : forall rest,
             file_get
               (file_put (file_put (w_files wv) (zip_path args) [])
                  (zip_path args)
                  (zip_encode (zip_compression config)
                     (map (fun f =>
                             (skipn (length (path_parent (a_output args)))
                                (fst f), snd f))
                        (filter (fun f =>
                                   is_prefix (a_output args) (fst f)
                                   && negb (path_eqb (a_output args) (fst f)))
                           (file_put (w_files wv) (zip_path args) [])))))
               (a_output args ++ rest)
             = file_get (file_put (w_files wv) (zip_path args) [])
                 (a_output args ++ rest)).
  { intro rest. apply file_get_put_other. apply zip_path_outside. exact Hplain. }
  pose proof (file_put_unique (w_files wv) (zip_path args) [] Uv) as U1.
  eexists. split; [apply file_get_put_same |]. split.
  - intros name bs.
    rewrite (archive_entries_spec (a_output args) _ name bs Hne U1).
    split; intros (rest & Hrest & Hname & Hget); exists rest;
      (split; [exact Hrest | split; [exact Hname |]]).
    + rewrite Below. exact Hget.
    + rewrite <- Below. exact Hget.
  - intros q Hq. destruct (Built q Hq) as (bs & Hget).
    destruct (build_path_below _ _ _ Hslug Hq) as (rest & Hrest & _ & ->).
    exists bs. split.
    + rewrite Below. rewrite file_get_put_other
        by (apply zip_path_outside; exact Hplain). exact Hget.
    + apply (archive_entries_spec (a_output args) _ _ bs Hne U1).
      exists rest. split; [exact Hrest |]. split.
      * unfold relative_to. apply arc_name. exact Hne.
      * rewrite file_get_put_other by (apply zip_path_outside; exact Hplain).
        exact Hget.
Qed.

End MainArchive.

Lemma default_archive_run_returns :
  exists w',
    main_with no_archive default_config archive_args sample_ambient empty_world
    = (Ok 0%Z, w').
Proof.
  assert (H : match main_with no_archive default_config archive_args
                      sample_ambient empty_world with
              | (Ok 0%Z, _) => True
              | _ => False
              end) by (vm_compute; exact I).
  destruct (main_with no_archive default_config archive_args sample_ambient
              empty_world) as [[[| c | c] | e] w']; try destruct H.
  exists w'. reflexivity.
Qed.

Lemma main_archive_holds_build_witness :
  exists w' entries,
    main_with no_archive default_config archive_args sample_ambient empty_world
    = (Ok 0%Z, w')
    /\ file_get (w_files w') (zip_path archive_args)
       = Some (no_archive (zip_compression default_config) entries)
    /\ (forall q,
          In q (build_paths [u "out"] default_config) ->
          exists bs,
            file_get (w_files w') q = Some bs
            /\ In (relative_to (path_parent [u "out"]) q, bs) entries).
Proof.
  destruct default_archive_run_returns as (w' & E).
  assert (Hne : plain_path (a_output archive_args) = true)
    by (vm_compute; reflexivity).
  assert (U : unique_files empty_world) by constructor.
  destruct (main_archive_holds_build no_archive default_config archive_args
              sample_ambient empty_world w' eq_refl eq_refl eq_refl Hne eq_refl
              U E)
    as (entries & H1 & _ & H3).
  exists w', entries. split; [exact E |]. split; [exact H1 | exact H3].
Defined.

(** ** X18: a build stopped by the file system is not rolled back *)

Lemma bind_err_inv {A B} (m : M A) (k : A -> M B) w e w' :
  bind m k w = (Err e, w') ->
  m w = (Err e, w') \/ exists a w1, m w = (Ok a, w1) /\ k a w1 = (Err e, w').
Proof.
  unfold bind. destruct (m w) as [[a | e0] w1]; intro H.
  - right. exists a, w1. split; [reflexivity | exact H].
  - left. inversion H; subst. reflexivity.
Qed.

(** Once the first write is begun, what it put in its file stays,
    whatever stops the build: the whole encoded page when the write went
    through, the bytes that reached the file when it was cut short. *)
Lemma write_artifacts_partial output_dir config A S C R m w e w' :
  write_artifacts output_dir config A S C R m w = (Err e, w') ->
  is_os_error e = true ->
  w_fault w (path_parent (astro_path output_dir config)) = None ->
  w_fault w (astro_path output_dir config) = None ->
  exists bs,
    Codec.encode (encoding config) (to_os_newlines (w_linesep w) A) = Ok bs
    /\ ((w_write_fault w (astro_path output_dir config) = None
         /\ file_get (w_files w') (astro_path output_dir config) = Some bs)
        \/ (exists k,
              w_write_fault w (astro_path output_dir config) = Some k
              /\ file_get (w_files w') (astro_path output_dir config)
                 = Some (firstn k bs))).
Proof.
  intros Hw He Fd Ff.
  destruct (artifact_paths_apart output_dir config)
    as ((Nas & Nac & Nar & Nam) & _).
  unfold write_artifacts in Hw. cbv zeta in Hw.
  fold (astro_path output_dir config) (schema_path output_dir)
       (css_path output_dir) (readme_path output_dir)
       (manifest_path output_dir) in Hw.
  log_in Hw w0 S0. destruct S0 as (_ & _ & X0 & L0 & W0).
  apply bind_err_inv in Hw. destruct Hw as [Hw | (n & w2 & Hw & Hk)].
  { destruct (safe_write_os_error _ _ _ _ _ _ Hw He)
      as [(_ & [N | N]) | (_ & _ & k & bs & Fw & Enc & Got)].
    - exfalso. apply N. rewrite X0. exact Fd.
    - exfalso. apply N. rewrite X0. exact Ff.
    - exists bs. rewrite <- L0. split; [exact Enc |].
      right. exists k. rewrite <- W0. split; [exact Fw | exact Got]. }
  apply safe_write_ok in Hw.
  destruct Hw as (bs & Enc & _ & Got & _ & _ & _ & _ & Fw).
  exists bs. rewrite <- L0. split; [exact Enc |].
  left. rewrite <- W0. split; [exact Fw |].
  match type of Hk with
  | ?k ?w = _ =>
    assert (OT : only_touches
                   (fun q => In q [ schema_path output_dir;
                                    css_path output_dir;
                                    readme_path output_dir;
                                    manifest_path output_dir ]) k)
  end.
  { repeat first
      [ apply ot_of_quiet, quiet_ret
      | apply ot_bind;
        [ first
            [ apply ot_of_quiet, quiet_emit
            | apply ot_of_quiet, quiet_lift
            | eapply ot_weaken; [| apply ot_safe_write];
              intros q <-; cbn [In]; tauto ]
        | intro ] ]. }
  specialize (OT w2 (astro_path output_dir config)).
  rewrite Hk in OT. cbn [snd] in OT. rewrite OT; [exact Got |].
  cbn [In]. intros [E | [E | [E | [E | []]]]]; symmetry in E;
    [exact (Nas E) | exact (Nac E) | exact (Nar E) | exact (Nam E)].
Qed.

(** X18.  A build stopped by the file system is not rolled back.  When
    [build_package] raises an operating-system error although the
    operating system refuses to open neither the page file nor its
    directory, the run was not a dry run and the page file is left with
    what the first write put in it.  The text written is the page with
    every line end replaced by the line separator of the platform,
    encoded with the configured codec: when the write of the page file
    went through, the file holds all these bytes; when that write itself
    was cut short, the file holds the bytes that reached it, a prefix
    of them. *)
Theorem build_package_partial_output
    (output_dir : Path) (config : BuildConfig) (amb : Ambient)
    (dry_run : bool) (w : World) (e : Exn) (w' : World) :
  build_package output_dir config amb dry_run w = (Err e, w') ->
  is_os_error e = true ->
  w_fault w (path_parent (astro_path output_dir config)) = None ->
  w_fault w (astro_path output_dir config) = None ->
  dry_run = false
  /\ exists bs,
       Codec.encode (encoding config)
         (to_os_newlines (w_linesep w) (generate_astro_content config)) = Ok bs
       /\ ((w_write_fault w (astro_path output_dir config) = None
            /\ file_get (w_files w') (astro_path output_dir config) = Some bs)
           \/ (exists k,
                 w_write_fault w (astro_path output_dir config) = Some k
                 /\ file_get (w_files w') (astro_path output_dir config)
                    = Some (firstn k bs))).
Proof.
  intros H He Fd Ff.
  pose proof (build_package_outcome output_dir config amb dry_run w) as O.
  rewrite H in O.
  inversion O as [ e0 w0 Hraise S
                 | ra rs rc w0 Ea Es Ec Hall S
                 |
                 | ra rs rc w1 Ea Es Ec Hall Hdry S Hw ]; subst.
  - exfalso.
    destruct Hraise as [E | [(x & _ & E) | (x & y & _ & _ & E)]].
    + rewrite (validate_astro_not_os _ _ _ E) in He. discriminate.
    + rewrite (validate_schema_not_os _ _ _ E) in He. discriminate.
    + rewrite (validate_css_not_os _ _ _ E) in He. discriminate.
  - discriminate.
  - split; [reflexivity |].
    destruct S as (_ & _ & X & L & W).
    rewrite <- L, <- W.
    apply (write_artifacts_partial _ _ _ _ _ _ _ _ _ _ Hw He);
      rewrite X; assumption.
Qed.

Lemma build_package_partial_output_witness :
  exists w' bs,
    build_package [u "out"] default_config sample_ambient false
                  (refusing (css_path [u "out"]) Denied)
    = (Err PermissionError, w')
    /\ Codec.encode (encoding default_config)
         (generate_astro_content default_config) = Ok bs
    /\ file_get (w_files w') (astro_path [u "out"] default_config) = Some bs.
Proof.
  assert (H : match build_package [u "out"] default_config sample_ambient false
                                  (refusing (css_path [u "out"]) Denied) with
              | (Err PermissionError, w') => True
              | _ => False
              end) by (vm_compute; exact I).
  destruct (build_package [u "out"] default_config sample_ambient false
                          (refusing (css_path [u "out"]) Denied))
    as [[m | e] w'] eqn:E; [contradiction |].
  destruct e; try contradiction.
  assert (Fd : w_fault (refusing (css_path [u "out"]) Denied)
                 (path_parent (astro_path [u "out"] default_config)) = None)
    by (vm_compute; reflexivity).
  assert (Ff : w_fault (refusing (css_path [u "out"]) Denied)
                 (astro_path [u "out"] default_config) = None)
    by (vm_compute; reflexivity).
  destruct (build_package_partial_output _ _ _ _ _ _ _ E eq_refl Fd Ff)
    as (_ & bs & Enc & [(_ & Got) | (k & Fw & _)]).
  - exists w', bs. split; [reflexivity |].
    rewrite to_os_newlines_LF in Enc. split; [exact Enc | exact Got].
  - exfalso. revert Fw. vm_compute. discriminate.
Defined.

(** ** X19: what the README lists *)

Lemma startswith_in_left (e a b : pystr) :
  startswith e a = true -> startswith e (a ++ b) = true.
Proof.
  revert a. induction e as [| x e IH]; intros a H; [reflexivity |].
  destruct a as [| y a]; cbn in *; [discriminate |].
  apply andb_true_iff in H. destruct H as (Hx & Hr).
  rewrite Hx. cbn. apply IH. exact Hr.
Qed.

Lemma contains_in_left (e a b : pystr) :
  contains e a = true -> contains e (a ++ b) = true.
Proof.
  induction a as [| y a IH]; intro H.
  - cbn [contains] in H. rewrite orb_false_r in H.
    destruct e; [| discriminate]. destruct b; reflexivity.
  - cbn [contains] in H. apply orb_true_iff in H.
    change ((y :: a) ++ b) with (y :: (a ++ b)). cbn [contains].
    apply orb_true_iff. destruct H as [H | H].
    + left. apply (startswith_in_left e (y :: a) b). exact H.
    + right. apply IH. exact H.
Qed.

Lemma contains_in_right (e a b : pystr) :
  contains e b = true -> contains e (a ++ b) = true.
Proof.
  intro H. induction a as [| y a IH]; [exact H |].
  change ((y :: a) ++ b) with (y :: (a ++ b)). cbn [contains].
  rewrite IH. apply orb_true_r.
Qed.

(** X19.  Whatever the configuration and the time, the README names the
    page file [src/pages/digital-credibility-score-audit.astro] and
    lists [docs/dcs-framework.md]; the text does not depend on the
    domain or the page slug; and [build_package] never creates or
    changes [docs/dcs-framework.md] under the output directory. *)
Theorem generate_readme_listing (config : BuildConfig) (now : pystr) :
  contains (u "`src/pages/digital-credibility-score-audit.astro`")
           (generate_readme config now) = true
  /\ contains (u "`docs/dcs-framework.md`") (generate_readme config now) = true
  /\ (forall d s,
        generate_readme (with_domain_slug config d s) now
        = generate_readme config now)
  /\ (forall output_dir amb dry_run w,
        file_get
          (w_files (snd (build_package output_dir config amb dry_run w)))
          (output_dir // u "docs" // u "dcs-framework.md")
        = file_get (w_files w)
            (output_dir // u "docs" // u "dcs-framework.md")).
Proof.
  split; [| split; [| split]].
  - unfold generate_readme. do 6 apply contains_in_right.
    apply contains_in_left. vm_compute. reflexivity.
  - unfold generate_readme. do 6 apply contains_in_right.
    apply contains_in_left. vm_compute. reflexivity.
  - intros d s. unfold generate_readme, with_domain_slug.
    cbn [version promptcore_ver]. reflexivity.
  - intros output_dir amb dry_run w.
    assert (Hq : ~ In (output_dir // u "docs" // u "dcs-framework.md")
                      (build_paths output_dir config)).
    { rewrite !path_div_plain by (vm_compute; reflexivity).
      rewrite <- app_assoc. cbn [app].
      unfold build_paths.
      rewrite schema_path_parts, css_path_parts, readme_path_parts,
              manifest_path_parts.
      cbn [In]. intros [E | [E | [E | [E | [E | []]]]]].
      - revert E. apply astro_path_differs. vm_compute. discriminate.
      - apply app_inv_head in E. vm_compute in E. discriminate.
      - apply app_inv_head in E. vm_compute in E. discriminate.
      - apply app_inv_head in E. vm_compute in E. discriminate.
      - apply app_inv_head in E. discriminate. }
    pose proof (build_package_outcome output_dir config amb dry_run w) as O.
    destruct (build_package output_dir config amb dry_run w) as [r w'].
    cbn [snd].
    inversion O as [ e w0 Hraise S
                   | ra rs rc w0 Ea Es Ec Hall S
                   | ra rs rc w0 Ea Es Ec Hall Hdry S
                   | ra rs rc w1 Ea Es Ec Hall Hdry S Hw ]; subst;
      try (destruct S as (F & _); rewrite F; reflexivity).
    pose proof (ot_write_artifacts output_dir config
                  (generate_astro_content config) (generate_schema config)
                  generate_css (generate_readme config (utc_now_readme amb))
                  (validated_manifest config amb ra rs rc) w1 _ Hq) as T.
    first [rewrite Hw in T | rewrite <- Hw in T]. cbn [snd] in T. rewrite T.
    destruct S as (F & _). rewrite F. reflexivity.
Qed.

(** ** X20: checking the files against the manifest *)

(** X20.  On a platform whose line separator is the line feed, when the
    configured encoding names UTF-8 and a full build returns,
    recomputing SHA-256 over the bytes of each of the four artifact
    files gives the checksum the manifest records for it.  (Text mode
    writes the platform's line separator for every line feed; where that
    is carriage return and line feed the files differ from the bytes
    that were hashed, see [checksum_differs_from_file_crlf].) *)
Theorem checksum_matches_file_utf8
    (output_dir : Path) (config : BuildConfig) (amb : Ambient) (w : World)
    (m : BuildManifest) (w' : World) :
  w_linesep w = LF ->
  Codec.lookup (encoding config) = Some Codec.UTF8 ->
  build_package output_dir config amb false w = (Ok m, w') ->
  forall name path content,
    In (name, path, content) (artifact_table output_dir config amb) ->
    checksum_matches_file m w' name path = true.
Proof.
  intros LS L H. apply build_package_full_ok in H.
  destruct H as (ra & rs & rc & w1 & _ & _ & _ & _ & S & Hw).
  destruct S as (_ & _ & _ & L1 & _).
  apply write_artifacts_ok in Hw; [| reflexivity | reflexivity].
  rewrite L1, LS, !to_os_newlines_LF in Hw.
  destruct Hw as (ba & bs & bc & br & ha & hs & hc & hr
                  & (Ea & Es & Ec & Er) & (Ha & Hs & Hc & Hr)
                  & _ & C & _ & (Fa & Fs & Fc & Fr) & _).
  unfold default_checksum_encoding in Ha, Hs, Hc, Hr.
  destruct (four_keys_lookup (Sha256.hexdigest ha) (Sha256.hexdigest hs)
                             (Sha256.hexdigest hc) (Sha256.hexdigest hr))
    as (Da & Ds & Dc & Dr).
  rewrite <- C in Da, Ds, Dc, Dr.
  assert (same : forall content written hashed,
             Codec.encode (encoding config) content = Ok written ->
             Codec.encode (u "utf-8") content = Ok hashed ->
             written = hashed).
  { intros content written hashed E1 E2.
    rewrite (encode_utf8_name _ _ L) in E1. congruence. }
  pose proof (same _ _ _ Ea Ha) as Eqa. pose proof (same _ _ _ Es Hs) as Eqs.
  pose proof (same _ _ _ Ec Hc) as Eqc. pose proof (same _ _ _ Er Hr) as Eqr.
  subst ba bs bc br.
  intros name path content Hin.
  unfold artifact_table in Hin. cbn [In] in Hin.
  unfold checksum_matches_file.
  destruct Hin as [E | [E | [E | [E | []]]]]; inversion E; subst; clear E.
  - rewrite Da, Fa. apply str_eqb_refl.
  - rewrite Ds, Fs. apply str_eqb_refl.
  - rewrite Dc, Fc. apply str_eqb_refl.
  - rewrite Dr, Fr. apply str_eqb_refl.
Qed.

Lemma checksum_matches_file_utf8_witness :
  exists m w',
    build_package [u "out"] default_config sample_ambient false empty_world
    = (Ok m, w')
    /\ checksum_matches_file m w' (u "css") (css_path [u "out"]) = true.
Proof.
  destruct default_build_returns as (m & w' & E).
  exists m, w'. split; [exact E |].
  apply (checksum_matches_file_utf8 [u "out"] default_config sample_ambient
           empty_world m w' eq_refl lookup_utf8_literal E
           (u "css") (css_path [u "out"]) generate_css).
  cbn [artifact_table In]. right; right; left. reflexivity.
Defined.

(** On a platform that ends its lines with carriage return and line
    feed the default build, although UTF-8 is configured, leaves a
    stylesheet whose bytes do not have the recorded checksum. *)
Example checksum_differs_from_file_crlf :
  exists m w',
    build_package [u "out"] default_config sample_ambient false crlf_world
    = (Ok m, w')
    /\ checksum_matches_file m w' (u "css") (css_path [u "out"]) = false.
Proof.
  assert (H : match build_package [u "out"] default_config sample_ambient
                                  false crlf_world with
              | (Ok m, w') =>
                  checksum_matches_file m w' (u "css") (css_path [u "out"])
                  = false
              | _ => False
              end) by (vm_compute; reflexivity).
  destruct (build_package [u "out"] default_config sample_ambient false
                          crlf_world) as [[m | e] w']; [| contradiction].
  exists m, w'. split; [reflexivity | exact H].
Qed.
